(** * rtm_watcher: the kernel routing-table watcher of routemachine

    A shallow embedding of [c_src/rtm_watcher.c] and the properties of its
    wire protocol, attribute parser, frame loop and event loop.

    Platform conventions of the embedding
    - Bytes are integers in [0, 256); the output stream (standard output)
      is the list of bytes written so far, oldest first.
    - Memory is a total map from addresses to bytes.  Multi-byte fields are
      read in host order, which is little-endian (x86, x86-64, ARM Linux).
    - C integers are mathematical integers with the conversions written
      out: [to_uint32], [to_int32] and [to_size_t].
    - The pointer size, the value of RTA_MAX (kernel-header dependent) and
      RTPROT_ROUTEMACHINE (from routemachine.h) are section variables.
    - [writev], [send] and [close] are modelled as always succeeding and
      [writev] as writing every byte of every vector.
    - What the source leaves indeterminate is an input: the initial
      content of notify's local table and what [writev] finds in the dead
      object [prio] ([stack_junk]), one value per call of notify.
    - A read never faults in the model.  The process can fault where the
      frame loop has left the buffer, which takes a declared frame length
      of 2^31 or more, and where notify follows a stale table entry, which
      takes a table that memset does not clear far enough; the properties
      that say how a receive attempt and the process end leave these out
      ([receive_in_range], [used_slots_cleared]). *)

From Stdlib Require Import ZArith Lia List String Ascii Bool.
From stdpp Require Import base list.
Import ListNotations.
Local Open Scope Z_scope.

(** ** C integer conversions *)

Module CInt.

(** Conversion to [unsigned int] / [__u32]. *)
Definition to_uint32 (x : Z) : Z := x mod 2 ^ 32.

(** Conversion to [int] (two's complement, as gcc defines it). *)
Definition to_int32 (x : Z) : Z := (x + 2 ^ 31) mod 2 ^ 32 - 2 ^ 31.

(** [(x + 4U - 1) & ~(4U - 1)] in [unsigned int] arithmetic: the body of
    NLMSG_ALIGN and RTA_ALIGN (NLMSG_ALIGNTO and RTA_ALIGNTO are 4U). *)
Definition align4 (x : Z) : Z :=
  Z.land (to_uint32 (x + 4 - 1)) (to_uint32 (Z.lnot (4 - 1))).

(** Object representation of an [n]-byte integer on a little-endian
    host: least significant byte first. *)
Fixpoint le_bytes (n : nat) (v : Z) : list Z :=
  match n with
  | O => []
  | S k => v mod 256 :: le_bytes k (v / 256)
  end.

(** Value of a little-endian byte sequence. *)
Fixpoint le_value (bs : list Z) : Z :=
  match bs with
  | [] => 0
  | b :: rest => b + 256 * le_value rest
  end.

(** [htonl] on a little-endian host: the four bytes reversed. *)
Definition htonl (v : Z) : Z := le_value (rev (le_bytes 4 v)).

End CInt.
Export CInt.

(** ** Memory and C strings *)

Definition mem : Type := Z -> Z.

Definition load8 (m : mem) (a : Z) : Z := m a mod 256.

Definition read_bytes (m : mem) (a : Z) (n : Z) : list Z :=
  map (fun i => load8 m (a + Z.of_nat i)) (seq 0 (Z.to_nat n)).

Definition load16 (m : mem) (a : Z) : Z := le_value (read_bytes m a 2).
Definition load32 (m : mem) (a : Z) : Z := le_value (read_bytes m a 4).

(** A memory image holding the bytes [bs] at addresses [base], [base+1],
    ... and zero everywhere else. *)
Definition mem_of_list (base : Z) (bs : list Z) : mem :=
  fun a => if (base <=? a) then nth (Z.to_nat (a - base)) bs 0 else 0.

(** The characters of a C string literal (without the terminating NUL). *)
Definition cstr (s : string) : list Z :=
  map (fun c => Z.of_N (N_of_ascii c)) (list_ascii_of_string s).

(** ** Constants of the Linux user-space API and of the program *)

Definition RTM_CMD_ROUTE_ADD : Z := 0.
Definition RTM_CMD_ROUTE_DEL : Z := 1.
Definition RTM_CMD_ROUTE_ERR : Z := 255.

Definition BUFSIZE : Z := 8192.

(** [enum response_data] *)
Definition CMD : nat := 0.
Definition MASK : nat := 1.
Definition DST : nat := 2.
Definition GW : nat := 3.
Definition PRIO : nat := 4.
Definition NUM_RESP : nat := 5.

(** <linux/netlink.h>, <linux/rtnetlink.h>, <sys/socket.h>, <errno.h> *)
Definition NLMSG_DONE : Z := 3.
Definition RTM_NEWLINK : Z := 16.
Definition RTM_NEWROUTE : Z := 24.
Definition RTM_DELROUTE : Z := 25.
Definition RTM_GETROUTE : Z := 26.
Definition NLM_F_REQUEST : Z := 1.
Definition NLM_F_DUMP : Z := 768.
Definition AF_UNSPEC : Z := 0.
Definition AF_INET : Z := 2.
Definition AF_INET6 : Z := 10.
Definition RT_TABLE_MAIN : Z := 254.
Definition RTA_DST : Z := 1.
Definition RTA_OIF : Z := 4.
Definition RTA_GATEWAY : Z := 5.
Definition RTA_PRIORITY : Z := 6.
Definition INADDR_ANY : Z := 0.
Definition MSG_TRUNC : Z := 32.
Definition EINTR : Z := 4.
Definition EAGAIN : Z := 11.
Definition EWOULDBLOCK : Z := 11.
Definition ENOBUFS : Z := 105.

Definition sizeof_nlmsghdr : Z := 16.
Definition sizeof_rtmsg : Z := 12.
Definition sizeof_rtattr : Z := 4.
Definition sizeof_rtgenmsg : Z := 1.
Definition sizeof_sockaddr_nl : Z := 12.
Definition sizeof_in_addr : Z := 4.
(** The request structure of request_dump: a [struct nlmsghdr] and a
    [struct rtgenmsg], padded to a multiple of 4. *)
Definition sizeof_req : Z := 20.

(** Netlink macros. *)
Definition NLMSG_ALIGN (len : Z) : Z := align4 len.
Definition NLMSG_HDRLEN : Z := to_int32 (NLMSG_ALIGN sizeof_nlmsghdr).
Definition NLMSG_LENGTH (len : Z) : Z := len + NLMSG_HDRLEN.
Definition NLMSG_DATA (nlh : Z) : Z := nlh + NLMSG_LENGTH 0.
Definition RTA_ALIGN (len : Z) : Z := align4 len.
Definition RTA_LENGTH (len : Z) : Z := RTA_ALIGN sizeof_rtattr + len.
Definition RTA_DATA (rta : Z) : Z := rta + RTA_LENGTH 0.
Definition RTM_RTA (r : Z) : Z := r + NLMSG_ALIGN sizeof_rtmsg.

(** Field accessors: [struct nlmsghdr], [struct rtmsg], [struct rtattr]. *)
Definition nlmsg_len (m : mem) (p : Z) : Z := load32 m p.
Definition nlmsg_type (m : mem) (p : Z) : Z := load16 m (p + 4).
Definition rtm_family (m : mem) (r : Z) : Z := load8 m r.
Definition rtm_dst_len (m : mem) (r : Z) : Z := load8 m (r + 1).
Definition rtm_table (m : mem) (r : Z) : Z := load8 m (r + 4).
Definition rtm_protocol (m : mem) (r : Z) : Z := load8 m (r + 5).
Definition rta_len (m : mem) (rta : Z) : Z := load16 m rta.
Definition rta_type (m : mem) (rta : Z) : Z := load16 m (rta + 2).

(** ** Process outcomes and the output stream *)

Inductive outcome : Type :=
| Return (out : list Z)             (* the function returned *)
| Exit (status : Z) (out : list Z)  (* the process called exit(status) *)
| Timeout (out : list Z).           (* the model ran out of fuel *)

Definition output_of (o : outcome) : list Z :=
  match o with
  | Return out => out
  | Exit _ out => out
  | Timeout out => out
  end.

(** [writev(STDOUT_FILENO, iov, n)]: each vector is the list of bytes
    found at [iov_base .. iov_base + iov_len). *)
Definition writev (out : list Z) (iov : list (list Z)) : list Z :=
  out ++ concat iov.

(** [snprintf(buf, size, "%s", s)] keeps at most [size - 1] characters. *)
Definition snprintf (size : Z) (s : list Z) : list Z :=
  firstn (Z.to_nat (size - 1)) s.

Section Watcher.

(** [sizeof(void * )], which is also [sizeof(size_t)]. *)
Variable sizeof_ptr : Z.
(** RTA_MAX of the kernel headers the program is compiled against. *)
Variable RTA_MAX : Z.
(** The reserved origin protocol, defined in routemachine.h. *)
Variable RTPROT_ROUTEMACHINE : Z.
(** [strerror], as a list of characters. *)
Variable strerror : Z -> list Z.

(** Conversion to [size_t]. *)
Definition to_size_t (x : Z) : Z := x mod 2 ^ (8 * sizeof_ptr).

(** *** error_reply, error_quit *)

Definition error_reply (msg : list Z) (out : list Z) : list Z :=
  let err := RTM_CMD_ROUTE_ERR in
  let len := Z.of_nat (length msg) in
  writev out
    [ firstn 1 (le_bytes 4 err);
      firstn 1 (le_bytes (Z.to_nat sizeof_ptr) len);
      firstn (Z.to_nat len) msg ].

(** The content of [buf] in [error_quit] after [snprintf]. *)
Definition quit_message (msg : list Z) (errno : Z) : list Z :=
  if errno =? 0 then snprintf BUFSIZE msg
  else snprintf BUFSIZE (msg ++ cstr ": " ++ strerror errno).

Definition error_quit (msg : list Z) (errno : Z) (out : list Z) : outcome :=
  let buf := quit_message msg errno in
  Exit 1 (error_reply buf out).

(** *** parse_attrs *)

(** Effect of zeroing the first [k] bytes of one pointer-sized slot
    holding [v] (little-endian: the low bytes come first). *)
Definition clear_low_bytes (k : Z) (v : Z) : Z :=
  if k <=? 0 then v
  else if sizeof_ptr <=? k then 0
  else Z.shiftl (Z.shiftr v (8 * k)) (8 * k).

(** [memset(attrs, 0, n)] on an array of pointers: slot [i] occupies the
    bytes [i * sizeof_ptr .. (i + 1) * sizeof_ptr). *)
Fixpoint memset_table (n : Z) (attrs : list Z) : list Z :=
  match attrs with
  | [] => []
  | a :: rest => clear_low_bytes n a :: memset_table (n - sizeof_ptr) rest
  end.

(** [attrs[i]]; the array has RTA_MAX + 1 slots and the program only
    indexes it below that, a missing slot reads as NULL here. *)
Definition slot (attrs : list Z) (i : Z) : Z :=
  default 0 (attrs !! Z.to_nat i).

Definition RTA_OK (m : mem) (rta len : Z) : bool :=
  (sizeof_rtattr <=? len)
  && (sizeof_rtattr <=? rta_len m rta)
  && (rta_len m rta <=? len).

Fixpoint parse_loop (fuel : nat) (m : mem) (attrs : list Z) (rta len : Z)
  : list Z :=
  match fuel with
  | O => attrs
  | S fuel' =>
      if RTA_OK m rta len then
        let attrs' :=
          if rta_type m rta <=? RTA_MAX
          then <[Z.to_nat (rta_type m rta) := rta]> attrs
          else attrs in
        parse_loop fuel' m attrs'
          (rta + RTA_ALIGN (rta_len m rta))
          (to_int32 (to_uint32 len - RTA_ALIGN (rta_len m rta)))
      else attrs
  end.

(** The loop runs at most [len / 4] times, so [len] units of fuel are
    never used up (see [parse_loop_fuel]). *)
Definition parse_attrs (m : mem) (attrs : list Z) (rta len : Z) : list Z :=
  parse_loop (Z.to_nat len) m
    (memset_table (sizeof_rtattr * (RTA_MAX + 1)) attrs) rta len.

(** *** notify *)

(** What a call of [notify] finds in its own stack frame and the source
    leaves indeterminate.
    - [stale_attrs]: the content of the local array [attrs] before
      [parse_attrs] clears (part of) it.
    - [stale_prio]: what the four bytes at [&prio] hold when [writev]
      reads them.  Both blocks that declare [prio] (lines 152-160) have
      ended by then, so the object is dead: [None] when the bytes still
      hold the value the block stored (the compiler kept the store and the
      slot, as unoptimised builds do), [Some g] when they hold something
      else, the word [g] (optimised builds drop the store and the vector
      carries what the stack held before). *)
Record stack_junk : Type := {
  stale_attrs : list Z;
  stale_prio : option Z
}.

(** The value the block of line 153 or of line 157 stores in [prio]. *)
Definition prio_stored (m : mem) (attrs : list Z) : Z :=
  if negb (slot attrs RTA_PRIORITY =? 0)
  then htonl (load32 m (RTA_DATA (slot attrs RTA_PRIORITY)))
  else htonl 0.

(** The five vectors handed to [writev] for an accepted route.  The
    last one points at the dead object [prio]: its four bytes are those
    of the value stored there, or of what replaced it. *)
Definition route_iov (m : mem) (cmd rtmp host_len : Z) (attrs : list Z)
    (dead_prio : option Z) : list (list Z) :=
  let any := le_bytes 4 INADDR_ANY in
  [ [cmd];
    read_bytes m (rtmp + 1) 1;
    if negb (slot attrs RTA_DST =? 0)
    then read_bytes m (RTA_DATA (slot attrs RTA_DST))
           ((rtm_dst_len m rtmp + 7) / 8)
    else firstn (Z.to_nat sizeof_in_addr) any;
    if negb (slot attrs RTA_GATEWAY =? 0)
    then read_bytes m (RTA_DATA (slot attrs RTA_GATEWAY)) host_len
    else firstn (Z.to_nat sizeof_in_addr) any;
    match dead_prio with
    | None => le_bytes 4 (prio_stored m attrs)
    | Some g => le_bytes 4 g
    end ].

(** [nlmsgp->nlmsg_len - NLMSG_LENGTH(sizeof( *nlmsgp))], computed in
    [size_t] and stored in an [int]. *)
Definition attr_len (m : mem) (nlmsgp : Z) : Z :=
  to_int32 (to_size_t (nlmsg_len m nlmsgp - NLMSG_LENGTH sizeof_nlmsghdr)).

(** [stack] is the indeterminate part of the stack frame of this
    call. *)
Definition notify (m : mem) (nlmsgp : Z) (stack : stack_junk)
    (out : list Z) : list Z :=
  let type := nlmsg_type m nlmsgp in
  if negb ((type =? RTM_NEWROUTE) || (type =? RTM_DELROUTE))
  then error_reply (cstr "not a route") out
  else
    let cmd :=
      if type =? RTM_NEWROUTE then RTM_CMD_ROUTE_ADD
      else RTM_CMD_ROUTE_DEL in
    let len := attr_len m nlmsgp in
    if len <? 0 then error_reply (cstr "wrong message length") out
    else
      let rtmp := NLMSG_DATA nlmsgp in
      if rtm_protocol m rtmp =? RTPROT_ROUTEMACHINE then out
      else if negb (rtm_table m rtmp =? RT_TABLE_MAIN) then out
      else
        let family := rtm_family m rtmp in
        if negb ((family =? AF_INET) || (family =? AF_INET6))
        then error_reply (cstr "bad message family") out
        else
          let host_len := if family =? AF_INET then 4 else 16 in
          let attrs :=
            parse_attrs m (stale_attrs stack) (RTM_RTA rtmp) len in
          writev out (route_iov m cmd rtmp host_len attrs (stale_prio stack)).

(** *** read_routes *)

(** What [recvmsg] left behind: its return value, [errno] afterwards
    (the stale value when the call succeeded), the fields of [msg] it
    updated, the address of the local buffer [buf] and the memory. *)
Record recv_result : Type := {
  rv_ret : Z;
  rv_errno : Z;
  rv_namelen : Z;
  rv_flags : Z;
  rv_buf : Z;
  rv_mem : mem
}.

Definition msg_trunc (r : recv_result) : bool :=
  negb (Z.land (rv_flags r) MSG_TRUNC =? 0).

(** The [while] loop over the frames of one batch.  [junk i] is the
    indeterminate stack content that the [i]-th call of notify finds.
    Memory is a total map: a header read behind the buffer yields what
    the map holds there.  The pointer leaves the neighbourhood of the
    buffer only after a frame whose declared length is 2^31 or more has
    passed both tests (negative as an [int]); from there on the process
    may be killed by a signal where the model goes on reading, so the
    properties that say how the loop ends are stated for receives
    without such a frame ([receive_in_range]). *)
Fixpoint frames_loop (fuel : nat) (r : recv_result) (junk : nat -> stack_junk)
    (i : nat) (p ret : Z) (out : list Z) : outcome :=
  match fuel with
  | O => Timeout out
  | S fuel' =>
      if sizeof_nlmsghdr <=? to_size_t ret then
        let len := to_int32 (nlmsg_len (rv_mem r) p) in
        if (to_size_t len <? sizeof_nlmsghdr) || (ret <? len) then
          if msg_trunc r
          then error_quit (cstr "truncated message") (rv_errno r) out
          else error_quit (cstr "malformed message") (rv_errno r) out
        else
          let out' :=
            if negb (nlmsg_type (rv_mem r) p =? NLMSG_DONE)
            then notify (rv_mem r) p (junk i) out
            else out in
          frames_loop fuel' r junk (S i)
            (p + NLMSG_ALIGN len)
            (to_int32 (to_uint32 ret - NLMSG_ALIGN len))
            out'
      else if msg_trunc r then Return out
      else if negb (ret =? 0)
      then error_quit (cstr "unexpected remaining bytes") (rv_errno r) out
      else Return out
  end.

Definition read_routes (fuel : nat) (r : recv_result)
    (junk : nat -> stack_junk) (out : list Z) : outcome :=
  let ret := to_int32 (rv_ret r) in
  if ret =? -1 then
    if (rv_errno r =? EINTR) || (rv_errno r =? EAGAIN)
       || (rv_errno r =? ENOBUFS)
    then Return out
    else error_quit (cstr "recvmsg") (rv_errno r) out
  else if ret =? 0 then
    error_quit (cstr "recvmsg: EOF") (rv_errno r) out
  else if negb (rv_namelen r =? sizeof_sockaddr_nl) then
    error_quit (cstr "bad message namelen") (rv_errno r) out
  else
    frames_loop fuel r junk 0 (rv_buf r) ret out.

(** *** request_dump *)

(** The bytes of [req] handed to [send]: zeroed by [memset], then the
    fields set one by one. *)
Definition dump_request : list Z :=
  le_bytes 4 sizeof_req
  ++ le_bytes 2 RTM_GETROUTE
  ++ le_bytes 2 (Z.lor NLM_F_REQUEST NLM_F_DUMP)
  ++ le_bytes 4 1
  ++ le_bytes 4 0
  ++ le_bytes 1 AF_UNSPEC
  ++ [0; 0; 0].

(** *** main: the event loop *)

(** System calls issued on the netlink socket, oldest first. *)
Inductive sock_op : Type :=
| Send (datagram : list Z)
| Recvmsg.

(** What persists across iterations: the socket's bit in [wset], the
    output stream and the log of socket calls. *)
Record loop_state : Type := {
  wset_sock : bool;
  stdout : list Z;
  sock_ops : list sock_op
}.

(** One return of [select] and what the calls of that iteration find:
    the readiness the kernel reports, the result of the one-byte read
    on standard input, and the results of up to two [recvmsg] calls. *)
Record wakeup : Type := {
  sel_res : Z;
  sel_errno : Z;
  stdin_readable : bool;
  sock_readable : bool;
  sock_writable : bool;
  stdin_n : Z;
  stdin_errno : Z;
  recv_first : recv_result;
  junk_first : nat -> stack_junk;
  recv_second : recv_result;
  junk_second : nat -> stack_junk
}.

Inductive loop_result : Type :=
| Running (st : loop_state)
| Halted (status : Z) (st : loop_state)
| OutOfFuel (st : loop_state).

Definition state_of (lr : loop_result) : loop_state :=
  match lr with
  | Running st => st
  | Halted _ st => st
  | OutOfFuel st => st
  end.

Definition and_then (lr : loop_result) (k : loop_state -> loop_result)
  : loop_result :=
  match lr with
  | Running st => k st
  | _ => lr
  end.

Definition lift (st : loop_state) (o : outcome) : loop_result :=
  let st' out :=
    {| wset_sock := wset_sock st; stdout := out;
       sock_ops := sock_ops st |} in
  match o with
  | Return out => Running (st' out)
  | Exit status out => Halted status (st' out)
  | Timeout out => OutOfFuel (st' out)
  end.

Definition call_request_dump (st : loop_state) : loop_state :=
  {| wset_sock := wset_sock st; stdout := stdout st;
     sock_ops := sock_ops st ++ [Send dump_request] |}.

Definition call_read_routes (fuel : nat) (r : recv_result)
    (junk : nat -> stack_junk) (st : loop_state) : loop_result :=
  let st' :=
    {| wset_sock := wset_sock st; stdout := stdout st;
       sock_ops := sock_ops st ++ [Recvmsg] |} in
  lift st' (read_routes fuel r junk (stdout st')).

(** One iteration of [for (;;)].  [select] overwrites both sets with
    the ready subset of what was passed in; [rset] is re-armed at the
    top of every iteration, [wset] is not. *)
Definition iteration (fuel : nat) (w : wakeup) (st : loop_state)
  : loop_result :=
  if sel_res w =? -1 then
    lift st (error_quit (cstr "select") (sel_errno w) (stdout st))
  else
    let rset_stdin := stdin_readable w in
    let rset_sock := sock_readable w in
    let wset := wset_sock st && sock_writable w in
    let st0 :=
      {| wset_sock := wset; stdout := stdout st;
         sock_ops := sock_ops st |} in
    and_then
      (if rset_stdin then
         if (stdin_n w =? -1) && negb (stdin_errno w =? EWOULDBLOCK)
         then lift st0 (error_quit (cstr "read") (stdin_errno w)
                          (stdout st0))
         else if stdin_n w =? 0 then Halted 0 st0
         else Running st0
       else Running st0)
      (fun st1 =>
         and_then
           (if wset_sock st1 then
              let st2 :=
                {| wset_sock := false; stdout := stdout st1;
                   sock_ops := sock_ops st1 |} in
              call_read_routes fuel (recv_first w) (junk_first w)
                (call_request_dump st2)
            else Running st1)
           (fun st3 =>
              if rset_sock
              then call_read_routes fuel (recv_second w) (junk_second w)
                     st3
              else Running st3)).

(** The loop over a finite sequence of wake-ups. *)
Fixpoint event_loop (fuel : nat) (ws : list wakeup) (st : loop_state)
  : loop_result :=
  match ws with
  | [] => Running st
  | w :: ws' => and_then (iteration fuel w st) (event_loop fuel ws')
  end.

(** State on entry to the loop, after a set-up ([bind_socket],
    [set_nonblock]) that succeeded: [FD_SET(sock, &wset)], nothing
    written. *)
Definition initial_state : loop_state :=
  {| wset_sock := true; stdout := []; sock_ops := [] |}.

Definition main (fuel : nat) (ws : list wakeup) : loop_result :=
  event_loop fuel ws initial_state.

(** Number of dump requests among the socket calls. *)
Definition is_send (op : sock_op) : bool :=
  match op with
  | Send _ => true
  | Recvmsg => false
  end.

Definition dumps_sent (st : loop_state) : nat :=
  length (List.filter is_send (sock_ops st)).

(** ** Vocabulary of the properties *)

(** Wire form of an error record: command 255, one length byte, then
    the message. *)
Definition error_record (msg : list Z) : list Z :=
  RTM_CMD_ROUTE_ERR :: Z.of_nat (length msg) mod 256 :: msg.

(** The message is a route addition or a route deletion. *)
Definition is_route (m : mem) (p : Z) : bool :=
  (nlmsg_type m p =? RTM_NEWROUTE) || (nlmsg_type m p =? RTM_DELROUTE).

Definition route_cmd (m : mem) (p : Z) : Z :=
  if nlmsg_type m p =? RTM_NEWROUTE then RTM_CMD_ROUTE_ADD
  else RTM_CMD_ROUTE_DEL.

(** The route is self-authored or outside the main table. *)
Definition suppressed (m : mem) (p : Z) : bool :=
  (rtm_protocol m (NLMSG_DATA p) =? RTPROT_ROUTEMACHINE)
  || negb (rtm_table m (NLMSG_DATA p) =? RT_TABLE_MAIN).

Definition family_known (m : mem) (p : Z) : bool :=
  (rtm_family m (NLMSG_DATA p) =? AF_INET)
  || (rtm_family m (NLMSG_DATA p) =? AF_INET6).

(** Address width implied by the family. *)
Definition host_len (m : mem) (p : Z) : Z :=
  if rtm_family m (NLMSG_DATA p) =? AF_INET then 4 else 16.

(** The message reaches the final [writev] of [notify]. *)
Definition accepted (m : mem) (p : Z) : bool :=
  is_route m p && (0 <=? attr_len m p) && negb (suppressed m p)
  && family_known m p.

(** The attribute table [notify] works with, and its five vectors. *)
Definition parsed_attrs (m : mem) (p : Z) (junk : stack_junk) : list Z :=
  parse_attrs m (stale_attrs junk) (RTM_RTA (NLMSG_DATA p)) (attr_len m p).

Definition event_iov (m : mem) (p : Z) (junk : stack_junk)
  : list (list Z) :=
  route_iov m (route_cmd m p) (NLMSG_DATA p) (host_len m p)
    (parsed_attrs m p junk) (stale_prio junk).

Definition field (i : nat) (iov : list (list Z)) : list Z := nth i iov [].

(** Walking over the complete frames at the addresses [fs], starting at
    [p] with [ret] bytes left: the position and the byte count after the
    last of them, or [None] when one of them is not a complete frame. *)
Fixpoint after_frames (m : mem) (p ret : Z) (fs : list Z) : option (Z * Z) :=
  match fs with
  | [] => Some (p, ret)
  | f :: fs' =>
      let len := to_int32 (nlmsg_len m p) in
      if (f =? p) && (sizeof_nlmsghdr <=? len) && (len <=? ret)
      then after_frames m (p + NLMSG_ALIGN len) (ret - NLMSG_ALIGN len) fs'
      else None
  end.

(** Output after dispatching the frames [fs] in order, the [i]-th and
    following calls of [notify]; terminator frames are skipped. *)
Fixpoint dispatch_all (m : mem) (junk : nat -> stack_junk) (i : nat)
    (fs : list Z) (out : list Z) : list Z :=
  match fs with
  | [] => out
  | f :: fs' =>
      dispatch_all m junk (S i) fs'
        (if negb (nlmsg_type m f =? NLMSG_DONE)
         then notify m f (junk i) out
         else out)
  end.

(** Every [send] in a log of socket calls is directly followed by a
    [recvmsg]. *)
Fixpoint send_then_recv (ops : list sock_op) : bool :=
  match ops with
  | [] => true
  | Send _ :: rest =>
      match rest with
      | Recvmsg :: _ => send_then_recv rest
      | _ => false
      end
  | Recvmsg :: rest => send_then_recv rest
  end.

(** Control-input handling lets the iteration go on: the descriptor is
    not ready, or the read returned neither end-of-file nor a fatal
    error. *)
Definition stdin_passes (w : wakeup) : bool :=
  negb (stdin_readable w)
  || negb (((stdin_n w =? -1) && negb (stdin_errno w =? EWOULDBLOCK))
           || (stdin_n w =? 0)).

(** The attributes the loop of parse_attrs visits, in order. *)
Fixpoint attr_walk (fuel : nat) (m : mem) (rta len : Z) : list Z :=
  match fuel with
  | O => []
  | S fuel' =>
      if RTA_OK m rta len then
        rta :: attr_walk fuel' m
                 (rta + RTA_ALIGN (rta_len m rta))
                 (to_int32 (to_uint32 len - RTA_ALIGN (rta_len m rta)))
      else []
  end.

(** The last attribute of kind [k] in a list of attribute addresses. *)
Fixpoint last_of_kind (m : mem) (k : Z) (l : list Z) : option Z :=
  match l with
  | [] => None
  | a :: l' =>
      match last_of_kind m k l' with
      | Some b => Some b
      | None => if rta_type m a =? k then Some a else None
      end
  end.

(** The wake-up lets an armed loop send the dump request: [select] did
    not fail, it reports the socket writable, and control-input handling
    lets the iteration go on. *)
Definition dump_fires (w : wakeup) : bool :=
  negb (sel_res w =? -1) && sock_writable w && stdin_passes w.

(** Value of a byte sequence read in network byte order (most
    significant byte first). *)
Definition be_value (bs : list Z) : Z := le_value (rev bs).

(** An outcome with [pre] put in front of its output. *)
Definition prepend_output (pre : list Z) (o : outcome) : outcome :=
  match o with
  | Return out => Return (pre ++ out)
  | Exit status out => Exit status (pre ++ out)
  | Timeout out => Timeout (pre ++ out)
  end.

(** The positions at which the loop of [read_routes] reads a frame
    header ([p->nlmsg_len] in line 236), in order. *)
Fixpoint frame_walk (fuel : nat) (r : recv_result) (p ret : Z) : list Z :=
  match fuel with
  | O => []
  | S fuel' =>
      if sizeof_nlmsghdr <=? to_size_t ret then
        let len := to_int32 (nlmsg_len (rv_mem r) p) in
        p :: (if (to_size_t len <? sizeof_nlmsghdr) || (ret <? len) then []
              else frame_walk fuel' r
                     (p + NLMSG_ALIGN len)
                     (to_int32 (to_uint32 ret - NLMSG_ALIGN len)))
      else []
  end.

(** The same for a call of [read_routes]: no header is read when the
    receive failed, hit the end of the channel or reports a sender
    address of the wrong length. *)
Definition read_walk (fuel : nat) (r : recv_result) : list Z :=
  let ret := to_int32 (rv_ret r) in
  if (ret =? -1) || (ret =? 0)
     || negb (rv_namelen r =? sizeof_sockaddr_nl)
  then []
  else frame_walk fuel r (rv_buf r) ret.

(** The receive keeps the frame loop at the buffer: [recvmsg] returned
    -1 or a byte count that fits the buffer, and every declared length
    the loop reads is below 2^31, so that none is negative as the [int]
    of line 236 and no frame moves the pointer by 2 GiB or more. *)
Definition receive_in_range (fuel : nat) (r : recv_result) : bool :=
  (-1 <=? rv_ret r) && (rv_ret r <=? BUFSIZE)
  && forallb (fun q => nlmsg_len (rv_mem r) q <? 2 ^ 31) (read_walk fuel r).

(** Both receives of a wake-up are of that kind. *)
Definition wakeup_in_range (fuel : nat) (w : wakeup) : bool :=
  receive_in_range fuel (recv_first w)
  && receive_in_range fuel (recv_second w).

(** [memset] in parse_attrs reaches the slots of the three kinds that
    notify reads (destination, gateway, priority), so that notify never
    follows a stale pointer.  With 8-byte pointers this needs RTA_MAX to
    be 13 or more. *)
Definition used_slots_cleared : bool :=
  (RTA_PRIORITY + 1) * sizeof_ptr <=? sizeof_rtattr * (RTA_MAX + 1).

(** *** bind_socket, set_nonblock and the set-up in main *)

(** <sys/socket.h>, <linux/netlink.h>, <linux/rtnetlink.h>, <fcntl.h>,
    <unistd.h> *)
Definition PF_NETLINK : Z := 16.
Definition AF_NETLINK : Z := 16.
Definition SOCK_RAW : Z := 3.
Definition NETLINK_ROUTE : Z := 0.
Definition SOL_SOCKET : Z := 1.
Definition SO_SNDBUF : Z := 7.
Definition SO_RCVBUF : Z := 8.
Definition RTMGRP_LINK : Z := 1.
Definition RTMGRP_IPV4_IFADDR : Z := 16.
Definition RTMGRP_IPV4_ROUTE : Z := 64.
Definition RTMGRP_IPV6_IFADDR : Z := 256.
Definition RTMGRP_IPV6_ROUTE : Z := 1024.
Definition F_GETFL : Z := 3.
Definition F_SETFL : Z := 4.
Definition O_NONBLOCK : Z := 2048.
Definition STDIN_FILENO : Z := 0.

(** What a system call gave: its return value and [errno] after it. *)
Record sys_result : Type := {
  sys_ret : Z;
  sys_errno : Z
}.

(** The system calls of the set-up, with their arguments. *)
Inductive setup_call : Type :=
| CallSocket (domain type protocol : Z)
| CallSetsockopt (fd level optname optval : Z)
| CallBind (fd family pid groups : Z)
| CallFcntl (fd cmd arg : Z).

(** A set-up function returns a value or ends the process through
    [error_quit]; either way it has made some calls. *)
Inductive setup (A : Type) : Type :=
| Went (a : A) (calls : list setup_call)
| Quit (o : outcome) (calls : list setup_call).
Global Arguments Went {A} a calls.
Global Arguments Quit {A} o calls.

(** The results of the four calls of bind_socket. *)
Record bind_results : Type := {
  res_socket : sys_result;
  res_sndbuf : sys_result;
  res_rcvbuf : sys_result;
  res_bind : sys_result
}.

Definition bind_socket (e : bind_results) (out : list Z) : setup Z :=
  let sndbuf := 32768 in
  let rcvbuf := 1048576 in
  let sock := sys_ret (res_socket e) in
  let calls1 := [CallSocket PF_NETLINK SOCK_RAW NETLINK_ROUTE] in
  if sock =? -1 then
    Quit (error_quit (cstr "socket") (sys_errno (res_socket e)) out) calls1
  else
    let calls2 :=
      calls1 ++ [CallSetsockopt sock SOL_SOCKET SO_SNDBUF sndbuf] in
    if sys_ret (res_sndbuf e) =? -1 then
      Quit (error_quit (cstr "setsockopt[SO_SNDBUF]")
              (sys_errno (res_sndbuf e)) out) calls2
    else
      let calls3 :=
        calls2 ++ [CallSetsockopt sock SOL_SOCKET SO_RCVBUF rcvbuf] in
      if sys_ret (res_rcvbuf e) =? -1 then
        Quit (error_quit (cstr "setsockopt[SO_RCVBUF]")
                (sys_errno (res_rcvbuf e)) out) calls3
      else
        let nl_groups :=
          Z.lor RTMGRP_LINK
            (Z.lor RTMGRP_IPV4_IFADDR
               (Z.lor RTMGRP_IPV4_ROUTE
                  (Z.lor RTMGRP_IPV6_IFADDR RTMGRP_IPV6_ROUTE))) in
        let calls4 := calls3 ++ [CallBind sock AF_NETLINK 0 nl_groups] in
        if sys_ret (res_bind e) =? -1 then
          Quit (error_quit (cstr "bind") (sys_errno (res_bind e)) out) calls4
        else Went sock calls4.

Definition set_nonblock (fd : Z) (getfl setfl : sys_result) (out : list Z)
  : setup unit :=
  let res := sys_ret getfl in
  let calls1 := [CallFcntl fd F_GETFL 0] in
  if res =? -1 then
    Quit (error_quit (cstr "fcntl[F_GETFL]") (sys_errno getfl) out) calls1
  else
    let calls2 := calls1 ++ [CallFcntl fd F_SETFL (Z.lor res O_NONBLOCK)] in
    if sys_ret setfl =? -1 then
      Quit (error_quit (cstr "fcntl[F_SETFL]") (sys_errno setfl) out) calls2
    else Went tt calls2.

(** The results of every call of the set-up. *)
Record setup_results : Type := {
  res_bind_socket : bind_results;
  res_getfl_stdin : sys_result;
  res_setfl_stdin : sys_result;
  res_getfl_sock : sys_result;
  res_setfl_sock : sys_result
}.

(** A run of the program: the calls of the set-up and how the loop, if
    it was entered, went. *)
Record run : Type := {
  run_calls : list setup_call;
  run_result : loop_result
}.

(** The state while the set-up runs: nothing written, no call on the
    socket's data path yet. *)
Definition before_loop : loop_state :=
  {| wset_sock := false; stdout := []; sock_ops := [] |}.

(** The function [main] of the source from its first line: the set-up,
    then the event loop ([main] above). *)
Definition program (e : setup_results) (fuel : nat) (ws : list wakeup)
  : run :=
  match bind_socket (res_bind_socket e) [] with
  | Quit o calls =>
      {| run_calls := calls; run_result := lift before_loop o |}
  | Went sock calls1 =>
      match set_nonblock STDIN_FILENO (res_getfl_stdin e)
              (res_setfl_stdin e) [] with
      | Quit o calls2 =>
          {| run_calls := calls1 ++ calls2;
             run_result := lift before_loop o |}
      | Went _ calls2 =>
          match set_nonblock sock (res_getfl_sock e) (res_setfl_sock e)
                  [] with
          | Quit o calls3 =>
              {| run_calls := calls1 ++ calls2 ++ calls3;
                 run_result := lift before_loop o |}
          | Went _ calls3 =>
              {| run_calls := calls1 ++ calls2 ++ calls3;
                 run_result := main fuel ws |}
          end
      end
  end.

(** Every call of the set-up succeeded. *)
Definition setup_ok (e : setup_results) : bool :=
  negb (sys_ret (res_socket (res_bind_socket e)) =? -1)
  && negb (sys_ret (res_sndbuf (res_bind_socket e)) =? -1)
  && negb (sys_ret (res_rcvbuf (res_bind_socket e)) =? -1)
  && negb (sys_ret (res_bind (res_bind_socket e)) =? -1)
  && negb (sys_ret (res_getfl_stdin e) =? -1)
  && negb (sys_ret (res_setfl_stdin e) =? -1)
  && negb (sys_ret (res_getfl_sock e) =? -1)
  && negb (sys_ret (res_setfl_sock e) =? -1).

(** ** Sample platforms and inputs *)

(** Pointer sizes of x86-64 and of 32-bit x86, an RTA_MAX (RTA_MARK, 16)
    and a value for the reserved origin protocol. *)
Definition lp64 : Z := 8.
Definition ilp32 : Z := 4.
Definition rta_max_sample : Z := 16.
Definition rtprot_sample : Z := 42.

Definition strerror_sample (e : Z) : list Z :=
  if e =? EAGAIN then cstr "Resource temporarily unavailable"
  else cstr "Unknown error".

Definition nlmsghdr_bytes (len type : Z) : list Z :=
  le_bytes 4 len ++ le_bytes 2 type ++ le_bytes 2 0
  ++ le_bytes 4 0 ++ le_bytes 4 0.

Definition rtmsg_bytes (family dst_len table protocol : Z) : list Z :=
  [family; dst_len; 0; 0; table; protocol; 0; 1] ++ le_bytes 4 0.

Definition rtattr_bytes (type : Z) (payload : list Z) : list Z :=
  le_bytes 2 (sizeof_rtattr + Z.of_nat (length payload))
  ++ le_bytes 2 type ++ payload.

(** Address of the receive buffer and a table full of stale pointers. *)
Definition buf_addr : Z := 4096.
Definition stale_pointer : Z := 140737488347136.
Definition stale_table : list Z := repeat stale_pointer 17.

(** What notify finds on its stack: that table, and the slot of [prio]
    still holding the value stored (as in an unoptimised build) or
    holding an older word instead. *)
Definition stale_stack : stack_junk :=
  {| stale_attrs := stale_table; stale_prio := None |}.
Definition garbled_stack : stack_junk :=
  {| stale_attrs := stale_table; stale_prio := Some 3735928559 |}.
Definition stale_stacks : nat -> stack_junk := fun _ => stale_stack.

(** 192.168.1.0/24 on device 2, main table, added at boot. *)
Definition ipv4_route_24 : list Z :=
  nlmsghdr_bytes 44 RTM_NEWROUTE
  ++ rtmsg_bytes AF_INET 24 RT_TABLE_MAIN 3
  ++ rtattr_bytes RTA_DST [192; 168; 1; 0]
  ++ rtattr_bytes RTA_OIF [2; 0; 0; 0].

(** The IPv4 default route through 192.168.1.1: no destination. *)
Definition ipv4_default_route : list Z :=
  nlmsghdr_bytes 44 RTM_NEWROUTE
  ++ rtmsg_bytes AF_INET 0 RT_TABLE_MAIN 3
  ++ rtattr_bytes RTA_GATEWAY [192; 168; 1; 1]
  ++ rtattr_bytes RTA_OIF [2; 0; 0; 0].

(** An IPv6 default route on device 2 with metric 1024: no destination
    and no gateway. *)
Definition ipv6_default_route : list Z :=
  nlmsghdr_bytes 44 RTM_NEWROUTE
  ++ rtmsg_bytes AF_INET6 0 RT_TABLE_MAIN 3
  ++ rtattr_bytes RTA_PRIORITY [0; 4; 0; 0]
  ++ rtattr_bytes RTA_OIF [2; 0; 0; 0].

(** A link notification. *)
Definition newlink_message : list Z :=
  nlmsghdr_bytes 32 RTM_NEWLINK ++ repeat 0 16.

(** A self-authored route, whole and cut after eight bytes of rtmsg. *)
Definition self_route : list Z :=
  nlmsghdr_bytes 44 RTM_NEWROUTE
  ++ rtmsg_bytes AF_INET 24 RT_TABLE_MAIN rtprot_sample
  ++ rtattr_bytes RTA_DST [10; 1; 2; 0]
  ++ rtattr_bytes RTA_OIF [2; 0; 0; 0].

Definition short_self_route : list Z :=
  nlmsghdr_bytes 24 RTM_NEWROUTE
  ++ firstn 8 (rtmsg_bytes AF_INET 0 RT_TABLE_MAIN rtprot_sample).

(** A route of family 12 (DECnet). *)
Definition decnet_route : list Z :=
  nlmsghdr_bytes 36 RTM_NEWROUTE
  ++ rtmsg_bytes 12 0 RT_TABLE_MAIN 3
  ++ rtattr_bytes RTA_OIF [2; 0; 0; 0].

(** A batch that holds just that route. *)
Definition decnet_batch : recv_result :=
  {| rv_ret := 36; rv_errno := 0; rv_namelen := sizeof_sockaddr_nl;
     rv_flags := 0; rv_buf := buf_addr;
     rv_mem := mem_of_list buf_addr decnet_route |}.

(** A route of the local table (255) padded to [n] bytes. *)
Definition local_table_route (n : Z) : list Z :=
  nlmsghdr_bytes n RTM_NEWROUTE
  ++ rtmsg_bytes AF_INET 32 255 2
  ++ repeat 0 (Z.to_nat (n - 28)).

(** A full buffer of a truncated datagram: two complete frames, then a
    header that declares 60 bytes with 16 left. *)
Definition truncated_batch : recv_result :=
  {| rv_ret := BUFSIZE; rv_errno := 0; rv_namelen := sizeof_sockaddr_nl;
     rv_flags := MSG_TRUNC; rv_buf := buf_addr;
     rv_mem := mem_of_list buf_addr
                 (ipv4_route_24 ++ local_table_route 8132
                  ++ nlmsghdr_bytes 60 RTM_NEWROUTE) |}.

(** The same with only 8 bytes left after the complete frames. *)
Definition truncated_batch_leftover : recv_result :=
  {| rv_ret := BUFSIZE; rv_errno := 0; rv_namelen := sizeof_sockaddr_nl;
     rv_flags := MSG_TRUNC; rv_buf := buf_addr;
     rv_mem := mem_of_list buf_addr
                 (ipv4_route_24 ++ local_table_route 8140
                  ++ [60; 0; 0; 0; 24; 0; 0; 0]) |}.

(** The addresses of the two complete frames of both batches. *)
Definition complete_frames : list Z := [buf_addr; buf_addr + 44].

(** Receive attempts that fail or hit the end of the channel. *)
Definition recv_failed (errno : Z) : recv_result :=
  {| rv_ret := -1; rv_errno := errno; rv_namelen := sizeof_sockaddr_nl;
     rv_flags := 0; rv_buf := buf_addr; rv_mem := mem_of_list buf_addr [] |}.

Definition recv_eof : recv_result :=
  {| rv_ret := 0; rv_errno := 0; rv_namelen := sizeof_sockaddr_nl;
     rv_flags := 0; rv_buf := buf_addr; rv_mem := mem_of_list buf_addr [] |}.

(** Wake-ups: the parent closed the control input at once; a poke on the
    control input with the socket not writable; the socket ready both
    ways with nothing to receive. *)
Definition eof_at_start : wakeup :=
  {| sel_res := 2; sel_errno := 0;
     stdin_readable := true; sock_readable := false; sock_writable := true;
     stdin_n := 0; stdin_errno := 0;
     recv_first := recv_failed EAGAIN; junk_first := stale_stacks;
     recv_second := recv_failed EAGAIN; junk_second := stale_stacks |}.

Definition poke_only : wakeup :=
  {| sel_res := 1; sel_errno := 0;
     stdin_readable := true; sock_readable := false; sock_writable := false;
     stdin_n := 1; stdin_errno := 0;
     recv_first := recv_failed EAGAIN; junk_first := stale_stacks;
     recv_second := recv_failed EAGAIN; junk_second := stale_stacks |}.

Definition socket_ready : wakeup :=
  {| sel_res := 1; sel_errno := 0;
     stdin_readable := false; sock_readable := true; sock_writable := true;
     stdin_n := 0; stdin_errno := 0;
     recv_first := recv_failed EAGAIN; junk_first := stale_stacks;
     recv_second := recv_failed EAGAIN; junk_second := stale_stacks |}.

(** *** Further sample inputs *)

(** A table of NULL pointers, and a stack that holds it. *)
Definition null_table : list Z := repeat 0 17.
Definition null_stack : stack_junk :=
  {| stale_attrs := null_table; stale_prio := None |}.

(** A route that carries two destination attributes. *)
Definition twice_dst_route : list Z :=
  nlmsghdr_bytes 52 RTM_NEWROUTE
  ++ rtmsg_bytes AF_INET 24 RT_TABLE_MAIN 3
  ++ rtattr_bytes RTA_DST [10; 0; 0; 0]
  ++ rtattr_bytes RTA_DST [192; 168; 1; 0]
  ++ rtattr_bytes RTA_OIF [2; 0; 0; 0].

(** An attribute block of two attributes of kinds 200 and 300. *)
Definition unknown_attr_block : list Z :=
  rtattr_bytes 200 [1; 2; 3; 4] ++ rtattr_bytes 300 [5; 6; 7; 8].

(** The terminator of a dump. *)
Definition done_frame : list Z :=
  nlmsghdr_bytes 20 NLMSG_DONE ++ [0; 0; 0; 0].

Definition batch_of (ret flags namelen : Z) (bytes : list Z) : recv_result :=
  {| rv_ret := ret; rv_errno := 0; rv_namelen := namelen;
     rv_flags := flags; rv_buf := buf_addr;
     rv_mem := mem_of_list buf_addr bytes |}.

(** A route and the terminator; the terminator alone. *)
Definition add_and_done_batch : recv_result :=
  batch_of 64 0 sizeof_sockaddr_nl (ipv4_route_24 ++ done_frame).

Definition done_batch : recv_result :=
  batch_of 20 0 sizeof_sockaddr_nl done_frame.

(** A route followed by 8 stray bytes; by a header that declares 60
    bytes with 16 left; a batch with a sender address of 8 bytes. *)
Definition leftover_batch : recv_result :=
  batch_of 52 0 sizeof_sockaddr_nl
    (ipv4_route_24 ++ [1; 2; 3; 4; 5; 6; 7; 8]).

Definition malformed_batch : recv_result :=
  batch_of 60 0 sizeof_sockaddr_nl
    (ipv4_route_24 ++ nlmsghdr_bytes 60 RTM_NEWROUTE).

Definition short_address_batch : recv_result :=
  batch_of 64 0 8 (ipv4_route_24 ++ done_frame).

(** A header that declares 2^31 bytes; a frame of 17 bytes that fills
    the received bytes. *)
Definition huge_length_batch : recv_result :=
  batch_of 16 0 sizeof_sockaddr_nl (nlmsghdr_bytes (2 ^ 31) NLMSG_DONE).

Definition unpadded_batch : recv_result :=
  batch_of 17 0 sizeof_sockaddr_nl (nlmsghdr_bytes 17 NLMSG_DONE ++ [0]).

(** Wake-ups: select interrupted by a signal; the read on the control
    input failing with EIO (5). *)
Definition select_interrupted : wakeup :=
  {| sel_res := -1; sel_errno := EINTR;
     stdin_readable := false; sock_readable := false; sock_writable := false;
     stdin_n := 0; stdin_errno := 0;
     recv_first := recv_failed EAGAIN; junk_first := stale_stacks;
     recv_second := recv_failed EAGAIN; junk_second := stale_stacks |}.

Definition stdin_failed : wakeup :=
  {| sel_res := 1; sel_errno := 0;
     stdin_readable := true; sock_readable := true; sock_writable := true;
     stdin_n := -1; stdin_errno := 5;
     recv_first := recv_failed EAGAIN; junk_first := stale_stacks;
     recv_second := recv_failed EAGAIN; junk_second := stale_stacks |}.

(** The loop after the dump request, with two bytes written. *)
Definition disarmed_state : loop_state :=
  {| wset_sock := false; stdout := [1; 2];
     sock_ops := [Send dump_request; Recvmsg] |}.

(** Set-up calls that succeed (the socket is descriptor 3, the flags
    are O_RDWR) and one that fails. *)
Definition call_ok (ret : Z) : sys_result :=
  {| sys_ret := ret; sys_errno := 0 |}.

Definition call_failed (errno : Z) : sys_result :=
  {| sys_ret := -1; sys_errno := errno |}.

Definition setup_succeeds : setup_results :=
  {| res_bind_socket :=
       {| res_socket := call_ok 3; res_sndbuf := call_ok 0;
          res_rcvbuf := call_ok 0; res_bind := call_ok 0 |};
     res_getfl_stdin := call_ok 2; res_setfl_stdin := call_ok 0;
     res_getfl_sock := call_ok 2; res_setfl_sock := call_ok 0 |}.

Definition setup_rcvbuf_fails : setup_results :=
  {| res_bind_socket :=
       {| res_socket := call_ok 3; res_sndbuf := call_ok 0;
          res_rcvbuf := call_failed 1; res_bind := call_ok 0 |};
     res_getfl_stdin := call_ok 2; res_setfl_stdin := call_ok 0;
     res_getfl_sock := call_ok 2; res_setfl_sock := call_ok 0 |}.

Definition setup_bind_fails : setup_results :=
  {| res_bind_socket :=
       {| res_socket := call_ok 3; res_sndbuf := call_ok 0;
          res_rcvbuf := call_ok 0; res_bind := call_failed 13 |};
     res_getfl_stdin := call_ok 2; res_setfl_stdin := call_ok 0;
     res_getfl_sock := call_ok 2; res_setfl_sock := call_ok 0 |}.

(** ** Facts about the integer conversions and memory reads *)

Lemma to_int32_id x : - 2 ^ 31 <= x < 2 ^ 31 -> to_int32 x = x.
Proof. intros H. unfold to_int32. rewrite Z.mod_small; lia. Qed.

Lemma to_int32_sub_uint32 a b : to_int32 (to_uint32 a - b) = to_int32 (a - b).
Proof.
  unfold to_int32, to_uint32.
  replace (a mod 2 ^ 32 - b + 2 ^ 31) with (a mod 2 ^ 32 + (2 ^ 31 - b)) by lia.
  rewrite Z.add_mod_idemp_l by lia. f_equal. f_equal. lia.
Qed.

Lemma land_lnot3 y : Z.land y (Z.lnot 3) = 4 * (y / 4).
Proof.
  change (Z.lnot 3) with (Z.lnot (Z.ones 2)).
  rewrite <- Z.ldiff_land, Z.ldiff_ones_r by lia.
  rewrite Z.shiftr_div_pow2, Z.shiftl_mul_pow2 by lia. change (2 ^ 2) with 4. lia.
Qed.

Lemma align4_spec x : 0 <= x + 3 < 2 ^ 32 -> align4 x = 4 * ((x + 3) / 4).
Proof.
  intros H. unfold align4, to_uint32.
  replace (x + 4 - 1) with (x + 3) by lia.
  rewrite (Z.mod_small (x + 3)) by lia.
  change (4 - 1) with 3.
  rewrite <- (Z.land_ones (Z.lnot 3) 32) by lia.
  rewrite Z.land_assoc, Z.land_ones, land_lnot3 by lia.
  pose proof (Z.div_mod (x + 3) 4 ltac:(lia)).
  pose proof (Z.mod_pos_bound (x + 3) 4 ltac:(lia)).
  apply Z.mod_small. lia.
Qed.

Lemma align4_bounds x : 0 <= x + 3 < 2 ^ 32 -> x <= align4 x <= x + 3.
Proof.
  intros H. rewrite align4_spec by lia.
  pose proof (Z.div_mod (x + 3) 4 ltac:(lia)).
  pose proof (Z.mod_pos_bound (x + 3) 4 ltac:(lia)). lia.
Qed.

Lemma load8_range m a : 0 <= load8 m a < 256.
Proof. unfold load8. apply Z.mod_pos_bound. lia. Qed.

Lemma length_read_bytes m a n : length (read_bytes m a n) = Z.to_nat n.
Proof. unfold read_bytes. rewrite length_map, length_seq. reflexivity. Qed.

Ltac load8_bounds :=
  repeat match goal with
  | |- context [load8 ?m ?x] =>
      let H := fresh "Hb" in
      pose proof (load8_range m x) as H;
      generalize dependent (load8 m x); intros
  end.

Lemma load16_range m a : 0 <= load16 m a < 65536.
Proof. unfold load16, read_bytes. simpl. load8_bounds. lia. Qed.

Lemma load32_range m a : 0 <= load32 m a < 2 ^ 32.
Proof. unfold load32, read_bytes. simpl. load8_bounds. lia. Qed.

Lemma pow_size_t_ge : 4 <= sizeof_ptr -> 2 ^ 32 <= 2 ^ (8 * sizeof_ptr).
Proof. intros H. apply Z.pow_le_mono_r; lia. Qed.

Lemma to_size_t_small x :
  4 <= sizeof_ptr -> 0 <= x < 2 ^ 32 -> to_size_t x = x.
Proof.
  intros Hp Hx. unfold to_size_t. pose proof (pow_size_t_ge Hp).
  apply Z.mod_small. lia.
Qed.

Lemma to_int32_to_size_t x :
  4 <= sizeof_ptr -> to_int32 (to_size_t x) = to_int32 x.
Proof.
  intros Hp. unfold to_int32, to_size_t.
  rewrite <- (Z.add_mod_idemp_l (x mod _)) by lia.
  rewrite Z.mod_mod_divide.
  - rewrite Z.add_mod_idemp_l by lia. reflexivity.
  - exists (2 ^ (8 * sizeof_ptr - 32)).
    rewrite <- Z.pow_add_r by lia. f_equal. lia.
Qed.

Lemma attr_len_eq m p :
  4 <= sizeof_ptr ->
  32 <= nlmsg_len m p < 2 ^ 31 ->
  attr_len m p = nlmsg_len m p - 32.
Proof.
  intros Hp H. unfold attr_len. rewrite to_int32_to_size_t by assumption.
  change (NLMSG_LENGTH sizeof_nlmsghdr) with 32.
  apply to_int32_id. lia.
Qed.

Lemma attr_len_int m p :
  4 <= sizeof_ptr -> attr_len m p = to_int32 (nlmsg_len m p - 32).
Proof.
  intros Hp. unfold attr_len. rewrite to_int32_to_size_t by assumption.
  reflexivity.
Qed.

(** ** parse_attrs *)

Lemma clear_low_bytes_0 k : clear_low_bytes k 0 = 0.
Proof.
  unfold clear_low_bytes. destruct (k <=? 0); [reflexivity |].
  destruct (sizeof_ptr <=? k); [reflexivity |].
  rewrite Z.shiftr_0_l, Z.shiftl_0_l. reflexivity.
Qed.

Lemma slot_nil i : slot [] i = 0.
Proof. reflexivity. Qed.

Lemma slot_cons a attrs i :
  0 <= i -> slot (a :: attrs) i = if i =? 0 then a else slot attrs (i - 1).
Proof.
  intros Hi. unfold slot. destruct (Z.eqb_spec i 0) as [-> | Hn].
  - reflexivity.
  - replace (Z.to_nat i) with (S (Z.to_nat (i - 1))) by lia. reflexivity.
Qed.

Lemma slot_memset attrs :
  forall n i,
    0 <= i ->
    slot (memset_table n attrs) i =
    clear_low_bytes (n - i * sizeof_ptr) (slot attrs i).
Proof.
  induction attrs as [| a attrs IH]; intros n i Hi.
  - simpl. rewrite !slot_nil, clear_low_bytes_0. reflexivity.
  - simpl. rewrite !slot_cons by assumption.
    destruct (Z.eqb_spec i 0) as [-> | Hn].
    + f_equal. lia.
    + rewrite IH by lia. f_equal. lia.
Qed.

Lemma length_memset n attrs : length (memset_table n attrs) = length attrs.
Proof. revert n. induction attrs; simpl; intros; auto. Qed.

Lemma slot_insert_eq attrs i v :
  (Z.to_nat i < length attrs)%nat -> slot (<[Z.to_nat i := v]> attrs) i = v.
Proof.
  intros H. unfold slot. rewrite list_lookup_insert_eq by assumption.
  reflexivity.
Qed.

Lemma slot_insert_ne attrs i j v :
  0 <= i -> 0 <= j -> i <> j ->
  slot (<[Z.to_nat i := v]> attrs) j = slot attrs j.
Proof.
  intros Hi Hj Hn. unfold slot. rewrite list_lookup_insert_ne by lia.
  reflexivity.
Qed.

Lemma length_parse_loop fuel m :
  forall attrs rta len,
    length (parse_loop fuel m attrs rta len) = length attrs.
Proof.
  induction fuel as [| fuel IH]; intros attrs rta len; simpl; [reflexivity |].
  destruct (RTA_OK m rta len); [| reflexivity].
  rewrite IH. destruct (rta_type m rta <=? RTA_MAX); [| reflexivity].
  apply length_insert.
Qed.

(** The table after the loop: the last visited attribute of each kind,
    and the previous content of the slot when there is none. *)
Lemma parse_loop_slot fuel m k :
  0 <= k <= RTA_MAX ->
  forall attrs rta len,
    length attrs = Z.to_nat (RTA_MAX + 1) ->
    slot (parse_loop fuel m attrs rta len) k =
    match last_of_kind m k (attr_walk fuel m rta len) with
    | Some a => a
    | None => slot attrs k
    end.
Proof.
  intros Hk. induction fuel as [| fuel IH]; intros attrs rta len Hlen; simpl;
    [reflexivity |].
  destruct (RTA_OK m rta len); [| reflexivity]. simpl.
  pose proof (load16_range m (rta + 2)) as Ht. fold (rta_type m rta) in Ht.
  rewrite IH.
  - destruct (last_of_kind m k _); [reflexivity |].
    destruct (Z.eqb_spec (rta_type m rta) k) as [E | E].
    + destruct (Z.leb_spec (rta_type m rta) RTA_MAX); [| lia].
      rewrite E. apply slot_insert_eq. lia.
    + destruct (rta_type m rta <=? RTA_MAX); [| reflexivity].
      apply slot_insert_ne; lia.
  - destruct (rta_type m rta <=? RTA_MAX); [| assumption].
    rewrite length_insert. assumption.
Qed.

Lemma rta_step m rta len :
  len < 2 ^ 31 ->
  RTA_OK m rta len = true ->
  sizeof_rtattr <= rta_len m rta <= len
  /\ rta_len m rta <= RTA_ALIGN (rta_len m rta)
  /\ to_int32 (to_uint32 len - RTA_ALIGN (rta_len m rta)) =
     len - RTA_ALIGN (rta_len m rta)
  /\ -3 <= len - RTA_ALIGN (rta_len m rta) <= len - 4.
Proof.
  intros Hlen H. unfold RTA_OK in H.
  apply andb_true_iff in H as [H H3]. apply andb_true_iff in H as [H1 H2].
  apply Z.leb_le in H1, H2, H3. unfold sizeof_rtattr in *.
  pose proof (load16_range m rta) as Hr. fold (rta_len m rta) in Hr.
  pose proof (align4_bounds (rta_len m rta) ltac:(lia)) as Hb.
  unfold RTA_ALIGN. rewrite to_int32_sub_uint32.
  rewrite to_int32_id by lia. lia.
Qed.

(** The fuel [parse_attrs] passes is never used up: more changes nothing. *)
Lemma parse_loop_fuel m :
  forall n k attrs rta len,
    len < 2 ^ 31 ->
    (Z.to_nat len <= n)%nat -> (Z.to_nat len <= k)%nat ->
    parse_loop n m attrs rta len = parse_loop k m attrs rta len.
Proof.
  induction n as [| n IH]; intros k attrs rta len Hlen Hn Hk.
  - assert (Hf : RTA_OK m rta len = false).
    { unfold RTA_OK, sizeof_rtattr.
      destruct (Z.leb_spec 4 len); [lia | reflexivity]. }
    destruct k; simpl; [reflexivity |]. rewrite Hf. reflexivity.
  - destruct k as [| k].
    + assert (Hf : RTA_OK m rta len = false).
      { unfold RTA_OK, sizeof_rtattr.
        destruct (Z.leb_spec 4 len); [lia | reflexivity]. }
      simpl. rewrite Hf. reflexivity.
    + simpl. destruct (RTA_OK m rta len) eqn:Hok; [| reflexivity].
      destruct (rta_step m rta len Hlen Hok) as (H1 & H2 & H3 & H4).
      rewrite H3. apply IH; lia.
Qed.

(** Every visited attribute lies, header and payload, inside the block of
    [len] bytes that starts at [rta]. *)
Lemma attr_walk_in_block fuel m :
  forall rta len a,
    len < 2 ^ 31 ->
    In a (attr_walk fuel m rta len) ->
    rta <= a /\ a + sizeof_rtattr <= a + rta_len m a <= rta + len.
Proof.
  induction fuel as [| fuel IH]; intros rta len a Hlen Hin; simpl in Hin;
    [contradiction |].
  destruct (RTA_OK m rta len) eqn:Hok; [| contradiction].
  destruct (rta_step m rta len Hlen Hok) as (H1 & H2 & H3 & H4).
  destruct Hin as [<- | Hin].
  - lia.
  - rewrite H3 in Hin. apply IH in Hin; [| lia]. lia.
Qed.

(** The table after [parse_attrs]: slot [k] holds the last attribute of
    kind [k] of the block; without one it holds what [memset] left of the
    previous content. *)
Lemma parse_attrs_slot m attrs rta len k :
  0 <= k <= RTA_MAX ->
  length attrs = Z.to_nat (RTA_MAX + 1) ->
  slot (parse_attrs m attrs rta len) k =
  match last_of_kind m k (attr_walk (Z.to_nat len) m rta len) with
  | Some a => a
  | None =>
      clear_low_bytes (sizeof_rtattr * (RTA_MAX + 1) - k * sizeof_ptr)
        (slot attrs k)
  end.
Proof.
  intros Hk Hlen. unfold parse_attrs.
  rewrite parse_loop_slot by (rewrite ?length_memset; assumption).
  rewrite slot_memset by lia. reflexivity.
Qed.

(** A slot that [memset] covers entirely is empty unless the block holds
    an attribute of its kind. *)
Lemma parse_attrs_cleared_slot m attrs rta len k :
  0 < sizeof_ptr ->
  0 <= k <= RTA_MAX ->
  (k + 1) * sizeof_ptr <= sizeof_rtattr * (RTA_MAX + 1) ->
  length attrs = Z.to_nat (RTA_MAX + 1) ->
  slot (parse_attrs m attrs rta len) k =
  default 0 (last_of_kind m k (attr_walk (Z.to_nat len) m rta len)).
Proof.
  intros Hp Hk Hc Hlen. rewrite parse_attrs_slot by assumption.
  destruct (last_of_kind m k _); [reflexivity |]. simpl.
  unfold clear_low_bytes.
  destruct (Z.leb_spec (sizeof_rtattr * (RTA_MAX + 1) - k * sizeof_ptr) 0);
    [lia |].
  destruct (Z.leb_spec sizeof_ptr
              (sizeof_rtattr * (RTA_MAX + 1) - k * sizeof_ptr));
    [reflexivity | lia].
Qed.

(** A slot that [memset] does not reach keeps its previous content unless
    the block holds an attribute of its kind. *)
Lemma parse_attrs_unreached_slot m attrs rta len k :
  0 <= k <= RTA_MAX ->
  sizeof_rtattr * (RTA_MAX + 1) <= k * sizeof_ptr ->
  length attrs = Z.to_nat (RTA_MAX + 1) ->
  last_of_kind m k (attr_walk (Z.to_nat len) m rta len) = None ->
  slot (parse_attrs m attrs rta len) k = slot attrs k.
Proof.
  intros Hk Hc Hlen Hnone. rewrite parse_attrs_slot, Hnone by assumption.
  unfold clear_low_bytes.
  destruct (Z.leb_spec (sizeof_rtattr * (RTA_MAX + 1) - k * sizeof_ptr) 0);
    [reflexivity | lia].
Qed.

(** With 4-byte pointers [memset] covers the whole table: every slot then
    holds the last attribute of its kind, or NULL. *)
Lemma parse_attrs_table_with_4_byte_pointers m attrs rta len k :
  sizeof_ptr = 4 ->
  0 <= k <= RTA_MAX ->
  length attrs = Z.to_nat (RTA_MAX + 1) ->
  slot (parse_attrs m attrs rta len) k =
  default 0 (last_of_kind m k (attr_walk (Z.to_nat len) m rta len)).
Proof.
  intros Hp Hk Hlen. apply parse_attrs_cleared_slot; try assumption.
  - lia.
  - unfold sizeof_rtattr. lia.
Qed.

(** When [memset] covers the slots of the destination, the gateway and
    the priority, the table entries notify reads do not depend on what
    the table held before. *)
Lemma used_slots_ignore_stale_table m p junk1 junk2 k :
  0 < sizeof_ptr ->
  RTA_PRIORITY <= RTA_MAX ->
  (RTA_PRIORITY + 1) * sizeof_ptr <= sizeof_rtattr * (RTA_MAX + 1) ->
  length (stale_attrs junk1) = Z.to_nat (RTA_MAX + 1) ->
  length (stale_attrs junk2) = Z.to_nat (RTA_MAX + 1) ->
  0 <= k <= RTA_PRIORITY ->
  slot (parsed_attrs m p junk1) k = slot (parsed_attrs m p junk2) k.
Proof.
  intros Hp Hm Hc H1 H2 Hk.
  unfold parsed_attrs, RTA_PRIORITY, sizeof_rtattr in *.
  rewrite !parse_attrs_cleared_slot
    by (unfold sizeof_rtattr; (assumption || nia)).
  reflexivity.
Qed.

Lemma event_iov_ignores_stale_table m p junk1 junk2 :
  0 < sizeof_ptr ->
  RTA_PRIORITY <= RTA_MAX ->
  (RTA_PRIORITY + 1) * sizeof_ptr <= sizeof_rtattr * (RTA_MAX + 1) ->
  length (stale_attrs junk1) = Z.to_nat (RTA_MAX + 1) ->
  length (stale_attrs junk2) = Z.to_nat (RTA_MAX + 1) ->
  stale_prio junk1 = stale_prio junk2 ->
  event_iov m p junk1 = event_iov m p junk2.
Proof.
  intros Hp Hm Hc H1 H2 Hd.
  pose proof (fun k => used_slots_ignore_stale_table m p junk1 junk2 k
                         Hp Hm Hc H1 H2) as Hs.
  unfold event_iov, route_iov, prio_stored.
  rewrite (Hs RTA_DST), (Hs RTA_GATEWAY), (Hs RTA_PRIORITY), Hd
    by (unfold RTA_DST, RTA_GATEWAY, RTA_PRIORITY; lia).
  reflexivity.
Qed.

(** ** The error record *)

Lemma error_reply_eq msg out :
  0 < sizeof_ptr -> error_reply msg out = out ++ error_record msg.
Proof.
  intros Hp. unfold error_reply, error_record, writev.
  destruct (Z.to_nat sizeof_ptr) as [|k] eqn:Hk; [lia|].
  rewrite Nat2Z.id, firstn_all. simpl. rewrite app_nil_r. reflexivity.
Qed.

Lemma length_error_record msg :
  length (error_record msg) = (2 + length msg)%nat.
Proof. reflexivity. Qed.

(** ** The branches of notify *)

Lemma notify_not_route m p junk out :
  is_route m p = false ->
  notify m p junk out = error_reply (cstr "not a route") out.
Proof. intros H. unfold notify. fold (is_route m p). rewrite H. reflexivity. Qed.

Lemma notify_wrong_length m p junk out :
  is_route m p = true -> attr_len m p < 0 ->
  notify m p junk out = error_reply (cstr "wrong message length") out.
Proof.
  intros H Hl. unfold notify. fold (is_route m p). rewrite H. simpl.
  destruct (Z.ltb_spec (attr_len m p) 0); [reflexivity | lia].
Qed.

Lemma notify_suppressed m p junk out :
  is_route m p = true -> 0 <= attr_len m p -> suppressed m p = true ->
  notify m p junk out = out.
Proof.
  intros H Hl Hs. unfold notify. fold (is_route m p). rewrite H. simpl.
  destruct (Z.ltb_spec (attr_len m p) 0); [lia |].
  unfold suppressed in Hs.
  destruct (rtm_protocol m (NLMSG_DATA p) =? RTPROT_ROUTEMACHINE);
    [reflexivity |].
  simpl in Hs. rewrite Hs. reflexivity.
Qed.

Lemma notify_bad_family m p junk out :
  is_route m p = true -> 0 <= attr_len m p -> suppressed m p = false ->
  family_known m p = false ->
  notify m p junk out = error_reply (cstr "bad message family") out.
Proof.
  intros H Hl Hs Hf. unfold notify. fold (is_route m p). rewrite H. simpl.
  destruct (Z.ltb_spec (attr_len m p) 0); [lia |].
  unfold suppressed in Hs. apply orb_false_iff in Hs as [Hs1 Hs2].
  rewrite Hs1, Hs2. fold (family_known m p). rewrite Hf. reflexivity.
Qed.

Lemma notify_accepted m p junk out :
  accepted m p = true ->
  notify m p junk out = writev out (event_iov m p junk).
Proof.
  unfold accepted. intros H.
  apply andb_true_iff in H as [H Hf]. apply andb_true_iff in H as [H Hs].
  apply andb_true_iff in H as [Hr Hl]. apply negb_true_iff in Hs.
  apply Z.leb_le in Hl.
  unfold notify. fold (is_route m p). rewrite Hr. simpl.
  destruct (Z.ltb_spec (attr_len m p) 0); [lia |].
  unfold suppressed in Hs. apply orb_false_iff in Hs as [Hs1 Hs2].
  rewrite Hs1, Hs2. fold (family_known m p). rewrite Hf. reflexivity.
Qed.

Lemma event_iov_fields m p junk :
  event_iov m p junk =
  [ field CMD (event_iov m p junk); field MASK (event_iov m p junk);
    field DST (event_iov m p junk); field GW (event_iov m p junk);
    field PRIO (event_iov m p junk) ].
Proof. reflexivity. Qed.

(** Without a destination or gateway attribute in the table the field is
    the four bytes of [any], whatever the family. *)
Lemma absent_address_fields m p junk :
  (slot (parsed_attrs m p junk) RTA_DST = 0 ->
   field DST (event_iov m p junk) = [0; 0; 0; 0])
  /\ (slot (parsed_attrs m p junk) RTA_GATEWAY = 0 ->
      field GW (event_iov m p junk) = [0; 0; 0; 0]).
Proof.
  unfold field, event_iov, route_iov, DST, GW. simpl nth.
  split; intros ->; reflexivity.
Qed.

(** A gateway attribute in the table gives a field of the family's
    width. *)
Lemma gateway_field_width m p junk :
  slot (parsed_attrs m p junk) RTA_GATEWAY <> 0 ->
  Z.of_nat (length (field GW (event_iov m p junk))) = host_len m p.
Proof.
  intros Hg. unfold field, event_iov, route_iov, GW. simpl nth.
  destruct (Z.eqb_spec (slot (parsed_attrs m p junk) RTA_GATEWAY) 0);
    [contradiction |]. simpl.
  rewrite length_read_bytes. unfold host_len.
  destruct (rtm_family m (NLMSG_DATA p) =? AF_INET); reflexivity.
Qed.

(** ** One turn of the frame loop *)

Lemma frames_loop_step fuel r junk i p ret out :
  4 <= sizeof_ptr ->
  sizeof_nlmsghdr <= ret < 2 ^ 31 ->
  sizeof_nlmsghdr <= to_int32 (nlmsg_len (rv_mem r) p) <= ret ->
  frames_loop (S fuel) r junk i p ret out =
  frames_loop fuel r junk (S i)
    (p + NLMSG_ALIGN (to_int32 (nlmsg_len (rv_mem r) p)))
    (ret - NLMSG_ALIGN (to_int32 (nlmsg_len (rv_mem r) p)))
    (if negb (nlmsg_type (rv_mem r) p =? NLMSG_DONE)
     then notify (rv_mem r) p (junk i) out
     else out).
Proof.
  intros Hp Hret Hlen. unfold sizeof_nlmsghdr in *. simpl frames_loop.
  set (len := to_int32 (nlmsg_len (rv_mem r) p)) in *.
  rewrite (to_size_t_small ret) by lia.
  rewrite (to_size_t_small len) by lia.
  unfold sizeof_nlmsghdr.
  destruct (Z.leb_spec 16 ret); [| lia].
  destruct (Z.ltb_spec len 16); [lia |].
  destruct (Z.ltb_spec ret len); [lia |]. simpl.
  rewrite to_int32_sub_uint32.
  pose proof (align4_bounds len ltac:(lia)). unfold NLMSG_ALIGN.
  rewrite to_int32_id by lia. reflexivity.
Qed.

(** C10: for a message of N characters error_reply appends exactly 2 + N
    bytes to the output stream: the command byte 255, one length byte
    equal to N modulo 256 (only the low 8 bits of N when N is 256 or
    more), and then all N characters of the message. *)
Theorem error_reply_appends_header_and_message msg out :
  0 < sizeof_ptr ->
  error_reply msg out =
    out ++ [255; Z.of_nat (length msg) mod 256] ++ msg
  /\ length (error_reply msg out) = (length out + (2 + length msg))%nat.
Proof.
  intros Hp. rewrite error_reply_eq by assumption. split.
  - reflexivity.
  - rewrite length_app, length_error_record. reflexivity.
Qed.

(** C5 (amended): a dispatched message whose type is neither a route
    addition nor a route deletion is not dropped silently: notify writes
    one error record with the message "not a route", 13 bytes in all, and
    returns. *)
Theorem non_route_message_is_reported m p junk out :
  0 < sizeof_ptr ->
  is_route m p = false ->
  notify m p junk out = out ++ error_record (cstr "not a route")
  /\ length (notify m p junk out) = (length out + 13)%nat.
Proof.
  intros Hp Hr. rewrite notify_not_route, error_reply_eq by assumption.
  split; [reflexivity |]. rewrite length_app. reflexivity.
Qed.

(** C6 (amended): for a route message whose origin protocol is the
    reserved self-identifier, or whose table is not the main table: when
    the message holds the route header and one attribute header behind
    it (declared length from 32 up to 2^31 - 1), notify leaves the output
    stream unchanged, no route event and no error record; when it is too
    short to hold the route header (declared length below 28), notify
    writes the error record "wrong message length" before it looks at
    the protocol or the table. *)
Theorem suppressed_route_writes_nothing m p junk out :
  4 <= sizeof_ptr ->
  is_route m p = true ->
  suppressed m p = true ->
  (32 <= nlmsg_len m p < 2 ^ 31 -> notify m p junk out = out)
  /\ (nlmsg_len m p < 28 ->
      notify m p junk out =
      out ++ error_record (cstr "wrong message length")).
Proof.
  intros Hp Hr Hs. split; intros Hl.
  - apply notify_suppressed; try assumption.
    rewrite attr_len_eq by assumption. lia.
  - rewrite notify_wrong_length, error_reply_eq; [reflexivity | lia | exact Hr |].
    rewrite attr_len_int by assumption.
    pose proof (load32_range m p) as Hb. fold (nlmsg_len m p) in Hb.
    rewrite to_int32_id; lia.
Qed.

(** C7: a route message that is neither self-authored nor outside the
    main table and whose family is neither IPv4 nor IPv6 makes notify
    write exactly one error record (command 255) and no route event; the
    frame loop then goes on with the next frame. *)
Theorem unknown_family_yields_one_error_record m p out :
  4 <= sizeof_ptr ->
  is_route m p = true ->
  suppressed m p = false ->
  family_known m p = false ->
  exists msg,
    (msg = cstr "wrong message length" \/ msg = cstr "bad message family")
    /\ (forall junk, notify m p junk out = out ++ error_record msg)
    /\ (forall fuel r junk i ret,
          rv_mem r = m ->
          sizeof_nlmsghdr <= ret < 2 ^ 31 ->
          sizeof_nlmsghdr <= to_int32 (nlmsg_len m p) <= ret ->
          frames_loop (S fuel) r junk i p ret out =
          frames_loop fuel r junk (S i)
            (p + NLMSG_ALIGN (to_int32 (nlmsg_len m p)))
            (ret - NLMSG_ALIGN (to_int32 (nlmsg_len m p)))
            (out ++ error_record msg)).
Proof.
  intros Hp Hr Hs Hf.
  assert (Hnd : negb (nlmsg_type m p =? NLMSG_DONE) = true).
  { unfold is_route, RTM_NEWROUTE, RTM_DELROUTE in Hr. unfold NLMSG_DONE.
    destruct (Z.eqb_spec (nlmsg_type m p) 3) as [E|]; [| reflexivity].
    rewrite E in Hr. discriminate. }
  destruct (Z.lt_ge_cases (attr_len m p) 0) as [Hl | Hl].
  - exists (cstr "wrong message length").
    assert (Hn : forall junk,
      notify m p junk out = out ++ error_record (cstr "wrong message length")).
    { intros junk. rewrite notify_wrong_length by assumption.
      apply error_reply_eq. lia. }
    split; [left; reflexivity |]. split; [exact Hn |].
    intros fuel r junk i ret Hm Hret Hlen. subst m.
    rewrite frames_loop_step by assumption. rewrite Hnd, Hn. reflexivity.
  - exists (cstr "bad message family").
    assert (Hn : forall junk,
      notify m p junk out = out ++ error_record (cstr "bad message family")).
    { intros junk. rewrite notify_bad_family by assumption.
      apply error_reply_eq. lia. }
    split; [right; reflexivity |]. split; [exact Hn |].
    intros fuel r junk i ret Hm Hret Hlen. subst m.
    rewrite frames_loop_step by assumption. rewrite Hnd, Hn. reflexivity.
Qed.

(** C1 (amended): for an accepted route the record is the five vectors
    written in one call, and the width of its destination field is not
    fixed by the family: when the parsed table holds a destination
    attribute the field has (prefix_len + 7) / 8 bytes; when it holds none
    and the family is IPv4 the field has the 4 bytes of the family. *)
Theorem destination_field_follows_prefix_length m p junk out :
  accepted m p = true ->
  notify m p junk out = writev out (event_iov m p junk)
  /\ (slot (parsed_attrs m p junk) RTA_DST <> 0 ->
      Z.of_nat (length (field DST (event_iov m p junk))) =
      (rtm_dst_len m (NLMSG_DATA p) + 7) / 8)
  /\ (slot (parsed_attrs m p junk) RTA_DST = 0 ->
      rtm_family m (NLMSG_DATA p) = AF_INET ->
      Z.of_nat (length (field DST (event_iov m p junk))) = host_len m p).
Proof.
  intros Ha. split; [apply notify_accepted; assumption |].
  unfold field, event_iov, route_iov, DST. simpl nth. split.
  - intros Hd. destruct (Z.eqb_spec (slot (parsed_attrs m p junk) RTA_DST) 0);
      [contradiction |]. simpl.
    rewrite length_read_bytes.
    pose proof (load8_range m (NLMSG_DATA p + 1)). unfold rtm_dst_len.
    rewrite Z2Nat.id; [reflexivity |]. apply Z.div_pos; lia.
  - intros Hd Hf. rewrite Hd. simpl. unfold host_len. rewrite Hf. reflexivity.
Qed.

(** ** read_routes *)

Lemma error_quit_eq msg errno out :
  0 < sizeof_ptr ->
  error_quit msg errno out =
  Exit 1 (out ++ error_record (quit_message msg errno)).
Proof. intros Hp. unfold error_quit. rewrite error_reply_eq by assumption. reflexivity. Qed.

Lemma frames_loop_prefix r junk fs :
  4 <= sizeof_ptr ->
  forall fuel i p ret out p' ret',
    ret < 2 ^ 31 ->
    after_frames (rv_mem r) p ret fs = Some (p', ret') ->
    ret' <= ret
    /\ frames_loop (length fs + fuel) r junk i p ret out =
       frames_loop fuel r junk (i + length fs) p' ret'
         (dispatch_all (rv_mem r) junk i fs out).
Proof.
  intros Hp. induction fs as [| f fs IH]; intros fuel i p ret out p' ret' Hret Ha.
  - simpl in Ha. inversion Ha; subst. simpl. rewrite Nat.add_0_r.
    split; [lia | reflexivity].
  - simpl in Ha.
    destruct (Z.eqb_spec f p) as [-> |]; [| discriminate].
    destruct (Z.leb_spec sizeof_nlmsghdr (to_int32 (nlmsg_len (rv_mem r) p)));
      [| discriminate].
    destruct (Z.leb_spec (to_int32 (nlmsg_len (rv_mem r) p)) ret);
      [| discriminate].
    simpl in Ha. unfold sizeof_nlmsghdr in *.
    pose proof (align4_bounds (to_int32 (nlmsg_len (rv_mem r) p)) ltac:(lia)).
    unfold NLMSG_ALIGN in *.
    apply (IH fuel (S i) _ _
             (if negb (nlmsg_type (rv_mem r) p =? NLMSG_DONE)
              then notify (rv_mem r) p (junk i) out else out)) in Ha;
      [| lia].
    destruct Ha as [Hle Hloop]. split; [lia |].
    change (length (p :: fs) + fuel)%nat with (S (length fs + fuel)).
    rewrite frames_loop_step by (unfold sizeof_nlmsghdr; lia).
    unfold NLMSG_ALIGN. rewrite Hloop. simpl.
    replace (i + S (length fs))%nat with (S i + length fs)%nat by lia.
    reflexivity.
Qed.

Lemma frames_loop_leftover fuel r junk i p ret out :
  4 <= sizeof_ptr ->
  msg_trunc r = true ->
  0 <= ret < sizeof_nlmsghdr ->
  frames_loop (S fuel) r junk i p ret out = Return out.
Proof.
  intros Hp Ht Hret. unfold sizeof_nlmsghdr in *. simpl.
  rewrite (to_size_t_small ret) by lia. unfold sizeof_nlmsghdr.
  destruct (Z.leb_spec 16 ret); [lia |]. rewrite Ht. reflexivity.
Qed.

Lemma frames_loop_cut fuel r junk i p ret out :
  4 <= sizeof_ptr ->
  msg_trunc r = true ->
  sizeof_nlmsghdr <= ret < 2 ^ 31 ->
  ret < to_int32 (nlmsg_len (rv_mem r) p) ->
  frames_loop (S fuel) r junk i p ret out =
  Exit 1 (out ++ error_record
                   (quit_message (cstr "truncated message") (rv_errno r))).
Proof.
  intros Hp Ht Hret Hlen. unfold sizeof_nlmsghdr in *. simpl.
  rewrite (to_size_t_small ret) by lia. unfold sizeof_nlmsghdr.
  destruct (Z.leb_spec 16 ret); [| lia].
  destruct (Z.ltb_spec ret (to_int32 (nlmsg_len (rv_mem r) p))); [| lia].
  rewrite orb_true_r, Ht. apply error_quit_eq. lia.
Qed.

(** C8: a receive that fails with EINTR, EAGAIN or ENOBUFS ends the
    attempt with the output stream and the loop state untouched; any
    other receive failure writes an error record and exits with status 1;
    a zero-length receive does the same with the message "recvmsg: EOF". *)
Theorem receive_errors_are_classified fuel r junk out :
  0 < sizeof_ptr ->
  (rv_ret r = -1 ->
   rv_errno r = EINTR \/ rv_errno r = EAGAIN \/ rv_errno r = ENOBUFS ->
   read_routes fuel r junk out = Return out
   /\ forall st,
        exists st',
          call_read_routes fuel r junk st = Running st'
          /\ stdout st' = stdout st /\ wset_sock st' = wset_sock st)
  /\ (rv_ret r = -1 ->
      rv_errno r <> EINTR -> rv_errno r <> EAGAIN -> rv_errno r <> ENOBUFS ->
      read_routes fuel r junk out =
      Exit 1 (out ++ error_record (quit_message (cstr "recvmsg") (rv_errno r))))
  /\ (rv_ret r = 0 ->
      read_routes fuel r junk out =
      Exit 1 (out ++ error_record
                       (quit_message (cstr "recvmsg: EOF") (rv_errno r)))).
Proof.
  intros Hp. split; [| split].
  - intros Hr He.
    assert (Ht : (rv_errno r =? EINTR) || (rv_errno r =? EAGAIN)
                 || (rv_errno r =? ENOBUFS) = true).
    { destruct He as [-> | [-> | ->]]; reflexivity. }
    assert (Hrr : forall o, read_routes fuel r junk o = Return o).
    { intros o. unfold read_routes. rewrite Hr.
      change (to_int32 (-1) =? -1) with true. cbv iota. rewrite Ht.
      reflexivity. }
    split; [apply Hrr |]. intros st. unfold call_read_routes.
    rewrite Hrr. simpl. eexists. split; [reflexivity |]. split; reflexivity.
  - intros Hr H1 H2 H3. unfold read_routes. rewrite Hr.
    change (to_int32 (-1) =? -1) with true. cbv iota.
    destruct (Z.eqb_spec (rv_errno r) EINTR); [contradiction |].
    destruct (Z.eqb_spec (rv_errno r) EAGAIN); [contradiction |].
    destruct (Z.eqb_spec (rv_errno r) ENOBUFS); [contradiction |].
    simpl. apply error_quit_eq. assumption.
  - intros Hr. unfold read_routes. rewrite Hr.
    change (to_int32 0 =? -1) with false.
    change (to_int32 0 =? 0) with true. cbv iota.
    apply error_quit_eq. assumption.
Qed.

(** C3 (amended): in a batch flagged as truncated, the complete frames
    are dispatched first.  If fewer bytes than a frame header are left
    after them, the attempt ends there and the process goes on.  If a
    header is left whose declared length exceeds the bytes left, the error
    record "truncated message" is written and the process exits with
    status 1: that case is fatal. *)
Theorem truncated_batch_outcome fuel r junk out fs p' ret' :
  4 <= sizeof_ptr ->
  0 < rv_ret r <= BUFSIZE ->
  rv_namelen r = sizeof_sockaddr_nl ->
  msg_trunc r = true ->
  after_frames (rv_mem r) (rv_buf r) (rv_ret r) fs = Some (p', ret') ->
  (length fs < fuel)%nat ->
  (0 <= ret' < sizeof_nlmsghdr ->
   read_routes fuel r junk out =
   Return (dispatch_all (rv_mem r) junk 0 fs out))
  /\ (sizeof_nlmsghdr <= ret' < to_int32 (nlmsg_len (rv_mem r) p') ->
      read_routes fuel r junk out =
      Exit 1 (dispatch_all (rv_mem r) junk 0 fs out
              ++ error_record
                   (quit_message (cstr "truncated message") (rv_errno r)))).
Proof.
  intros Hp Hret Hn Ht Ha Hf. unfold BUFSIZE in *.
  assert (Hrr : read_routes fuel r junk out =
                frames_loop (S (fuel - length fs - 1)) r junk (length fs)
                  p' ret' (dispatch_all (rv_mem r) junk 0 fs out)
                /\ ret' <= rv_ret r).
  { unfold read_routes. rewrite to_int32_id by lia.
    destruct (Z.eqb_spec (rv_ret r) (-1)); [lia |].
    destruct (Z.eqb_spec (rv_ret r) 0); [lia |].
    rewrite Hn. simpl.
    replace fuel with (length fs + S (fuel - length fs - 1))%nat at 1 by lia.
    destruct (frames_loop_prefix r junk fs Hp (S (fuel - length fs - 1)) 0%nat
                (rv_buf r) (rv_ret r) out p' ret' ltac:(lia) Ha) as [Hle Hl].
    split; [exact Hl | exact Hle]. }
  destruct Hrr as [Hrr Hle]. rewrite Hrr. split; intros Hc.
  - apply frames_loop_leftover; assumption.
  - apply frames_loop_cut; try assumption; lia.
Qed.

(** ** The event loop *)

Lemma state_of_lift st o :
  state_of (lift st o) =
  {| wset_sock := wset_sock st; stdout := output_of o;
     sock_ops := sock_ops st |}.
Proof. destruct o; reflexivity. Qed.

Lemma call_read_routes_ops fuel r junk st :
  sock_ops (state_of (call_read_routes fuel r junk st)) =
  sock_ops st ++ [Recvmsg].
Proof. unfold call_read_routes. rewrite state_of_lift. reflexivity. Qed.

Lemma call_read_routes_running fuel r junk st st' :
  call_read_routes fuel r junk st = Running st' ->
  wset_sock st' = wset_sock st /\ sock_ops st' = sock_ops st ++ [Recvmsg].
Proof.
  unfold call_read_routes. destruct (read_routes _ _ _ _); simpl;
    intros H; inversion H; split; reflexivity.
Qed.

Lemma and_then_running st k : and_then (Running st) k = k st.
Proof. reflexivity. Qed.

Lemma iteration_ops fuel w st :
  exists n,
    sock_ops (state_of (iteration fuel w st)) =
    sock_ops st
    ++ (if wset_sock st && dump_fires w
        then [Send dump_request; Recvmsg] else [])
    ++ repeat Recvmsg n.
Proof.
  unfold iteration, dump_fires, stdin_passes.
  destruct (sel_res w =? -1).
  { exists 0%nat. rewrite state_of_lift, andb_false_r. simpl.
    rewrite app_nil_r. reflexivity. }
  set (st0 := {| wset_sock := wset_sock st && sock_writable w;
                 stdout := stdout st; sock_ops := sock_ops st |}).
  assert (Hrest : exists n,
    sock_ops
      (state_of
         (and_then
            (if wset_sock st0
             then call_read_routes fuel (recv_first w) (junk_first w)
                    (call_request_dump
                       {| wset_sock := false; stdout := stdout st0;
                          sock_ops := sock_ops st0 |})
             else Running st0)
            (fun st3 =>
               if sock_readable w
               then call_read_routes fuel (recv_second w) (junk_second w) st3
               else Running st3))) =
    sock_ops st
    ++ (if wset_sock st && sock_writable w
        then [Send dump_request; Recvmsg] else [])
    ++ repeat Recvmsg n).
  { subst st0. simpl.
    destruct (wset_sock st && sock_writable w).
    - destruct (call_read_routes fuel (recv_first w) (junk_first w) _)
        as [st3 | c st3 | st3] eqn:E;
        pose proof (call_read_routes_ops fuel (recv_first w) (junk_first w)
          (call_request_dump
             {| wset_sock := false; stdout := stdout st;
                sock_ops := sock_ops st |})) as Hops;
        rewrite E in Hops; simpl in Hops.
      + simpl and_then. destruct (sock_readable w).
        * exists 1%nat. rewrite call_read_routes_ops, Hops.
          rewrite <- !app_assoc. reflexivity.
        * exists 0%nat. simpl. rewrite Hops, <- !app_assoc. reflexivity.
      + exists 0%nat. simpl. rewrite Hops, <- !app_assoc. reflexivity.
      + exists 0%nat. simpl. rewrite Hops, <- !app_assoc. reflexivity.
    - simpl and_then. destruct (sock_readable w).
      + exists 1%nat. rewrite call_read_routes_ops. reflexivity.
      + exists 0%nat. simpl. rewrite app_nil_r. reflexivity. }
  assert (Hstop : forall lr,
    sock_ops (state_of lr) = sock_ops st ->
    sock_ops (state_of lr) = sock_ops st ++ [] ++ repeat Recvmsg 0).
  { intros lr ->. simpl. rewrite app_nil_r. reflexivity. }
  destruct (stdin_readable w); simpl negb; simpl orb.
  - destruct ((stdin_n w =? -1) && negb (stdin_errno w =? EWOULDBLOCK)).
    { exists 0%nat. rewrite !andb_false_r. apply Hstop. reflexivity. }
    destruct (stdin_n w =? 0).
    { exists 0%nat. rewrite !andb_false_r. apply Hstop. reflexivity. }
    rewrite and_then_running. simpl negb. rewrite andb_true_r. exact Hrest.
  - rewrite and_then_running, andb_true_r. exact Hrest.
Qed.

Lemma iteration_running fuel w st st' :
  iteration fuel w st = Running st' -> wset_sock st' = false.
Proof.
  unfold iteration.
  destruct (sel_res w =? -1).
  { unfold error_quit. simpl. discriminate. }
  set (st0 := {| wset_sock := wset_sock st && sock_writable w;
                 stdout := stdout st; sock_ops := sock_ops st |}).
  assert (Hrest : forall st1,
    and_then
      (if wset_sock st1
       then call_read_routes fuel (recv_first w) (junk_first w)
              (call_request_dump
                 {| wset_sock := false; stdout := stdout st1;
                    sock_ops := sock_ops st1 |})
       else Running st1)
      (fun st3 =>
         if sock_readable w
         then call_read_routes fuel (recv_second w) (junk_second w) st3
         else Running st3) = Running st' ->
    wset_sock st' = false).
  { intros st1.
    destruct (wset_sock st1) eqn:Hw.
    - destruct (call_read_routes fuel (recv_first w) (junk_first w) _)
        as [st3 | c st3 | st3] eqn:E; simpl; try discriminate.
      apply call_read_routes_running in E as [E _]. simpl in E.
      destruct (sock_readable w).
      + intros H. apply call_read_routes_running in H as [H _]. congruence.
      + intros H. inversion H. subst. exact E.
    - simpl. destruct (sock_readable w).
      + intros H. apply call_read_routes_running in H as [H _]. congruence.
      + intros H. inversion H. subst. exact Hw. }
  destruct (stdin_readable w).
  - destruct ((stdin_n w =? -1) && negb (stdin_errno w =? EWOULDBLOCK)).
    { unfold error_quit. simpl. discriminate. }
    destruct (stdin_n w =? 0); [simpl; discriminate |].
    rewrite and_then_running. apply (Hrest st0).
  - rewrite and_then_running. apply (Hrest st0).
Qed.

Lemma event_loop_disarmed fuel ws :
  forall st,
    wset_sock st = false ->
    exists n,
      sock_ops (state_of (event_loop fuel ws st)) =
      sock_ops st ++ repeat Recvmsg n.
Proof.
  induction ws as [| w ws IH]; intros st Hw.
  - exists 0%nat. simpl. rewrite app_nil_r. reflexivity.
  - simpl. destruct (iteration_ops fuel w st) as [n Hn].
    rewrite Hw in Hn. simpl in Hn.
    destruct (iteration fuel w st) as [st1 | c st1 | st1] eqn:E; simpl in *.
    + apply iteration_running in E.
      destruct (IH st1 E) as [n' Hn']. exists (n + n')%nat.
      rewrite Hn', Hn, repeat_app, app_assoc. reflexivity.
    + exists n. exact Hn.
    + exists n. exact Hn.
Qed.

Lemma main_ops fuel w ws :
  exists n,
    sock_ops (state_of (main fuel (w :: ws))) =
    (if dump_fires w then [Send dump_request; Recvmsg] else [])
    ++ repeat Recvmsg n.
Proof.
  unfold main. simpl.
  destruct (iteration_ops fuel w initial_state) as [n Hn]. simpl in Hn.
  destruct (iteration fuel w initial_state) as [st1 | c st1 | st1] eqn:E;
    simpl in *.
  - apply iteration_running in E.
    destruct (event_loop_disarmed fuel ws st1 E) as [n' Hn'].
    exists (n + n')%nat. rewrite Hn', Hn, repeat_app, app_assoc. reflexivity.
  - exists n. exact Hn.
  - exists n. exact Hn.
Qed.

Lemma filter_is_send_repeat n :
  List.filter is_send (repeat Recvmsg n) = [].
Proof. induction n; simpl; auto. Qed.

Lemma send_then_recv_repeat n : send_then_recv (repeat Recvmsg n) = true.
Proof. induction n; simpl; auto. Qed.

(** C9 (amended): in every execution the dump request is sent at most
    once and only in the first iteration; it is sent there exactly when
    the first return of select reports the socket writable and
    control-input handling did not end the process before; the send is
    directly followed by a receive attempt, and every later socket call is
    a receive attempt. *)
Theorem dump_request_only_in_first_iteration fuel w ws :
  dumps_sent (state_of (main fuel (w :: ws))) =
    (if dump_fires w then 1 else 0)%nat
  /\ dumps_sent (state_of (main fuel (w :: ws))) =
     dumps_sent (state_of (iteration fuel w initial_state))
  /\ (dumps_sent (state_of (main fuel (w :: ws))) <= 1)%nat
  /\ send_then_recv (sock_ops (state_of (main fuel (w :: ws)))) = true
  /\ exists n,
       sock_ops (state_of (main fuel (w :: ws))) =
       (if dump_fires w then [Send dump_request; Recvmsg] else [])
       ++ repeat Recvmsg n.
Proof.
  destruct (main_ops fuel w ws) as [n Hn].
  destruct (iteration_ops fuel w initial_state) as [k Hk]. simpl in Hk.
  assert (Hd : dumps_sent (state_of (main fuel (w :: ws))) =
               (if dump_fires w then 1 else 0)%nat).
  { unfold dumps_sent. rewrite Hn.
    destruct (dump_fires w); simpl; rewrite filter_is_send_repeat;
      reflexivity. }
  split; [exact Hd |]. split; [| split; [| split]].
  - rewrite Hd. unfold dumps_sent. rewrite Hk.
    destruct (dump_fires w); simpl; rewrite filter_is_send_repeat;
      reflexivity.
  - rewrite Hd. destruct (dump_fires w); lia.
  - rewrite Hn. destruct (dump_fires w); simpl;
      apply send_then_recv_repeat.
  - exists n. exact Hn.
Qed.

(** ** More on parse_attrs *)

Lemma align4_mod4 x : 0 <= x + 3 < 2 ^ 32 -> align4 x mod 4 = 0.
Proof.
  intros H. rewrite align4_spec by assumption.
  rewrite Z.mul_comm. apply Z.mod_mul. lia.
Qed.

Lemma attr_walk_aligned fuel m :
  forall rta len a,
    len < 2 ^ 31 ->
    In a (attr_walk fuel m rta len) -> (a - rta) mod 4 = 0.
Proof.
  induction fuel as [| fuel IH]; intros rta len a Hlen Hin; simpl in Hin;
    [contradiction |].
  destruct (RTA_OK m rta len) eqn:Hok; [| contradiction].
  destruct (rta_step m rta len Hlen Hok) as (H1 & H2 & H3 & H4).
  destruct Hin as [<- | Hin].
  - rewrite Z.sub_diag. reflexivity.
  - rewrite H3 in Hin. apply IH in Hin; [| lia].
    pose proof (load16_range m rta) as Hr. fold (rta_len m rta) in Hr.
    pose proof (align4_mod4 (rta_len m rta) ltac:(lia)) as Ha.
    unfold RTA_ALIGN in Hin.
    replace (a - rta) with (a - (rta + align4 (rta_len m rta))
                            + align4 (rta_len m rta)) by lia.
    rewrite Z.add_mod, Hin, Ha by lia. reflexivity.
Qed.

Lemma attr_walk_count fuel m :
  forall rta len,
    len < 2 ^ 31 ->
    4 * Z.of_nat (length (attr_walk fuel m rta len)) <= Z.max 0 (len + 3).
Proof.
  induction fuel as [| fuel IH]; intros rta len Hlen; simpl; [lia |].
  destruct (RTA_OK m rta len) eqn:Hok; [| simpl; lia].
  destruct (rta_step m rta len Hlen Hok) as (H1 & H2 & H3 & H4).
  rewrite H3. simpl length.
  specialize (IH (rta + RTA_ALIGN (rta_len m rta))
                (len - RTA_ALIGN (rta_len m rta)) ltac:(lia)).
  unfold sizeof_rtattr in *. lia.
Qed.

Lemma last_of_kind_none m k l :
  (forall b, In b l -> rta_type m b <> k) -> last_of_kind m k l = None.
Proof.
  induction l as [| x l IH]; intros H; simpl; [reflexivity |].
  rewrite IH by (intros b Hb; apply H; right; exact Hb).
  destruct (Z.eqb_spec (rta_type m x) k) as [E |]; [| reflexivity].
  exfalso. apply (H x); [left; reflexivity | exact E].
Qed.

Lemma last_of_kind_last m k l1 a l2 :
  rta_type m a = k ->
  (forall b, In b l2 -> rta_type m b <> k) ->
  last_of_kind m k (l1 ++ a :: l2) = Some a.
Proof.
  intros Ha Hl2. induction l1 as [| x l1 IH]; simpl.
  - rewrite last_of_kind_none by assumption.
    destruct (Z.eqb_spec (rta_type m a) k); [reflexivity | contradiction].
  - rewrite IH. reflexivity.
Qed.

Lemma last_of_kind_in m k l a :
  last_of_kind m k l = Some a -> In a l /\ rta_type m a = k.
Proof.
  induction l as [| x l IH]; simpl; [discriminate |].
  destruct (last_of_kind m k l) as [b |].
  - intros H. inversion H; subst. destruct (IH eq_refl) as [Hin Ht].
    split; [right; exact Hin | exact Ht].
  - destruct (Z.eqb_spec (rta_type m x) k) as [E |]; [| discriminate].
    intros H. inversion H; subst. split; [left; reflexivity | reflexivity].
Qed.

Lemma parse_loop_unknown_kinds fuel m :
  forall attrs rta len,
    (forall b, In b (attr_walk fuel m rta len) -> RTA_MAX < rta_type m b) ->
    parse_loop fuel m attrs rta len = attrs.
Proof.
  induction fuel as [| fuel IH]; intros attrs rta len H; simpl in *;
    [reflexivity |].
  destruct (RTA_OK m rta len); [| reflexivity].
  pose proof (H rta (or_introl eq_refl)) as Hr.
  destruct (Z.leb_spec (rta_type m rta) RTA_MAX); [lia |].
  apply IH. intros b Hb. apply H. right. exact Hb.
Qed.

(** X1: every attribute the loop of parse_attrs visits lies inside the
    block of [len] bytes at [rta]: it starts at a multiple of 4 from the
    start of the block, it declares at least the 4 bytes of its header,
    and header and payload end inside the block. *)
Theorem visited_attributes_lie_inside_the_block m rta len a :
  len < 2 ^ 31 ->
  In a (attr_walk (Z.to_nat len) m rta len) ->
  rta <= a
  /\ (a - rta) mod 4 = 0
  /\ sizeof_rtattr <= rta_len m a
  /\ a + rta_len m a <= rta + len.
Proof.
  intros Hlen Hin.
  pose proof (attr_walk_in_block _ _ _ _ _ Hlen Hin) as (H1 & H2 & H3).
  pose proof (attr_walk_aligned _ _ _ _ _ Hlen Hin) as H4.
  repeat split; try assumption; lia.
Qed.

(** X2: the loop of parse_attrs visits at most (len + 3) / 4 attributes,
    and letting it run for more than [len] turns changes nothing: the
    loop always ends, with the table it has after at most [len] turns. *)
Theorem attribute_loop_terminates m rta len :
  len < 2 ^ 31 ->
  (forall fuel,
     4 * Z.of_nat (length (attr_walk fuel m rta len)) <= Z.max 0 (len + 3))
  /\ (forall fuel attrs,
       (Z.to_nat len <= fuel)%nat ->
       parse_loop fuel m (memset_table (sizeof_rtattr * (RTA_MAX + 1)) attrs)
         rta len =
       parse_attrs m attrs rta len).
Proof.
  intros Hlen. split.
  - intros fuel. apply attr_walk_count. assumption.
  - intros fuel attrs Hf. unfold parse_attrs.
    apply parse_loop_fuel; [assumption | assumption | lia].
Qed.

(** X3: when the block holds attributes of a kind within range, the slot
    of that kind holds the last of them after parse_attrs, whatever the
    table held before. *)
Theorem last_attribute_of_a_kind_wins m attrs rta len l1 a l2 :
  rta_type m a <= RTA_MAX ->
  length attrs = Z.to_nat (RTA_MAX + 1) ->
  attr_walk (Z.to_nat len) m rta len = l1 ++ a :: l2 ->
  (forall b, In b l2 -> rta_type m b <> rta_type m a) ->
  slot (parse_attrs m attrs rta len) (rta_type m a) = a.
Proof.
  intros Hk Hlen Hw Hl2.
  pose proof (load16_range m (a + 2)) as Ht. fold (rta_type m a) in Ht.
  rewrite parse_attrs_slot by (assumption || lia).
  rewrite Hw, (last_of_kind_last m (rta_type m a) l1 a l2 eq_refl Hl2).
  reflexivity.
Qed.

(** X4: a kind within range of which the block holds no attribute: its
    slot is NULL after parse_attrs when memset reaches the whole slot,
    and keeps its previous content when memset does not reach it. *)
Theorem slot_of_an_absent_kind m attrs rta len k :
  0 < sizeof_ptr ->
  0 <= k <= RTA_MAX ->
  length attrs = Z.to_nat (RTA_MAX + 1) ->
  (forall b, In b (attr_walk (Z.to_nat len) m rta len) -> rta_type m b <> k) ->
  ((k + 1) * sizeof_ptr <= sizeof_rtattr * (RTA_MAX + 1) ->
   slot (parse_attrs m attrs rta len) k = 0)
  /\ (sizeof_rtattr * (RTA_MAX + 1) <= k * sizeof_ptr ->
      slot (parse_attrs m attrs rta len) k = slot attrs k).
Proof.
  intros Hp Hk Hlen Hno.
  pose proof (last_of_kind_none m k _ Hno) as Hnone. split; intros Hc.
  - rewrite parse_attrs_cleared_slot, Hnone by assumption. reflexivity.
  - apply parse_attrs_unreached_slot; assumption.
Qed.

(** X5: a block that is shorter than an attribute header, whose first
    attribute declares a length below 4 or beyond the block, or whose
    attributes all have kinds above RTA_MAX, stores nothing: the table
    after parse_attrs is the table as memset left it. *)
Theorem unknown_kinds_store_nothing m attrs rta len :
  (forall b, In b (attr_walk (Z.to_nat len) m rta len) ->
             RTA_MAX < rta_type m b) ->
  parse_attrs m attrs rta len =
  memset_table (sizeof_rtattr * (RTA_MAX + 1)) attrs.
Proof. intros H. unfold parse_attrs. apply parse_loop_unknown_kinds. exact H. Qed.

(** ** More on notify *)

Lemma le_bytes_range n : forall v, Forall (fun b => 0 <= b < 256) (le_bytes n v).
Proof.
  induction n as [| n IH]; intros v; simpl; constructor.
  - apply Z.mod_pos_bound. lia.
  - apply IH.
Qed.

Lemma le_bytes_le_value bs :
  Forall (fun b => 0 <= b < 256) bs ->
  le_bytes (length bs) (le_value bs) = bs.
Proof.
  induction 1 as [| b bs Hb _ IH]; simpl; [reflexivity |].
  f_equal.
  - rewrite (Z.mul_comm 256), Z.mod_add by lia. apply Z.mod_small. lia.
  - rewrite (Z.mul_comm 256), Z.div_add by lia.
    rewrite Z.div_small by lia. exact IH.
Qed.

Lemma read_bytes_range m a n : Forall (fun b => 0 <= b < 256) (read_bytes m a n).
Proof.
  unfold read_bytes. apply List.Forall_forall. intros b Hb.
  apply in_map_iff in Hb as (i & <- & _). apply load8_range.
Qed.

Lemma le_bytes_htonl v : le_bytes 4 (htonl v) = rev (le_bytes 4 v).
Proof.
  unfold htonl.
  assert (Hl : length (rev (le_bytes 4 v)) = 4%nat) by reflexivity.
  rewrite <- Hl at 1. apply le_bytes_le_value.
  apply List.Forall_rev. apply le_bytes_range.
Qed.

Lemma le_bytes_load32 m a : le_bytes 4 (load32 m a) = read_bytes m a 4.
Proof.
  unfold load32.
  assert (Hl : length (read_bytes m a 4) = 4%nat) by reflexivity.
  rewrite <- Hl at 1. apply le_bytes_le_value. apply read_bytes_range.
Qed.

Lemma length_field_prio m p junk :
  length (field PRIO (event_iov m p junk)) = 4%nat.
Proof.
  unfold field, event_iov, route_iov, PRIO. simpl nth.
  destruct (stale_prio junk); reflexivity.
Qed.

Lemma notify_rejected_ignores_table m p junk1 junk2 out :
  accepted m p = false -> notify m p junk1 out = notify m p junk2 out.
Proof.
  unfold accepted, notify. fold (is_route m p).
  destruct (is_route m p); simpl; [| reflexivity].
  destruct (Z.ltb_spec (attr_len m p) 0) as [| Hl]; [reflexivity |].
  destruct (Z.leb_spec 0 (attr_len m p)); [| lia]. simpl.
  unfold suppressed.
  destruct (rtm_protocol m (NLMSG_DATA p) =? RTPROT_ROUTEMACHINE);
    [reflexivity |].
  destruct (rtm_table m (NLMSG_DATA p) =? RT_TABLE_MAIN); simpl;
    [| reflexivity].
  fold (family_known m p). intros ->. reflexivity.
Qed.

(** X6: when memset reaches the slots of the destination, the gateway
    and the priority (RTA_MAX at least 6 and 7 pointers no larger than
    4 * (RTA_MAX + 1) bytes), what notify writes does not depend on what
    its uninitialised table held before the call: a message it rejects
    or suppresses gives the same output, for an accepted route the
    command, prefix length, destination and gateway vectors are the same
    and the priority vector has 4 bytes; the whole output is the same
    when, in addition, both calls find the same thing in the dead object
    [prio]. *)
Theorem notify_ignores_stale_table m p junk1 junk2 out :
  0 < sizeof_ptr ->
  RTA_PRIORITY <= RTA_MAX ->
  (RTA_PRIORITY + 1) * sizeof_ptr <= sizeof_rtattr * (RTA_MAX + 1) ->
  length (stale_attrs junk1) = Z.to_nat (RTA_MAX + 1) ->
  length (stale_attrs junk2) = Z.to_nat (RTA_MAX + 1) ->
  (accepted m p = false -> notify m p junk1 out = notify m p junk2 out)
  /\ (forall i, (i < PRIO)%nat ->
        field i (event_iov m p junk1) = field i (event_iov m p junk2))
  /\ length (field PRIO (event_iov m p junk1)) = 4%nat
  /\ length (field PRIO (event_iov m p junk2)) = 4%nat
  /\ (stale_prio junk1 = stale_prio junk2 ->
      notify m p junk1 out = notify m p junk2 out).
Proof.
  intros Hp Hm Hc H1 H2.
  pose proof (fun k => used_slots_ignore_stale_table m p junk1 junk2 k
                         Hp Hm Hc H1 H2) as Hs.
  split; [apply notify_rejected_ignores_table |]. split.
  - intros i Hi. unfold field, event_iov, route_iov, PRIO in *.
    destruct i as [| [| [| [| i]]]]; [reflexivity | reflexivity | | | lia];
      simpl nth.
    + rewrite (Hs RTA_DST) by (unfold RTA_DST, RTA_PRIORITY; lia).
      reflexivity.
    + rewrite (Hs RTA_GATEWAY) by (unfold RTA_GATEWAY, RTA_PRIORITY; lia).
      reflexivity.
  - split; [apply length_field_prio |]. split; [apply length_field_prio |].
    intros Hd. destruct (accepted m p) eqn:Ha.
    + rewrite !notify_accepted by assumption. f_equal.
      apply event_iov_ignores_stale_table; assumption.
    + apply notify_rejected_ignores_table. assumption.
Qed.

(** X7: notify takes the attribute block to be 4 bytes shorter than it
    is (it subtracts 32 from the declared length, the attributes start
    at offset 28).  An attribute it finds for a kind whose slot memset
    reaches has that kind, starts at or after offset 28 and ends at
    least 4 bytes before the declared end of the message; so an
    attribute that ends where the message ends is never used. *)
Theorem used_attributes_end_four_bytes_early m p junk k :
  4 <= sizeof_ptr ->
  32 <= nlmsg_len m p < 2 ^ 31 ->
  0 <= k <= RTA_MAX ->
  (k + 1) * sizeof_ptr <= sizeof_rtattr * (RTA_MAX + 1) ->
  length (stale_attrs junk) = Z.to_nat (RTA_MAX + 1) ->
  slot (parsed_attrs m p junk) k <> 0 ->
  rta_type m (slot (parsed_attrs m p junk) k) = k
  /\ p + 28 <= slot (parsed_attrs m p junk) k
  /\ slot (parsed_attrs m p junk) k
     + rta_len m (slot (parsed_attrs m p junk) k)
     <= p + nlmsg_len m p - 4.
Proof.
  intros Hp Hl Hk Hc Hj Hs. unfold parsed_attrs in *.
  rewrite parse_attrs_cleared_slot in * by (assumption || lia).
  destruct (last_of_kind m k _) as [a |] eqn:E; simpl in *; [| congruence].
  apply last_of_kind_in in E as [Hin Ht].
  rewrite attr_len_eq in Hin by assumption.
  apply attr_walk_in_block in Hin; [| lia].
  change (RTM_RTA (NLMSG_DATA p)) with (p + 16 + 12) in Hin.
  repeat split; (assumption || lia).
Qed.

(** X8: the record of an accepted route starts with the command byte, 0
    for an addition and 1 for a deletion, and the prefix length of the
    message; then come a destination of at most 32 bytes, a gateway of 4
    or 16 bytes and a priority of 4 bytes: between 10 and 54 bytes in
    all, appended to the stream. *)
Theorem route_record_shape m p junk out :
  accepted m p = true ->
  exists dst gw prio,
    notify m p junk out =
      out ++ route_cmd m p :: rtm_dst_len m (NLMSG_DATA p)
             :: dst ++ gw ++ prio
    /\ (nlmsg_type m p = RTM_NEWROUTE /\ route_cmd m p = 0
        \/ nlmsg_type m p = RTM_DELROUTE /\ route_cmd m p = 1)
    /\ (length dst <= 32)%nat
    /\ (length gw = 4%nat \/ length gw = 16%nat)
    /\ length prio = 4%nat
    /\ (length out + 10 <= length (notify m p junk out) <= length out + 54)%nat.
Proof.
  intros Ha. rewrite notify_accepted by assumption.
  exists (field DST (event_iov m p junk)), (field GW (event_iov m p junk)),
         (field PRIO (event_iov m p junk)).
  assert (Hcmd : nlmsg_type m p = RTM_NEWROUTE /\ route_cmd m p = 0
                 \/ nlmsg_type m p = RTM_DELROUTE /\ route_cmd m p = 1).
  { unfold accepted in Ha. repeat (apply andb_true_iff in Ha as [Ha _]).
    unfold is_route in Ha. unfold route_cmd.
    destruct (Z.eqb_spec (nlmsg_type m p) RTM_NEWROUTE) as [E |].
    - left. split; [exact E | reflexivity].
    - simpl in Ha. apply Z.eqb_eq in Ha. right. split; [exact Ha | reflexivity]. }
  assert (Hd : (length (field DST (event_iov m p junk)) <= 32)%nat).
  { unfold field, event_iov, route_iov, DST. simpl nth.
    destruct (negb _); [| simpl; lia].
    rewrite length_read_bytes.
    pose proof (load8_range m (NLMSG_DATA p + 1)) as Hb.
    fold (rtm_dst_len m (NLMSG_DATA p)) in Hb.
    assert ((rtm_dst_len m (NLMSG_DATA p) + 7) / 8 < 33)
      by (apply Z.div_lt_upper_bound; lia).
    lia. }
  assert (Hg : length (field GW (event_iov m p junk)) = 4%nat
               \/ length (field GW (event_iov m p junk)) = 16%nat).
  { unfold field, event_iov, route_iov, GW. simpl nth.
    destruct (negb _); [| left; reflexivity].
    rewrite length_read_bytes. unfold host_len.
    destruct (rtm_family m (NLMSG_DATA p) =? AF_INET);
      [left | right]; reflexivity. }
  assert (Hpr : length (field PRIO (event_iov m p junk)) = 4%nat).
  { apply length_field_prio. }
  assert (Hw : writev out (event_iov m p junk) =
               out ++ route_cmd m p :: rtm_dst_len m (NLMSG_DATA p)
                      :: field DST (event_iov m p junk)
                         ++ field GW (event_iov m p junk)
                         ++ field PRIO (event_iov m p junk)).
  { unfold writev. rewrite event_iov_fields at 1.
    unfold field at 1 2, event_iov at 1 2, route_iov at 1 2, CMD, MASK.
    simpl nth. unfold read_bytes at 1. simpl.
    rewrite Z.add_0_r, app_nil_r. reflexivity. }
  split; [exact Hw |]. split; [exact Hcmd |]. split; [exact Hd |].
  split; [exact Hg |]. split; [exact Hpr |].
  rewrite Hw, length_app. simpl. rewrite !length_app. lia.
Qed.

Lemma field_prio m p junk :
  field PRIO (event_iov m p junk) =
  match stale_prio junk with
  | None => le_bytes 4 (prio_stored m (parsed_attrs m p junk))
  | Some g => le_bytes 4 g
  end.
Proof. reflexivity. Qed.

(** X9: the priority vector always has 4 bytes.  The four bytes the
    code stores in [prio] are, with a priority attribute in the table,
    the attribute's payload in reverse order, so that read in network
    byte order they give the value the host reads from the payload, and
    four zero bytes without one.  Whenever the dead object [prio] still
    holds the stored value when writev runs, the priority field of the
    record decodes in network byte order to that value, and is zero
    without a priority attribute. *)
Theorem priority_field_is_big_endian m p junk :
  length (field PRIO (event_iov m p junk)) = 4%nat
  /\ (slot (parsed_attrs m p junk) RTA_PRIORITY <> 0 ->
      le_bytes 4 (prio_stored m (parsed_attrs m p junk)) =
        rev (read_bytes m
               (RTA_DATA (slot (parsed_attrs m p junk) RTA_PRIORITY)) 4)
      /\ be_value (le_bytes 4 (prio_stored m (parsed_attrs m p junk))) =
         load32 m (RTA_DATA (slot (parsed_attrs m p junk) RTA_PRIORITY)))
  /\ (slot (parsed_attrs m p junk) RTA_PRIORITY = 0 ->
      le_bytes 4 (prio_stored m (parsed_attrs m p junk)) = [0; 0; 0; 0])
  /\ (stale_prio junk = None ->
      (slot (parsed_attrs m p junk) RTA_PRIORITY <> 0 ->
       be_value (field PRIO (event_iov m p junk)) =
       load32 m (RTA_DATA (slot (parsed_attrs m p junk) RTA_PRIORITY)))
      /\ (slot (parsed_attrs m p junk) RTA_PRIORITY = 0 ->
          field PRIO (event_iov m p junk) = [0; 0; 0; 0])).
Proof.
  assert (Hst : slot (parsed_attrs m p junk) RTA_PRIORITY <> 0 ->
    le_bytes 4 (prio_stored m (parsed_attrs m p junk)) =
      rev (read_bytes m
             (RTA_DATA (slot (parsed_attrs m p junk) RTA_PRIORITY)) 4)
    /\ be_value (le_bytes 4 (prio_stored m (parsed_attrs m p junk))) =
       load32 m (RTA_DATA (slot (parsed_attrs m p junk) RTA_PRIORITY))).
  { intros Hs. unfold prio_stored. destruct (negb _) eqn:E.
    - rewrite le_bytes_htonl, le_bytes_load32. split; [reflexivity |].
      unfold be_value. rewrite rev_involutive. reflexivity.
    - apply negb_false_iff, Z.eqb_eq in E. contradiction. }
  assert (Hz : slot (parsed_attrs m p junk) RTA_PRIORITY = 0 ->
    le_bytes 4 (prio_stored m (parsed_attrs m p junk)) = [0; 0; 0; 0]).
  { unfold prio_stored. intros ->. reflexivity. }
  split; [apply length_field_prio |]. split; [exact Hst |].
  split; [exact Hz |].
  intros Hd. rewrite field_prio, Hd. split.
  - intros Hs. apply Hst. exact Hs.
  - exact Hz.
Qed.

(** ** More on read_routes *)

Lemma to_size_t_negative x :
  4 <= sizeof_ptr -> - 2 ^ 31 <= x < 0 -> 2 ^ 31 <= to_size_t x.
Proof.
  intros Hp Hx. unfold to_size_t. pose proof (pow_size_t_ge Hp).
  rewrite <- (Z_mod_plus_full x 1). rewrite Z.mod_small; lia.
Qed.

Lemma to_int32_range x : - 2 ^ 31 <= to_int32 x < 2 ^ 31.
Proof.
  unfold to_int32. pose proof (Z.mod_pos_bound (x + 2 ^ 31) (2 ^ 32)). lia.
Qed.

Lemma after_frames_bounds m fs :
  forall p ret p' ret',
    ret < 2 ^ 31 ->
    after_frames m p ret fs = Some (p', ret') ->
    fs = [] /\ ret' = ret \/ -3 <= ret' <= ret - sizeof_nlmsghdr.
Proof.
  induction fs as [| f fs IH]; intros p ret p' ret' Hret Ha; simpl in Ha.
  - left. inversion Ha. split; reflexivity.
  - right.
    destruct (Z.eqb_spec f p); [| discriminate].
    destruct (Z.leb_spec sizeof_nlmsghdr (to_int32 (nlmsg_len m p)));
      [| discriminate].
    destruct (Z.leb_spec (to_int32 (nlmsg_len m p)) ret); [| discriminate].
    simpl in Ha. unfold sizeof_nlmsghdr in *.
    pose proof (align4_bounds (to_int32 (nlmsg_len m p)) ltac:(lia)).
    unfold NLMSG_ALIGN in *.
    apply IH in Ha; [| lia]. destruct Ha as [[_ ->] | Ha]; lia.
Qed.

Lemma read_routes_after_frames fuel r junk out fs p' ret' :
  4 <= sizeof_ptr ->
  0 < rv_ret r <= BUFSIZE ->
  rv_namelen r = sizeof_sockaddr_nl ->
  after_frames (rv_mem r) (rv_buf r) (rv_ret r) fs = Some (p', ret') ->
  (length fs < fuel)%nat ->
  read_routes fuel r junk out =
  frames_loop (S (fuel - length fs - 1)) r junk (length fs) p' ret'
    (dispatch_all (rv_mem r) junk 0 fs out).
Proof.
  intros Hp Hret Hn Ha Hf. unfold BUFSIZE in *.
  unfold read_routes. rewrite to_int32_id by lia.
  destruct (Z.eqb_spec (rv_ret r) (-1)); [lia |].
  destruct (Z.eqb_spec (rv_ret r) 0); [lia |].
  rewrite Hn. simpl.
  replace fuel with (length fs + S (fuel - length fs - 1))%nat at 1 by lia.
  apply (frames_loop_prefix r junk fs Hp (S (fuel - length fs - 1)) 0%nat
           (rv_buf r) (rv_ret r) out p' ret' ltac:(lia) Ha).
Qed.

Lemma frames_loop_bad_length fuel r junk i p ret out :
  4 <= sizeof_ptr ->
  sizeof_nlmsghdr <= ret < 2 ^ 31 \/ - 2 ^ 31 <= ret < 0 ->
  0 <= to_int32 (nlmsg_len (rv_mem r) p) < sizeof_nlmsghdr
  \/ ret < to_int32 (nlmsg_len (rv_mem r) p) ->
  frames_loop (S fuel) r junk i p ret out =
  Exit 1 (out ++ error_record
            (quit_message
               (if msg_trunc r then cstr "truncated message"
                else cstr "malformed message") (rv_errno r))).
Proof.
  intros Hp Hret Hlen. unfold sizeof_nlmsghdr in *. simpl.
  assert (H16 : 16 <= to_size_t ret).
  { destruct Hret as [Hret | Hret].
    - rewrite to_size_t_small; lia.
    - pose proof (to_size_t_negative ret Hp Hret). lia. }
  unfold sizeof_nlmsghdr. destruct (Z.leb_spec 16 (to_size_t ret)); [| lia].
  assert (Hbad : (to_size_t (to_int32 (nlmsg_len (rv_mem r) p)) <? 16)
                 || (ret <? to_int32 (nlmsg_len (rv_mem r) p)) = true).
  { destruct Hlen as [Hlen | Hlen].
    - rewrite to_size_t_small by lia.
      destruct (Z.ltb_spec (to_int32 (nlmsg_len (rv_mem r) p)) 16);
        [reflexivity | lia].
    - destruct (Z.ltb_spec ret (to_int32 (nlmsg_len (rv_mem r) p)));
        [apply orb_true_r | lia]. }
  rewrite Hbad. destruct (msg_trunc r); apply error_quit_eq; lia.
Qed.

Lemma dispatch_all_done m junk fs :
  forall i out,
    (forall f, In f fs -> nlmsg_type m f = NLMSG_DONE) ->
    dispatch_all m junk i fs out = out.
Proof.
  induction fs as [| f fs IH]; intros i out H; simpl; [reflexivity |].
  rewrite (H f (or_introl eq_refl)). simpl.
  apply IH. intros g Hg. apply H. right. exact Hg.
Qed.

Lemma error_reply_app msg out :
  error_reply msg out = out ++ error_reply msg [].
Proof. reflexivity. Qed.

Lemma notify_app m p junk out :
  notify m p junk out = out ++ notify m p junk [].
Proof.
  unfold notify.
  repeat match goal with
         | |- context [if ?b then _ else _] => destruct b
         end;
    try apply error_reply_app; try reflexivity;
    symmetry; apply app_nil_r.
Qed.

Lemma prepend_prepend a b o :
  prepend_output a (prepend_output b o) = prepend_output (a ++ b) o.
Proof. destruct o; simpl; rewrite app_assoc; reflexivity. Qed.

Lemma error_quit_app msg errno out :
  error_quit msg errno out = prepend_output out (error_quit msg errno []).
Proof. reflexivity. Qed.

Lemma frames_loop_app fuel r junk :
  forall i p ret out,
    frames_loop fuel r junk i p ret out =
    prepend_output out (frames_loop fuel r junk i p ret []).
Proof.
  induction fuel as [| fuel IH]; intros i p ret out; simpl.
  - rewrite app_nil_r. reflexivity.
  - destruct (sizeof_nlmsghdr <=? to_size_t ret).
    + destruct ((to_size_t (to_int32 (nlmsg_len (rv_mem r) p))
                 <? sizeof_nlmsghdr)
                || (ret <? to_int32 (nlmsg_len (rv_mem r) p))).
      * destruct (msg_trunc r); apply error_quit_app.
      * rewrite IH. symmetry. rewrite IH, prepend_prepend.
        destruct (negb (nlmsg_type (rv_mem r) p =? NLMSG_DONE)).
        -- rewrite <- notify_app. reflexivity.
        -- rewrite app_nil_r. reflexivity.
    + destruct (msg_trunc r); [simpl; rewrite app_nil_r; reflexivity |].
      destruct (negb (ret =? 0)); [apply error_quit_app |].
      simpl. rewrite app_nil_r. reflexivity.
Qed.

Lemma frames_loop_exit fuel r junk :
  0 < sizeof_ptr ->
  forall i p ret out status out',
    frames_loop fuel r junk i p ret out = Exit status out' ->
    status = 1
    /\ exists mid msg, out' = out ++ mid ++ error_record msg.
Proof.
  intros Hp. induction fuel as [| fuel IH]; intros i p ret out status out';
    simpl; [discriminate |].
  assert (Hq : forall msg,
    error_quit msg (rv_errno r) out = Exit status out' ->
    status = 1 /\ exists mid msg', out' = out ++ mid ++ error_record msg').
  { intros msg H. rewrite error_quit_eq in H by assumption.
    inversion H. split; [reflexivity |].
    exists [], (quit_message msg (rv_errno r)). reflexivity. }
  destruct (sizeof_nlmsghdr <=? to_size_t ret).
  - destruct ((to_size_t (to_int32 (nlmsg_len (rv_mem r) p))
               <? sizeof_nlmsghdr)
              || (ret <? to_int32 (nlmsg_len (rv_mem r) p))).
    + destruct (msg_trunc r); apply Hq.
    + intros H. apply IH in H as [Hs (mid & msg & Ho)].
      split; [exact Hs |].
      destruct (negb (nlmsg_type (rv_mem r) p =? NLMSG_DONE)).
      * rewrite notify_app in Ho.
        exists (notify (rv_mem r) p (junk i) [] ++ mid), msg.
        rewrite Ho, <- !app_assoc. reflexivity.
      * exists mid, msg. exact Ho.
  - destruct (msg_trunc r); [discriminate |].
    destruct (negb (ret =? 0)); [apply Hq | discriminate].
Qed.

(** X10: a batch that consists of complete frames and nothing else is
    dispatched frame by frame and read_routes returns, whether or not
    the receive was flagged as truncated; frames of type NLMSG_DONE add
    nothing, so a batch of terminators leaves the stream as it was. *)
Theorem complete_batch_is_dispatched fuel r junk out fs p' :
  4 <= sizeof_ptr ->
  0 < rv_ret r <= BUFSIZE ->
  rv_namelen r = sizeof_sockaddr_nl ->
  after_frames (rv_mem r) (rv_buf r) (rv_ret r) fs = Some (p', 0) ->
  (length fs < fuel)%nat ->
  read_routes fuel r junk out =
    Return (dispatch_all (rv_mem r) junk 0 fs out)
  /\ ((forall f, In f fs -> nlmsg_type (rv_mem r) f = NLMSG_DONE) ->
      read_routes fuel r junk out = Return out).
Proof.
  intros Hp Hret Hn Ha Hf.
  assert (H : read_routes fuel r junk out =
              Return (dispatch_all (rv_mem r) junk 0 fs out)).
  { rewrite (read_routes_after_frames fuel r junk out fs p' 0) by assumption.
    cbn [frames_loop]. rewrite (to_size_t_small 0) by lia.
    destruct (msg_trunc r); reflexivity. }
  split; [exact H |]. intros Hd. rewrite H, dispatch_all_done by assumption.
  reflexivity.
Qed.

(** X11: when between 1 and 15 bytes are left after the complete frames
    and the receive was not flagged as truncated, the complete frames
    are dispatched, then the error record "unexpected remaining bytes"
    is written and the process exits with status 1. *)
Theorem leftover_bytes_are_fatal fuel r junk out fs p' ret' :
  4 <= sizeof_ptr ->
  0 < rv_ret r <= BUFSIZE ->
  rv_namelen r = sizeof_sockaddr_nl ->
  msg_trunc r = false ->
  after_frames (rv_mem r) (rv_buf r) (rv_ret r) fs = Some (p', ret') ->
  (length fs < fuel)%nat ->
  0 < ret' < sizeof_nlmsghdr ->
  read_routes fuel r junk out =
  Exit 1 (dispatch_all (rv_mem r) junk 0 fs out
          ++ error_record
               (quit_message (cstr "unexpected remaining bytes")
                  (rv_errno r))).
Proof.
  intros Hp Hret Hn Ht Ha Hf Hleft. unfold sizeof_nlmsghdr in *.
  rewrite (read_routes_after_frames fuel r junk out fs p' ret') by assumption.
  simpl. rewrite (to_size_t_small ret') by lia. unfold sizeof_nlmsghdr.
  destruct (Z.leb_spec 16 ret'); [lia |]. rewrite Ht.
  destruct (Z.eqb_spec ret' 0); [lia |]. simpl.
  apply error_quit_eq. lia.
Qed.

(** X12: when a frame header is left after the complete frames and its
    declared length is below 16 or above the bytes left, the complete
    frames are dispatched, then an error record is written and the
    process exits with status 1; the message is "truncated message"
    when the receive was flagged as truncated and "malformed message"
    otherwise. *)
Theorem bad_declared_length_is_fatal fuel r junk out fs p' ret' :
  4 <= sizeof_ptr ->
  0 < rv_ret r <= BUFSIZE ->
  rv_namelen r = sizeof_sockaddr_nl ->
  after_frames (rv_mem r) (rv_buf r) (rv_ret r) fs = Some (p', ret') ->
  (length fs < fuel)%nat ->
  sizeof_nlmsghdr <= ret' ->
  0 <= to_int32 (nlmsg_len (rv_mem r) p') < sizeof_nlmsghdr
  \/ ret' < to_int32 (nlmsg_len (rv_mem r) p') ->
  read_routes fuel r junk out =
  Exit 1 (dispatch_all (rv_mem r) junk 0 fs out
          ++ error_record
               (quit_message
                  (if msg_trunc r then cstr "truncated message"
                   else cstr "malformed message") (rv_errno r))).
Proof.
  intros Hp Hret Hn Ha Hf Hge Hlen.
  rewrite (read_routes_after_frames fuel r junk out fs p' ret') by assumption.
  unfold BUFSIZE, sizeof_nlmsghdr in *.
  destruct (after_frames_bounds (rv_mem r) fs (rv_buf r) (rv_ret r) p' ret'
              ltac:(lia) Ha) as [[_ ->] | Hb];
    unfold sizeof_nlmsghdr in *;
    apply frames_loop_bad_length; unfold sizeof_nlmsghdr;
    (assumption || (left; lia)).
Qed.

(** X13: a receive that succeeded but reports a sender address of a
    length other than that of a netlink address is fatal before any
    frame is looked at: the error record "bad message namelen" is
    written and the process exits with status 1. *)
Theorem wrong_sender_address_length_is_fatal fuel r junk out :
  0 < sizeof_ptr ->
  0 < rv_ret r <= BUFSIZE ->
  rv_namelen r <> sizeof_sockaddr_nl ->
  read_routes fuel r junk out =
  Exit 1 (out ++ error_record
                   (quit_message (cstr "bad message namelen") (rv_errno r))).
Proof.
  intros Hp Hret Hn. unfold BUFSIZE in *. unfold read_routes.
  rewrite to_int32_id by lia.
  destruct (Z.eqb_spec (rv_ret r) (-1)); [lia |].
  destruct (Z.eqb_spec (rv_ret r) 0); [lia |].
  destruct (Z.eqb_spec (rv_namelen r) sizeof_sockaddr_nl); [contradiction |].
  simpl. apply error_quit_eq. assumption.
Qed.

(** X14: a frame whose declared length is 2^31 or more is not rejected:
    as an [int] the length is negative, which passes both tests of the
    frame loop, so the frame is dispatched like a complete one and the
    loop goes on. *)
Theorem huge_declared_length_is_dispatched fuel r junk i p ret out :
  4 <= sizeof_ptr ->
  sizeof_nlmsghdr <= ret < 2 ^ 31 ->
  2 ^ 31 <= nlmsg_len (rv_mem r) p ->
  to_int32 (nlmsg_len (rv_mem r) p) < 0
  /\ frames_loop (S fuel) r junk i p ret out =
     frames_loop fuel r junk (S i)
       (p + NLMSG_ALIGN (to_int32 (nlmsg_len (rv_mem r) p)))
       (to_int32 (to_uint32 ret
                  - NLMSG_ALIGN (to_int32 (nlmsg_len (rv_mem r) p))))
       (if negb (nlmsg_type (rv_mem r) p =? NLMSG_DONE)
        then notify (rv_mem r) p (junk i) out
        else out).
Proof.
  intros Hp Hret Hlen. unfold sizeof_nlmsghdr in *.
  pose proof (load32_range (rv_mem r) p) as Hr.
  fold (nlmsg_len (rv_mem r) p) in Hr.
  assert (Hneg : to_int32 (nlmsg_len (rv_mem r) p) =
                 nlmsg_len (rv_mem r) p - 2 ^ 32).
  { unfold to_int32.
    replace (nlmsg_len (rv_mem r) p + 2 ^ 31)
      with (nlmsg_len (rv_mem r) p - 2 ^ 31 + 1 * 2 ^ 32) by lia.
    rewrite Z_mod_plus_full, Z.mod_small; lia. }
  split; [lia |]. simpl frames_loop.
  rewrite (to_size_t_small ret) by lia. unfold sizeof_nlmsghdr.
  destruct (Z.leb_spec 16 ret); [| lia].
  pose proof (to_size_t_negative (to_int32 (nlmsg_len (rv_mem r) p)) Hp
                ltac:(lia)) as Hs.
  destruct (Z.ltb_spec (to_size_t (to_int32 (nlmsg_len (rv_mem r) p))) 16);
    [lia |].
  destruct (Z.ltb_spec ret (to_int32 (nlmsg_len (rv_mem r) p))); [lia |].
  reflexivity.
Qed.

(** X15: when the last complete frame has a length that is not a
    multiple of 4 and ends where the received bytes end, the byte count
    becomes negative and the loop does not stop: it reads a frame header
    behind the received bytes, and unless the length found there is
    negative as an [int] the process exits with status 1 after the error
    record "truncated message" or "malformed message". *)
Theorem unpadded_last_frame_is_fatal fuel r junk out fs p' ret' :
  4 <= sizeof_ptr ->
  0 < rv_ret r <= BUFSIZE ->
  rv_namelen r = sizeof_sockaddr_nl ->
  after_frames (rv_mem r) (rv_buf r) (rv_ret r) fs = Some (p', ret') ->
  (length fs < fuel)%nat ->
  ret' < 0 ->
  0 <= to_int32 (nlmsg_len (rv_mem r) p') ->
  read_routes fuel r junk out =
  Exit 1 (dispatch_all (rv_mem r) junk 0 fs out
          ++ error_record
               (quit_message
                  (if msg_trunc r then cstr "truncated message"
                   else cstr "malformed message") (rv_errno r))).
Proof.
  intros Hp Hret Hn Ha Hf Hneg Hlen.
  rewrite (read_routes_after_frames fuel r junk out fs p' ret') by assumption.
  unfold BUFSIZE, sizeof_nlmsghdr in *.
  destruct (after_frames_bounds (rv_mem r) fs (rv_buf r) (rv_ret r) p' ret'
              ltac:(lia) Ha) as [[_ ->] | Hb];
    [lia |].
  unfold sizeof_nlmsghdr in *.
  apply frames_loop_bad_length; unfold sizeof_nlmsghdr;
    [assumption | right; lia | right; lia].
Qed.

Lemma read_routes_exit fuel r junk out status out' :
  0 < sizeof_ptr ->
  read_routes fuel r junk out = Exit status out' ->
  status = 1 /\ exists mid msg, out' = out ++ mid ++ error_record msg.
Proof.
  intros Hp. unfold read_routes.
  assert (Hq : forall msg,
    error_quit msg (rv_errno r) out = Exit status out' ->
    status = 1 /\ exists mid msg', out' = out ++ mid ++ error_record msg').
  { intros msg H. rewrite error_quit_eq in H by assumption.
    inversion H. split; [reflexivity |].
    exists [], (quit_message msg (rv_errno r)). reflexivity. }
  destruct (to_int32 (rv_ret r) =? -1).
  { destruct ((rv_errno r =? EINTR) || (rv_errno r =? EAGAIN)
              || (rv_errno r =? ENOBUFS)); [discriminate | apply Hq]. }
  destruct (to_int32 (rv_ret r) =? 0); [apply Hq |].
  destruct (negb (rv_namelen r =? sizeof_sockaddr_nl)); [apply Hq |].
  apply frames_loop_exit. assumption.
Qed.

Lemma read_routes_app fuel r junk out :
  read_routes fuel r junk out =
  prepend_output out (read_routes fuel r junk []).
Proof.
  unfold read_routes.
  destruct (to_int32 (rv_ret r) =? -1).
  { destruct ((rv_errno r =? EINTR) || (rv_errno r =? EAGAIN)
              || (rv_errno r =? ENOBUFS));
      [simpl; rewrite app_nil_r; reflexivity | apply error_quit_app]. }
  destruct (to_int32 (rv_ret r) =? 0); [apply error_quit_app |].
  destruct (negb (rv_namelen r =? sizeof_sockaddr_nl));
    [apply error_quit_app |].
  apply frames_loop_app.
Qed.

Lemma frames_loop_ends r junk :
  4 <= sizeof_ptr ->
  forall fuel i p ret out,
    -3 <= ret <= BUFSIZE ->
    ret < 16 * Z.of_nat fuel ->
    (0 < fuel)%nat ->
    forallb (fun q => nlmsg_len (rv_mem r) q <? 2 ^ 31)
      (frame_walk fuel r p ret) = true ->
    exists mid,
      frames_loop fuel r junk i p ret out = Return (out ++ mid)
      \/ exists msg,
           frames_loop fuel r junk i p ret out =
           Exit 1 (out ++ mid ++ error_record msg).
Proof.
  intros Hp. unfold BUFSIZE.
  assert (Hq : forall msg out,
    exists mid,
      error_quit msg (rv_errno r) out = Return (out ++ mid)
      \/ exists msg',
           error_quit msg (rv_errno r) out =
           Exit 1 (out ++ mid ++ error_record msg')).
  { intros msg out. exists []. right. eexists.
    rewrite error_quit_eq by lia. reflexivity. }
  assert (Hr : forall out : list Z,
    exists mid,
      Return out = Return (out ++ mid)
      \/ exists msg, Return out = Exit 1 (out ++ mid ++ error_record msg)).
  { intros out. exists []. left. rewrite app_nil_r. reflexivity. }
  induction fuel as [| fuel IH]; intros i p ret out Hret Hfuel Hpos Hw;
    [lia |].
  cbn [frames_loop]. cbn [frame_walk] in Hw. unfold sizeof_nlmsghdr in *.
  destruct (Z.leb_spec 16 (to_size_t ret)) as [H16 | H16].
  - cbn [forallb] in Hw. apply andb_true_iff in Hw as [Hlen Hw].
    apply Z.ltb_lt in Hlen.
    pose proof (load32_range (rv_mem r) p) as Hb.
    fold (nlmsg_len (rv_mem r) p) in Hb.
    rewrite (to_int32_id (nlmsg_len (rv_mem r) p)) in * by lia.
    rewrite (to_size_t_small (nlmsg_len (rv_mem r) p)) in * by lia.
    destruct (Z.ltb_spec (nlmsg_len (rv_mem r) p) 16) as [Hs | Hs];
      [destruct (msg_trunc r); apply Hq |].
    destruct (Z.ltb_spec ret (nlmsg_len (rv_mem r) p)) as [Hg | Hg];
      [destruct (msg_trunc r); apply Hq |].
    cbn [orb] in *.
    pose proof (align4_bounds (nlmsg_len (rv_mem r) p) ltac:(lia)) as Ha.
    unfold NLMSG_ALIGN in *.
    rewrite to_int32_sub_uint32 in *.
    rewrite (to_int32_id (ret - align4 (nlmsg_len (rv_mem r) p))) in *
      by lia.
    destruct (IH (S i)
                (p + align4 (nlmsg_len (rv_mem r) p))
                (ret - align4 (nlmsg_len (rv_mem r) p))
                (if negb (nlmsg_type (rv_mem r) p =? NLMSG_DONE)
                 then notify (rv_mem r) p (junk i) out else out)
                ltac:(lia) ltac:(lia) ltac:(lia) Hw)
      as (mid & Hmid).
    destruct (negb (nlmsg_type (rv_mem r) p =? NLMSG_DONE)).
    + rewrite (notify_app (rv_mem r) p (junk i) out) in *.
      exists (notify (rv_mem r) p (junk i) [] ++ mid).
      destruct Hmid as [H | (msg & H)]; [left | right; exists msg];
        rewrite H, <- !app_assoc; reflexivity.
    + exists mid. exact Hmid.
  - assert (Hsmall : 0 <= ret < 16).
    { destruct (Z.lt_ge_cases ret 0) as [Hn | Hn].
      - pose proof (to_size_t_negative ret Hp ltac:(lia)). lia.
      - rewrite to_size_t_small in H16 by lia. lia. }
    destruct (msg_trunc r); [apply Hr |].
    destruct (negb (ret =? 0)); [apply Hq | apply Hr].
Qed.

Lemma read_routes_ends fuel r junk out :
  4 <= sizeof_ptr ->
  BUFSIZE < 16 * Z.of_nat fuel ->
  receive_in_range fuel r = true ->
  exists mid,
    read_routes fuel r junk out = Return (out ++ mid)
    \/ exists msg,
         read_routes fuel r junk out =
         Exit 1 (out ++ mid ++ error_record msg).
Proof.
  intros Hp Hfuel Hin. unfold receive_in_range in Hin.
  apply andb_true_iff in Hin as [Hret Hw].
  apply andb_true_iff in Hret as [Hlo Hhi].
  apply Z.leb_le in Hlo, Hhi. unfold BUFSIZE in *.
  unfold read_routes. unfold read_walk in Hw.
  rewrite (to_int32_id (rv_ret r)) in * by lia.
  assert (Hq : forall msg,
    exists mid,
      error_quit msg (rv_errno r) out = Return (out ++ mid)
      \/ exists msg',
           error_quit msg (rv_errno r) out =
           Exit 1 (out ++ mid ++ error_record msg')).
  { intros msg. exists []. right. eexists.
    rewrite error_quit_eq by lia. reflexivity. }
  destruct (Z.eqb_spec (rv_ret r) (-1)).
  { destruct ((rv_errno r =? EINTR) || (rv_errno r =? EAGAIN)
              || (rv_errno r =? ENOBUFS)); [| apply Hq].
    exists []. left. rewrite app_nil_r. reflexivity. }
  destruct (Z.eqb_spec (rv_ret r) 0); [apply Hq |].
  destruct (negb (rv_namelen r =? sizeof_sockaddr_nl)); [apply Hq |].
  cbn [orb] in Hw.
  apply frames_loop_ends; unfold BUFSIZE; (assumption || lia).
Qed.

(** X16: when memset reaches the table slots notify reads and the
    receive keeps the frame loop at the buffer (at most BUFSIZE bytes,
    no declared length of 2^31 or more among the headers the loop
    reads), read_routes always ends, within 513 turns of the loop: it
    returns, or it exits with status 1 and the last thing on the output
    stream is an error record.  Either way what was on the stream before
    the call is still in front. *)
Theorem read_routes_exits_behind_an_error_record fuel r junk out :
  4 <= sizeof_ptr ->
  used_slots_cleared = true ->
  BUFSIZE < 16 * Z.of_nat fuel ->
  receive_in_range fuel r = true ->
  exists mid,
    read_routes fuel r junk out = Return (out ++ mid)
    \/ exists msg,
         read_routes fuel r junk out =
         Exit 1 (out ++ mid ++ error_record msg).
Proof. intros Hp _. apply read_routes_ends. exact Hp. Qed.

(** X17: read_routes only appends: its outcome on a stream that already
    holds [out] is its outcome on the empty stream with [out] put in
    front; the same holds for notify. *)
Theorem read_routes_only_appends fuel r junk out m p table :
  read_routes fuel r junk out =
    prepend_output out (read_routes fuel r junk [])
  /\ notify m p table out = out ++ notify m p table [].
Proof. split; [apply read_routes_app | apply notify_app]. Qed.

(** ** More on the event loop *)

Lemma output_of_prepend pre o :
  output_of (prepend_output pre o) = pre ++ output_of o.
Proof. destruct o; reflexivity. Qed.

Lemma call_read_routes_stdout fuel r junk st :
  stdout (state_of (call_read_routes fuel r junk st)) =
  stdout st ++ output_of (read_routes fuel r junk []).
Proof.
  unfold call_read_routes. rewrite state_of_lift. simpl.
  rewrite read_routes_app, output_of_prepend. reflexivity.
Qed.

Lemma call_read_routes_halted fuel r junk st status st' :
  0 < sizeof_ptr ->
  call_read_routes fuel r junk st = Halted status st' ->
  status = 1 /\ exists pre msg, stdout st' = pre ++ error_record msg.
Proof.
  intros Hp. unfold call_read_routes.
  destruct (read_routes _ _ _ _) as [o | c o | o] eqn:E; simpl;
    try discriminate.
  intros H. inversion H; subst. simpl.
  apply read_routes_exit in E as [Hc (mid & msg & Ho)]; [| assumption].
  split; [exact Hc |]. exists (stdout st ++ mid), msg.
  rewrite Ho, <- app_assoc. reflexivity.
Qed.

Lemma iteration_stdout fuel w st :
  exists more, stdout (state_of (iteration fuel w st)) = stdout st ++ more.
Proof.
  unfold iteration.
  destruct (sel_res w =? -1).
  { rewrite state_of_lift. simpl. eexists. apply error_reply_app. }
  set (st0 := {| wset_sock := wset_sock st && sock_writable w;
                 stdout := stdout st; sock_ops := sock_ops st |}).
  assert (Hrest : forall st1, stdout st1 = stdout st ->
    exists more,
      stdout
        (state_of
           (and_then
              (if wset_sock st1
               then call_read_routes fuel (recv_first w) (junk_first w)
                      (call_request_dump
                         {| wset_sock := false; stdout := stdout st1;
                            sock_ops := sock_ops st1 |})
               else Running st1)
              (fun st3 =>
                 if sock_readable w
                 then call_read_routes fuel (recv_second w) (junk_second w)
                        st3
                 else Running st3))) = stdout st ++ more).
  { intros st1 H1.
    assert (Hsecond : forall st3 more3,
      stdout st3 = stdout st ++ more3 ->
      exists more,
        stdout
          (state_of
             (if sock_readable w
              then call_read_routes fuel (recv_second w) (junk_second w) st3
              else Running st3)) = stdout st ++ more).
    { intros st3 more3 H3. destruct (sock_readable w).
      - rewrite call_read_routes_stdout, H3, <- app_assoc. eexists.
        reflexivity.
      - exists more3. exact H3. }
    destruct (wset_sock st1).
    - destruct (call_read_routes fuel (recv_first w) (junk_first w) _)
        as [st3 | c st3 | st3] eqn:E;
        pose proof (call_read_routes_stdout fuel (recv_first w)
          (junk_first w)
          (call_request_dump
             {| wset_sock := false; stdout := stdout st1;
                sock_ops := sock_ops st1 |})) as Hf;
        rewrite E in Hf; simpl in Hf; rewrite H1 in Hf.
      + rewrite and_then_running. apply (Hsecond st3 _ Hf).
      + eexists. exact Hf.
      + eexists. exact Hf.
    - rewrite and_then_running. apply (Hsecond st1 []).
      rewrite app_nil_r. exact H1. }
  assert (H0 : exists more, stdout st0 = stdout st ++ more)
    by (exists []; simpl; rewrite app_nil_r; reflexivity).
  destruct (stdin_readable w).
  - destruct ((stdin_n w =? -1) && negb (stdin_errno w =? EWOULDBLOCK)).
    { simpl. eexists. apply error_reply_app. }
    destruct (stdin_n w =? 0); [exact H0 |].
    rewrite and_then_running. apply (Hrest st0). reflexivity.
  - rewrite and_then_running. apply (Hrest st0). reflexivity.
Qed.

Lemma iteration_halted fuel w st status st' :
  0 < sizeof_ptr ->
  iteration fuel w st = Halted status st' ->
  status = 0 /\ stdout st' = stdout st /\ sock_ops st' = sock_ops st
  \/ status = 1 /\ exists pre msg, stdout st' = pre ++ error_record msg.
Proof.
  intros Hp. unfold iteration.
  assert (Hq : forall msg errno s0,
    lift s0 (error_quit msg errno (stdout s0)) = Halted status st' ->
    status = 1 /\ exists pre msg', stdout st' = pre ++ error_record msg').
  { intros msg errno s0 H. rewrite error_quit_eq in H by assumption.
    simpl in H. inversion H; subst. simpl. split; [reflexivity |].
    eexists _, _. reflexivity. }
  destruct (sel_res w =? -1); [intros H; right; apply (Hq _ _ _ H) |].
  set (st0 := {| wset_sock := wset_sock st && sock_writable w;
                 stdout := stdout st; sock_ops := sock_ops st |}).
  assert (Hrest : forall st1,
    and_then
      (if wset_sock st1
       then call_read_routes fuel (recv_first w) (junk_first w)
              (call_request_dump
                 {| wset_sock := false; stdout := stdout st1;
                    sock_ops := sock_ops st1 |})
       else Running st1)
      (fun st3 =>
         if sock_readable w
         then call_read_routes fuel (recv_second w) (junk_second w) st3
         else Running st3) = Halted status st' ->
    status = 1 /\ exists pre msg, stdout st' = pre ++ error_record msg).
  { intros st1.
    destruct (wset_sock st1).
    - destruct (call_read_routes fuel (recv_first w) (junk_first w) _)
        as [st3 | c st3 | st3] eqn:E; simpl.
      + destruct (sock_readable w); [| discriminate].
        apply call_read_routes_halted. assumption.
      + intros H. inversion H; subst.
        apply call_read_routes_halted in E; assumption.
      + discriminate.
    - rewrite and_then_running. destruct (sock_readable w); [| discriminate].
      apply call_read_routes_halted. assumption. }
  destruct (stdin_readable w).
  - destruct ((stdin_n w =? -1) && negb (stdin_errno w =? EWOULDBLOCK)).
    { intros H. right. apply (Hq _ _ st0 H). }
    destruct (stdin_n w =? 0).
    { simpl. intros H. inversion H; subst. left. repeat split. }
    rewrite and_then_running. intros H. right. apply (Hrest st0 H).
  - rewrite and_then_running. intros H. right. apply (Hrest st0 H).
Qed.

(** X18: the output stream only grows: after any number of wake-ups,
    whether the loop is still running or the process has exited, what
    was on the stream at the start is still in front. *)
Theorem output_stream_only_grows fuel ws :
  forall st,
    exists more,
      stdout (state_of (event_loop fuel ws st)) = stdout st ++ more.
Proof.
  induction ws as [| w ws IH]; intros st; simpl.
  - exists []. rewrite app_nil_r. reflexivity.
  - destruct (iteration_stdout fuel w st) as [more1 H1].
    destruct (iteration fuel w st) as [st1 | c st1 | st1]; simpl in *.
    + destruct (IH st1) as [more2 H2]. exists (more1 ++ more2).
      rewrite H2, H1, <- app_assoc. reflexivity.
    + exists more1. exact H1.
    + exists more1. exact H1.
Qed.

Lemma call_read_routes_fuel fuel r junk st st' :
  4 <= sizeof_ptr ->
  BUFSIZE < 16 * Z.of_nat fuel ->
  receive_in_range fuel r = true ->
  call_read_routes fuel r junk st <> OutOfFuel st'.
Proof.
  intros Hp Hfuel Hin. unfold call_read_routes.
  destruct (read_routes_ends fuel r junk (stdout st) Hp Hfuel Hin)
    as (mid & [H | (msg & H)]);
    simpl; rewrite H; discriminate.
Qed.

Lemma iteration_fuel fuel w st st' :
  4 <= sizeof_ptr ->
  BUFSIZE < 16 * Z.of_nat fuel ->
  wakeup_in_range fuel w = true ->
  iteration fuel w st <> OutOfFuel st'.
Proof.
  intros Hp Hfuel Hin. unfold wakeup_in_range in Hin.
  apply andb_true_iff in Hin as [H1 H2]. unfold iteration.
  destruct (sel_res w =? -1); [discriminate |].
  set (st0 := {| wset_sock := wset_sock st && sock_writable w;
                 stdout := stdout st; sock_ops := sock_ops st |}).
  assert (Hrest : forall st1,
    and_then
      (if wset_sock st1
       then call_read_routes fuel (recv_first w) (junk_first w)
              (call_request_dump
                 {| wset_sock := false; stdout := stdout st1;
                    sock_ops := sock_ops st1 |})
       else Running st1)
      (fun st3 =>
         if sock_readable w
         then call_read_routes fuel (recv_second w) (junk_second w) st3
         else Running st3) <> OutOfFuel st').
  { intros st1.
    assert (Hsecond : forall st3,
      (if sock_readable w
       then call_read_routes fuel (recv_second w) (junk_second w) st3
       else Running st3) <> OutOfFuel st').
    { intros st3. destruct (sock_readable w); [| discriminate].
      apply call_read_routes_fuel; assumption. }
    destruct (wset_sock st1).
    - destruct (call_read_routes fuel (recv_first w) (junk_first w) _)
        as [st3 | c st3 | st3] eqn:E; simpl.
      + apply Hsecond.
      + discriminate.
      + apply call_read_routes_fuel in E; [contradiction | assumption ..].
    - rewrite and_then_running. apply Hsecond. }
  destruct (stdin_readable w).
  - destruct ((stdin_n w =? -1) && negb (stdin_errno w =? EWOULDBLOCK));
      [discriminate |].
    destruct (stdin_n w =? 0); [discriminate |].
    rewrite and_then_running. apply Hrest.
  - rewrite and_then_running. apply Hrest.
Qed.

(** X19: when memset reaches the table slots notify reads and every
    receive keeps the frame loop at the buffer, the loop never hangs in
    a receive attempt (513 turns of the frame loop are enough for each)
    and it ends the process with status 0 or 1 only; when the status is
    1 the last thing on the output stream is an error record. *)
Theorem exit_status_and_last_record fuel ws :
  4 <= sizeof_ptr ->
  used_slots_cleared = true ->
  BUFSIZE < 16 * Z.of_nat fuel ->
  forallb (wakeup_in_range fuel) ws = true ->
  forall st,
    (exists st', event_loop fuel ws st = Running st')
    \/ (exists st', event_loop fuel ws st = Halted 0 st')
    \/ (exists st' pre msg,
          event_loop fuel ws st = Halted 1 st'
          /\ stdout st' = pre ++ error_record msg).
Proof.
  intros Hp _ Hfuel. induction ws as [| w ws IH]; intros Hin st.
  - left. exists st. reflexivity.
  - cbn [forallb] in Hin. apply andb_true_iff in Hin as [Hw Hin].
    cbn [event_loop].
    destruct (iteration fuel w st) as [st1 | c st1 | st1] eqn:E; simpl.
    + apply IH. exact Hin.
    + apply iteration_halted in E; [| lia].
      destruct E as [(-> & _) | (-> & pre & msg & Hrec)].
      * right. left. exists st1. reflexivity.
      * right. right. exists st1, pre, msg. split; [reflexivity | exact Hrec].
    + apply iteration_fuel in E; [contradiction | assumption ..].
Qed.

(** X20: the end of the control input is handled before the socket:
    when select reports the control input readable and the read returns
    0, the process exits with status 0 in that iteration without writing
    anything, without sending the dump request and without a receive
    attempt, whatever the socket is ready for. *)
Theorem control_input_eof_exits_at_once fuel w st :
  sel_res w <> -1 ->
  stdin_readable w = true ->
  stdin_n w = 0 ->
  exists st',
    iteration fuel w st = Halted 0 st'
    /\ stdout st' = stdout st
    /\ sock_ops st' = sock_ops st.
Proof.
  intros Hs Hr Hn. unfold iteration.
  destruct (Z.eqb_spec (sel_res w) (-1)); [contradiction |].
  rewrite Hr, Hn. simpl. eexists. repeat split.
Qed.

(** X21: a failure of select, with any errno and so also when a signal
    interrupted it, and a failure of the read on the control input with
    an errno other than EWOULDBLOCK end the process with status 1 after
    one error record, "select" or "read", before any call on the
    socket. *)
Theorem select_and_read_failures_are_fatal fuel w st :
  0 < sizeof_ptr ->
  (sel_res w = -1 ->
   exists st',
     iteration fuel w st = Halted 1 st'
     /\ stdout st' =
        stdout st ++ error_record (quit_message (cstr "select") (sel_errno w))
     /\ sock_ops st' = sock_ops st)
  /\ (sel_res w <> -1 ->
      stdin_readable w = true ->
      stdin_n w = -1 ->
      stdin_errno w <> EWOULDBLOCK ->
      exists st',
        iteration fuel w st = Halted 1 st'
        /\ stdout st' =
           stdout st
           ++ error_record (quit_message (cstr "read") (stdin_errno w))
        /\ sock_ops st' = sock_ops st).
Proof.
  intros Hp. split.
  - intros Hs. unfold iteration. rewrite Hs. simpl.
    rewrite error_reply_eq by assumption. eexists. repeat split.
  - intros Hs Hr Hn He. unfold iteration.
    destruct (Z.eqb_spec (sel_res w) (-1)); [contradiction |].
    rewrite Hr, Hn.
    destruct (Z.eqb_spec (stdin_errno w) EWOULDBLOCK); [contradiction |].
    simpl. rewrite error_reply_eq by assumption. eexists. repeat split.
Qed.

(** X22: once the socket has left the write set, a wake-up for the
    control input alone that delivers a byte, or finds nothing to read
    (EWOULDBLOCK), changes nothing: no output, no call on the socket. *)
Theorem control_input_poke_changes_nothing fuel w st :
  wset_sock st = false ->
  sel_res w <> -1 ->
  sock_readable w = false ->
  stdin_passes w = true ->
  iteration fuel w st = Running st.
Proof.
  intros Hw Hs Hsr Hpass. unfold iteration.
  destruct (Z.eqb_spec (sel_res w) (-1)); [contradiction |].
  rewrite Hw, Hsr. simpl andb.
  assert (Hst : {| wset_sock := false; stdout := stdout st;
                   sock_ops := sock_ops st |} = st).
  { destruct st. simpl in Hw. subst. reflexivity. }
  unfold stdin_passes in Hpass.
  destruct (stdin_readable w); simpl in Hpass.
  - apply negb_true_iff, orb_false_iff in Hpass as [H1 H2].
    rewrite H1, H2. simpl. rewrite Hst. reflexivity.
  - simpl. rewrite Hst. reflexivity.
Qed.

(** ** The set-up *)

Lemma lor_o_nonblock_bits res i :
  0 <= i ->
  Z.testbit (Z.lor res O_NONBLOCK) i = Z.testbit res i || (i =? 11).
Proof.
  intros Hi. rewrite Z.lor_spec. f_equal.
  change O_NONBLOCK with (2 ^ 11). rewrite Z.pow2_bits_eqb by lia.
  apply Z.eqb_sym.
Qed.

(** X23: when both fcntl calls succeed, set_nonblock writes nothing and
    passes to F_SETFL the flags F_GETFL returned with O_NONBLOCK added:
    every flag that was set stays set and no bit other than O_NONBLOCK
    changes. *)
Theorem set_nonblock_adds_one_flag fd getfl setfl out :
  sys_ret getfl <> -1 ->
  sys_ret setfl <> -1 ->
  exists arg,
    set_nonblock fd getfl setfl out =
      Went tt [CallFcntl fd F_GETFL 0; CallFcntl fd F_SETFL arg]
    /\ Z.land arg O_NONBLOCK = O_NONBLOCK
    /\ Z.land arg (sys_ret getfl) = sys_ret getfl
    /\ (forall i, 0 <= i -> i <> 11 ->
                  Z.testbit arg i = Z.testbit (sys_ret getfl) i).
Proof.
  intros Hg Hs. exists (Z.lor (sys_ret getfl) O_NONBLOCK).
  split; [| split; [| split]].
  - unfold set_nonblock.
    destruct (Z.eqb_spec (sys_ret getfl) (-1)); [contradiction |].
    destruct (Z.eqb_spec (sys_ret setfl) (-1)); [contradiction |].
    reflexivity.
  - apply Z.bits_inj'. intros i Hi.
    rewrite Z.land_spec, Z.lor_spec.
    destruct (Z.testbit (sys_ret getfl) i), (Z.testbit O_NONBLOCK i);
      reflexivity.
  - apply Z.bits_inj'. intros i Hi.
    rewrite Z.land_spec, Z.lor_spec.
    destruct (Z.testbit (sys_ret getfl) i), (Z.testbit O_NONBLOCK i);
      reflexivity.
  - intros i Hi Hn. rewrite lor_o_nonblock_bits by assumption.
    destruct (Z.eqb_spec i 11); [contradiction |]. apply orb_false_r.
Qed.

(** X24: when any call of the set-up fails, the program writes exactly
    one error record and exits with status 1 without entering the event
    loop: no dump request, no receive attempt.  When all eight calls
    succeed the loop is entered with an empty output stream. *)
Theorem failed_setup_never_enters_the_loop e fuel ws :
  0 < sizeof_ptr ->
  (setup_ok e = false ->
   exists msg,
     run_result (program e fuel ws) =
     Halted 1 {| wset_sock := false; stdout := error_record msg;
                 sock_ops := [] |})
  /\ (setup_ok e = true ->
      run_result (program e fuel ws) = main fuel ws
      /\ length (run_calls (program e fuel ws)) = 8%nat).
Proof.
  intros Hp. unfold setup_ok, program, bind_socket, set_nonblock.
  destruct e as [[rs rsnd rrcv rb] g0 s0 g1 s1]. simpl.
  destruct (sys_ret rs =? -1);
    [split; [intros _ | discriminate]; simpl;
     rewrite error_reply_eq by assumption; eexists; reflexivity |].
  destruct (sys_ret rsnd =? -1);
    [split; [intros _ | discriminate]; simpl;
     rewrite error_reply_eq by assumption; eexists; reflexivity |].
  destruct (sys_ret rrcv =? -1);
    [split; [intros _ | discriminate]; simpl;
     rewrite error_reply_eq by assumption; eexists; reflexivity |].
  destruct (sys_ret rb =? -1);
    [split; [intros _ | discriminate]; simpl;
     rewrite error_reply_eq by assumption; eexists; reflexivity |].
  destruct (sys_ret g0 =? -1);
    [split; [intros _ | discriminate]; simpl;
     rewrite error_reply_eq by assumption; eexists; reflexivity |].
  destruct (sys_ret s0 =? -1);
    [split; [intros _ | discriminate]; simpl;
     rewrite error_reply_eq by assumption; eexists; reflexivity |].
  destruct (sys_ret g1 =? -1);
    [split; [intros _ | discriminate]; simpl;
     rewrite error_reply_eq by assumption; eexists; reflexivity |].
  destruct (sys_ret s1 =? -1);
    [split; [intros _ | discriminate]; simpl;
     rewrite error_reply_eq by assumption; eexists; reflexivity |].
  split; [discriminate |]. intros _. split; reflexivity.
Qed.

(** X25: when the socket is created and both buffer sizes are set but
    bind fails, the program has made exactly these four calls, the last
    one a bind to the wildcard netlink address with the link, IPv4 and
    IPv6 address and route groups (1361); it writes one error record
    whose text is "bind", followed by ": " and the text of the error
    when errno is not 0, and exits with status 1. *)
Theorem bind_failure_is_reported e fuel ws :
  0 < sizeof_ptr ->
  sys_ret (res_socket (res_bind_socket e)) <> -1 ->
  sys_ret (res_sndbuf (res_bind_socket e)) <> -1 ->
  sys_ret (res_rcvbuf (res_bind_socket e)) <> -1 ->
  sys_ret (res_bind (res_bind_socket e)) = -1 ->
  run_calls (program e fuel ws) =
    [ CallSocket PF_NETLINK SOCK_RAW NETLINK_ROUTE;
      CallSetsockopt (sys_ret (res_socket (res_bind_socket e)))
        SOL_SOCKET SO_SNDBUF 32768;
      CallSetsockopt (sys_ret (res_socket (res_bind_socket e)))
        SOL_SOCKET SO_RCVBUF 1048576;
      CallBind (sys_ret (res_socket (res_bind_socket e))) AF_NETLINK 0 1361 ]
  /\ run_result (program e fuel ws) =
     Halted 1
       {| wset_sock := false;
          stdout :=
            error_record
              (quit_message (cstr "bind")
                 (sys_errno (res_bind (res_bind_socket e))));
          sock_ops := [] |}
  /\ (sys_errno (res_bind (res_bind_socket e)) <> 0 ->
      Z.of_nat
        (length (cstr "bind" ++ cstr ": "
                 ++ strerror (sys_errno (res_bind (res_bind_socket e)))))
      < BUFSIZE ->
      quit_message (cstr "bind") (sys_errno (res_bind (res_bind_socket e))) =
      cstr "bind" ++ cstr ": "
      ++ strerror (sys_errno (res_bind (res_bind_socket e)))).
Proof.
  intros Hp H1 H2 H3 H4.
  assert (Hmsg :
    sys_errno (res_bind (res_bind_socket e)) <> 0 ->
    Z.of_nat
      (length (cstr "bind" ++ cstr ": "
               ++ strerror (sys_errno (res_bind (res_bind_socket e)))))
    < BUFSIZE ->
    quit_message (cstr "bind") (sys_errno (res_bind (res_bind_socket e))) =
    cstr "bind" ++ cstr ": "
    ++ strerror (sys_errno (res_bind (res_bind_socket e)))).
  { intros He Hlen. unfold quit_message, snprintf.
    destruct (Z.eqb_spec (sys_errno (res_bind (res_bind_socket e))) 0);
      [contradiction |].
    apply firstn_all2. unfold BUFSIZE in *. lia. }
  unfold program, bind_socket.
  destruct (Z.eqb_spec (sys_ret (res_socket (res_bind_socket e))) (-1));
    [contradiction |].
  destruct (Z.eqb_spec (sys_ret (res_sndbuf (res_bind_socket e))) (-1));
    [contradiction |].
  destruct (Z.eqb_spec (sys_ret (res_rcvbuf (res_bind_socket e))) (-1));
    [contradiction |].
  rewrite H4. simpl. split; [reflexivity |]. split.
  - rewrite error_reply_eq by assumption. reflexivity.
  - exact Hmsg.
Qed.

End Watcher.

(** ** The properties on the sample inputs *)

(** The layout on the message "bad message family". *)
Lemma error_reply_appends_header_and_message_witness :
  0 < lp64
  /\ error_reply lp64 (cstr "bad message family") [7] =
     [7] ++ [255; Z.of_nat (length (cstr "bad message family")) mod 256]
     ++ cstr "bad message family"
  /\ length (error_reply lp64 (cstr "bad message family") [7]) =
     (length [7] + (2 + length (cstr "bad message family")))%nat.
Proof.
  split; [reflexivity |].
  apply (error_reply_appends_header_and_message lp64
           (cstr "bad message family") [7]).
  reflexivity.
Defined.

(** With 300 characters the length byte is 44, the low 8 bits of 300, and
    the record still carries all 300 characters. *)
Example error_reply_long_message :
  error_reply lp64 (repeat 65 300) [] = 255 :: 44 :: repeat 65 300.
Proof. vm_compute. reflexivity. Qed.

Local Notation "'notify_s'" :=
  (notify lp64 rta_max_sample rtprot_sample).
Local Notation "'read_routes_s'" :=
  (read_routes lp64 rta_max_sample rtprot_sample strerror_sample).
Local Notation "'main_s'" :=
  (main lp64 rta_max_sample rtprot_sample strerror_sample).
Local Notation "'event_iov_s'" := (event_iov lp64 rta_max_sample).
Local Notation "'mem_at' l" :=
  (mem_of_list buf_addr l) (at level 10, l at level 9).

(** *** Destination and gateway fields *)

(** C1, counterexample: the IPv4 route 192.168.1.0/24 is accepted, its
    family implies 4-byte addresses, and the destination field of its
    record has 3 bytes. *)
Lemma destination_field_of_a_24_bit_prefix :
  accepted lp64 rtprot_sample (mem_at ipv4_route_24) buf_addr = true
  /\ host_len (mem_at ipv4_route_24) buf_addr = 4
  /\ notify_s (mem_at ipv4_route_24) buf_addr stale_stack [] =
     [0; 24; 192; 168; 1; 0; 0; 0; 0; 0; 0; 0; 0]
  /\ field DST (event_iov_s (mem_at ipv4_route_24) buf_addr stale_stack) =
     [192; 168; 1]
  /\ Z.of_nat
       (length
          (field DST (event_iov_s (mem_at ipv4_route_24) buf_addr stale_stack)))
     <> host_len (mem_at ipv4_route_24) buf_addr.
Proof. vm_compute. repeat split; discriminate. Qed.

(** The widths on 192.168.1.0/24 (3 bytes) and on the IPv4 default route
    (no destination attribute, 4 bytes). *)
Lemma destination_field_follows_prefix_length_witness :
  (accepted lp64 rtprot_sample (mem_at ipv4_route_24) buf_addr = true
   /\ Z.of_nat
        (length
           (field DST
              (event_iov_s (mem_at ipv4_route_24) buf_addr stale_stack))) =
      (24 + 7) / 8)
  /\ (accepted lp64 rtprot_sample (mem_at ipv4_default_route) buf_addr = true
      /\ Z.of_nat
           (length
              (field DST
                 (event_iov_s (mem_at ipv4_default_route) buf_addr
                    stale_stack))) = 4).
Proof.
  split; (split; [reflexivity |]).
  - apply (destination_field_follows_prefix_length lp64 rta_max_sample
             rtprot_sample (mem_at ipv4_route_24) buf_addr stale_stack []).
    + reflexivity.
    + vm_compute. discriminate.
  - apply (destination_field_follows_prefix_length lp64 rta_max_sample
             rtprot_sample (mem_at ipv4_default_route) buf_addr
             stale_stack []).
    + reflexivity.
    + reflexivity.
    + reflexivity.
Defined.

(** C2, the code at the failing input: an IPv6 route without destination
    and gateway attributes is accepted, its family implies 16-byte
    addresses, and both fields of its record are 4 zero bytes. *)
Theorem ipv6_absent_addresses_are_four_bytes :
  accepted lp64 rtprot_sample (mem_at ipv6_default_route) buf_addr = true
  /\ host_len (mem_at ipv6_default_route) buf_addr = 16
  /\ slot (parsed_attrs lp64 rta_max_sample (mem_at ipv6_default_route)
             buf_addr stale_stack) RTA_DST = 0
  /\ slot (parsed_attrs lp64 rta_max_sample (mem_at ipv6_default_route)
             buf_addr stale_stack) RTA_GATEWAY = 0
  /\ field DST
       (event_iov_s (mem_at ipv6_default_route) buf_addr stale_stack) =
     [0; 0; 0; 0]
  /\ field GW
       (event_iov_s (mem_at ipv6_default_route) buf_addr stale_stack) =
     [0; 0; 0; 0]
  /\ notify_s (mem_at ipv6_default_route) buf_addr stale_stack [] =
     [0; 0; 0; 0; 0; 0; 0; 0; 0; 0; 0; 0; 4; 0].
Proof. vm_compute. repeat split. Qed.

(** *** The attribute table *)

(** C4, the code at the failing input: with 8-byte pointers [memset]
    covers 68 of the 136 bytes of a 17-slot table.  After parsing the
    attribute block of the route 192.168.1.0/24 the destination slot
    holds its attribute, but slot 15, of which the block has no
    attribute, still holds the stale pointer; with 4-byte pointers the
    same call leaves it NULL. *)
Theorem memset_leaves_stale_slots_with_8_byte_pointers :
  last_of_kind (mem_at ipv4_route_24) 15
    (attr_walk 12 (mem_at ipv4_route_24) (buf_addr + 28) 12) = None
  /\ slot (parse_attrs lp64 rta_max_sample (mem_at ipv4_route_24) stale_table
             (buf_addr + 28) 12) RTA_DST = buf_addr + 28
  /\ slot (parse_attrs lp64 rta_max_sample (mem_at ipv4_route_24) stale_table
             (buf_addr + 28) 12) 15 = stale_pointer
  /\ slot (parse_attrs ilp32 rta_max_sample (mem_at ipv4_route_24) stale_table
             (buf_addr + 28) 12) 15 = 0.
Proof. vm_compute. repeat split. Qed.

(** *** Messages that produce no route event *)

(** C5, counterexample: a link notification makes notify write 13 bytes. *)
Lemma link_notification_writes_an_error_record :
  is_route (mem_at newlink_message) buf_addr = false
  /\ notify_s (mem_at newlink_message) buf_addr stale_stack [] =
     error_record (cstr "not a route")
  /\ notify_s (mem_at newlink_message) buf_addr stale_stack [] <> [].
Proof. vm_compute. repeat split; discriminate. Qed.

(** The record of the link notification after two earlier bytes. *)
Lemma non_route_message_is_reported_witness :
  0 < lp64
  /\ is_route (mem_at newlink_message) buf_addr = false
  /\ notify_s (mem_at newlink_message) buf_addr stale_stack [1; 2] =
     [1; 2] ++ error_record (cstr "not a route")
  /\ length (notify_s (mem_at newlink_message) buf_addr stale_stack [1; 2]) =
     (length [1; 2] + 13)%nat.
Proof.
  split; [reflexivity |]. split; [reflexivity |].
  apply (non_route_message_is_reported lp64 rta_max_sample rtprot_sample
           (mem_at newlink_message) buf_addr stale_stack [1; 2]);
    reflexivity.
Defined.

(** C6, counterexample: a self-authored route message that declares 24
    bytes, too short for the route header but long enough to report its
    protocol, makes notify write the error record "wrong message
    length". *)
Lemma short_self_route_writes_an_error_record :
  is_route (mem_at short_self_route) buf_addr = true
  /\ suppressed rtprot_sample (mem_at short_self_route) buf_addr = true
  /\ notify_s (mem_at short_self_route) buf_addr stale_stack [] =
     error_record (cstr "wrong message length")
  /\ notify_s (mem_at short_self_route) buf_addr stale_stack [] <> [].
Proof. vm_compute. repeat split; discriminate. Qed.

(** The whole self-authored route (44 bytes) leaves the stream as it
    was; the one cut to 24 bytes appends the error record. *)
Lemma suppressed_route_writes_nothing_witness :
  (4 <= lp64
   /\ is_route (mem_at self_route) buf_addr = true
   /\ suppressed rtprot_sample (mem_at self_route) buf_addr = true
   /\ 32 <= nlmsg_len (mem_at self_route) buf_addr < 2 ^ 31
   /\ notify_s (mem_at self_route) buf_addr stale_stack [1; 2] = [1; 2])
  /\ (is_route (mem_at short_self_route) buf_addr = true
      /\ suppressed rtprot_sample (mem_at short_self_route) buf_addr = true
      /\ nlmsg_len (mem_at short_self_route) buf_addr < 28
      /\ notify_s (mem_at short_self_route) buf_addr stale_stack [1; 2] =
         [1; 2] ++ error_record (cstr "wrong message length")).
Proof.
  assert (Hp : 4 <= lp64) by (vm_compute; discriminate).
  assert (Hl : 32 <= nlmsg_len (mem_at self_route) buf_addr < 2 ^ 31)
    by (vm_compute; split; [discriminate | reflexivity]).
  assert (Hs : nlmsg_len (mem_at short_self_route) buf_addr < 28)
    by (vm_compute; reflexivity).
  split.
  - split; [exact Hp |]. split; [reflexivity |]. split; [reflexivity |].
    split; [exact Hl |].
    apply (suppressed_route_writes_nothing lp64 rta_max_sample rtprot_sample
             (mem_at self_route) buf_addr stale_stack [1; 2] Hp eq_refl
             eq_refl).
    exact Hl.
  - split; [reflexivity |]. split; [reflexivity |]. split; [exact Hs |].
    apply (suppressed_route_writes_nothing lp64 rta_max_sample rtprot_sample
             (mem_at short_self_route) buf_addr stale_stack [1; 2] Hp eq_refl
             eq_refl).
    exact Hs.
Defined.

(** The DECnet route: one error record, and the frame loop goes on
    behind the frame. *)
Lemma unknown_family_yields_one_error_record_witness :
  4 <= lp64
  /\ is_route (mem_at decnet_route) buf_addr = true
  /\ suppressed rtprot_sample (mem_at decnet_route) buf_addr = false
  /\ family_known (mem_at decnet_route) buf_addr = false
  /\ exists msg,
       (msg = cstr "wrong message length" \/ msg = cstr "bad message family")
       /\ (forall junk,
             notify_s (mem_at decnet_route) buf_addr junk [1; 2] =
             [1; 2] ++ error_record msg)
       /\ frames_loop lp64 rta_max_sample rtprot_sample strerror_sample
            8 decnet_batch stale_stacks 0 buf_addr 36 [1; 2] =
          frames_loop lp64 rta_max_sample rtprot_sample strerror_sample
            7 decnet_batch stale_stacks 1 (buf_addr + 36) 0
            ([1; 2] ++ error_record msg).
Proof.
  assert (Hp : 4 <= lp64) by (vm_compute; discriminate).
  assert (Hret : sizeof_nlmsghdr <= 36 < 2 ^ 31)
    by (vm_compute; split; [discriminate | reflexivity]).
  assert (Hlen : sizeof_nlmsghdr
                 <= to_int32 (nlmsg_len (mem_at decnet_route) buf_addr)
                 <= 36)
    by (vm_compute; split; discriminate).
  split; [exact Hp |]. split; [reflexivity |]. split; [reflexivity |].
  split; [reflexivity |].
  destruct (unknown_family_yields_one_error_record lp64 rta_max_sample
              rtprot_sample strerror_sample (mem_at decnet_route) buf_addr
              [1; 2] Hp eq_refl eq_refl eq_refl)
    as (msg & Hmsg & Hnotify & Hloop).
  exists msg. split; [exact Hmsg |]. split; [exact Hnotify |].
  exact (Hloop 7%nat decnet_batch stale_stacks 0%nat 36 eq_refl Hret Hlen).
Defined.

Example unknown_family_record :
  notify_s (mem_at decnet_route) buf_addr stale_stack [] =
  error_record (cstr "bad message family").
Proof. vm_compute. reflexivity. Qed.

(** *** Receiving *)

(** The three classes on EAGAIN, on error 111 and on a zero-length
    receive. *)
Lemma receive_errors_are_classified_witness :
  0 < lp64
  /\ read_routes_s 8 (recv_failed EAGAIN) stale_stacks [1; 2] = Return [1; 2]
  /\ read_routes_s 8 (recv_failed 111) stale_stacks [1; 2] =
     Exit 1 ([1; 2] ++ error_record (cstr "recvmsg: Unknown error"))
  /\ read_routes_s 8 recv_eof stale_stacks [1; 2] =
     Exit 1 ([1; 2] ++ error_record (cstr "recvmsg: EOF")).
Proof.
  assert (Hp : 0 < lp64) by reflexivity.
  split; [exact Hp |]. split; [| split].
  - apply (receive_errors_are_classified lp64 rta_max_sample rtprot_sample
             strerror_sample 8 (recv_failed EAGAIN) stale_stacks [1; 2] Hp).
    + reflexivity.
    + right. left. reflexivity.
  - apply (receive_errors_are_classified lp64 rta_max_sample rtprot_sample
             strerror_sample 8 (recv_failed 111) stale_stacks [1; 2] Hp).
    + reflexivity.
    + vm_compute. discriminate.
    + vm_compute. discriminate.
    + vm_compute. discriminate.
  - apply (receive_errors_are_classified lp64 rta_max_sample rtprot_sample
             strerror_sample 8 recv_eof stale_stacks [1; 2] Hp).
    reflexivity.
Defined.

(** C3, counterexample: a full buffer flagged as truncated whose third
    frame declares 60 bytes with 16 left.  The record of the first frame
    is written, then the error record, and the process exits with
    status 1; the attempt does not return. *)
Lemma truncated_frame_ends_the_process :
  msg_trunc truncated_batch = true
  /\ after_frames (rv_mem truncated_batch) buf_addr BUFSIZE
       complete_frames = Some (buf_addr + 8176, 16)
  /\ to_int32 (nlmsg_len (rv_mem truncated_batch) (buf_addr + 8176)) = 60
  /\ read_routes_s 8 truncated_batch stale_stacks [] =
     Exit 1 ([0; 24; 192; 168; 1; 0; 0; 0; 0; 0; 0; 0; 0]
             ++ error_record (cstr "truncated message"))
  /\ forall out, read_routes_s 8 truncated_batch stale_stacks [] <> Return out.
Proof.
  assert (H : read_routes_s 8 truncated_batch stale_stacks [] =
              Exit 1 ([0; 24; 192; 168; 1; 0; 0; 0; 0; 0; 0; 0; 0]
                      ++ error_record (cstr "truncated message")))
    by (vm_compute; reflexivity).
  split; [vm_compute; reflexivity |]. split; [vm_compute; reflexivity |].
  split; [vm_compute; reflexivity |]. split; [exact H |].
  intros out. rewrite H. discriminate.
Qed.

(** Both outcomes: 8 bytes left after the complete frames, and a header
    left that declares 60 bytes. *)
Lemma truncated_batch_outcome_witness :
  (msg_trunc truncated_batch_leftover = true
   /\ after_frames (rv_mem truncated_batch_leftover) buf_addr BUFSIZE
        complete_frames = Some (buf_addr + 8184, 8)
   /\ read_routes_s 8 truncated_batch_leftover stale_stacks [] =
      Return
        (dispatch_all lp64 rta_max_sample rtprot_sample
           (rv_mem truncated_batch_leftover) stale_stacks 0
           complete_frames []))
  /\ (msg_trunc truncated_batch = true
      /\ after_frames (rv_mem truncated_batch) buf_addr BUFSIZE
           complete_frames = Some (buf_addr + 8176, 16)
      /\ read_routes_s 8 truncated_batch stale_stacks [] =
         Exit 1
           (dispatch_all lp64 rta_max_sample rtprot_sample
              (rv_mem truncated_batch) stale_stacks 0
              complete_frames []
            ++ error_record
                 (quit_message strerror_sample (cstr "truncated message")
                    (rv_errno truncated_batch)))).
Proof.
  assert (Hp : 4 <= lp64) by (vm_compute; discriminate).
  assert (Hret : 0 < BUFSIZE <= BUFSIZE) by (vm_compute; split; congruence).
  assert (Hfuel : (length complete_frames < 8)%nat) by (simpl; lia).
  split.
  - assert (Ha : after_frames (rv_mem truncated_batch_leftover)
                   (rv_buf truncated_batch_leftover)
                   (rv_ret truncated_batch_leftover)
                   complete_frames = Some (buf_addr + 8184, 8))
      by (vm_compute; reflexivity).
    split; [reflexivity |]. split; [exact Ha |].
    apply (truncated_batch_outcome lp64 rta_max_sample rtprot_sample
             strerror_sample 8 truncated_batch_leftover stale_stacks []
             complete_frames (buf_addr + 8184) 8
             Hp Hret eq_refl eq_refl Ha Hfuel).
    vm_compute. split; [discriminate | reflexivity].
  - assert (Ha : after_frames (rv_mem truncated_batch)
                   (rv_buf truncated_batch) (rv_ret truncated_batch)
                   complete_frames = Some (buf_addr + 8176, 16))
      by (vm_compute; reflexivity).
    split; [reflexivity |]. split; [exact Ha |].
    apply (truncated_batch_outcome lp64 rta_max_sample rtprot_sample
             strerror_sample 8 truncated_batch stale_stacks []
             complete_frames (buf_addr + 8176) 16
             Hp Hret eq_refl eq_refl Ha Hfuel).
    vm_compute. split; [discriminate | reflexivity].
Defined.

(** *** The event loop *)

(** C9, counterexample: two executions in which the dump request is
    never sent.  In the first the parent has closed the control input
    when select first returns, with the socket writable: the process
    exits with status 0.  In the second select first returns for a poke
    on the control input alone, which clears the socket from the write
    set for good; the socket is writable at both later wake-ups. *)
Lemma executions_without_dump_request :
  main_s 8 [eof_at_start] =
    Halted 0 {| wset_sock := true; stdout := []; sock_ops := [] |}
  /\ dumps_sent (state_of (main_s 8 [eof_at_start])) <> 1%nat
  /\ main_s 8 [poke_only; socket_ready; socket_ready] =
     Running {| wset_sock := false; stdout := [];
                sock_ops := [Recvmsg; Recvmsg] |}
  /\ dumps_sent (state_of (main_s 8 [poke_only; socket_ready; socket_ready]))
     <> 1%nat.
Proof. vm_compute. repeat split; discriminate. Qed.

(** An execution that starts with the socket ready: one dump request,
    directly followed by a receive attempt. *)
Example execution_with_dump_request :
  sock_ops (state_of (main_s 8 [socket_ready; socket_ready])) =
  [Send dump_request; Recvmsg; Recvmsg; Recvmsg].
Proof. vm_compute. reflexivity. Qed.

(** ** Further properties on the sample inputs *)

(** *** The attribute parser *)

(** The second destination attribute of the route with two of them. *)
Lemma visited_attributes_lie_inside_the_block_witness :
  20 < 2 ^ 31
  /\ In (buf_addr + 36)
       (attr_walk (Z.to_nat 20) (mem_at twice_dst_route) (buf_addr + 28) 20)
  /\ (buf_addr + 28 <= buf_addr + 36
      /\ (buf_addr + 36 - (buf_addr + 28)) mod 4 = 0
      /\ sizeof_rtattr <= rta_len (mem_at twice_dst_route) (buf_addr + 36)
      /\ buf_addr + 36 + rta_len (mem_at twice_dst_route) (buf_addr + 36)
         <= buf_addr + 28 + 20).
Proof.
  assert (Hin : In (buf_addr + 36)
                  (attr_walk (Z.to_nat 20) (mem_at twice_dst_route)
                     (buf_addr + 28) 20))
    by (vm_compute; right; left; reflexivity).
  split; [reflexivity |]. split; [exact Hin |].
  apply (visited_attributes_lie_inside_the_block (mem_at twice_dst_route)
           (buf_addr + 28) 20 (buf_addr + 36) eq_refl Hin).
Defined.

(** The block of 20 bytes of the same route. *)
Lemma attribute_loop_terminates_witness :
  20 < 2 ^ 31
  /\ 4 * Z.of_nat
           (length (attr_walk 100 (mem_at twice_dst_route) (buf_addr + 28) 20))
     <= Z.max 0 (20 + 3)
  /\ parse_loop rta_max_sample 100 (mem_at twice_dst_route)
       (memset_table lp64 (sizeof_rtattr * (rta_max_sample + 1)) stale_table)
       (buf_addr + 28) 20 =
     parse_attrs lp64 rta_max_sample (mem_at twice_dst_route) stale_table
       (buf_addr + 28) 20.
Proof.
  split; [reflexivity |].
  destruct (attribute_loop_terminates lp64 rta_max_sample
              (mem_at twice_dst_route) (buf_addr + 28) 20 eq_refl)
    as [Hcount Hfuel].
  split; [apply Hcount |]. apply Hfuel. vm_compute. lia.
Defined.

(** Of the two destination attributes the second is in the table. *)
Lemma last_attribute_of_a_kind_wins_witness :
  rta_type (mem_at twice_dst_route) (buf_addr + 36) <= rta_max_sample
  /\ attr_walk (Z.to_nat 20) (mem_at twice_dst_route) (buf_addr + 28) 20 =
     [buf_addr + 28] ++ (buf_addr + 36) :: []
  /\ slot (parse_attrs lp64 rta_max_sample (mem_at twice_dst_route)
             stale_table (buf_addr + 28) 20)
       (rta_type (mem_at twice_dst_route) (buf_addr + 36)) = buf_addr + 36.
Proof.
  assert (Hk : rta_type (mem_at twice_dst_route) (buf_addr + 36)
               <= rta_max_sample) by (vm_compute; discriminate).
  assert (Hw : attr_walk (Z.to_nat 20) (mem_at twice_dst_route)
                 (buf_addr + 28) 20 =
               [buf_addr + 28] ++ (buf_addr + 36) :: [])
    by (vm_compute; reflexivity).
  split; [exact Hk |]. split; [exact Hw |].
  apply (last_attribute_of_a_kind_wins lp64 rta_max_sample
           (mem_at twice_dst_route) stale_table (buf_addr + 28) 20
           [buf_addr + 28] (buf_addr + 36) [] Hk eq_refl Hw).
  intros b [].
Defined.

(** Kinds 2 and 15 on the block of 192.168.1.0/24: slot 2 is reached by
    memset, slot 15 is not. *)
Lemma slot_of_an_absent_kind_witness :
  0 < lp64
  /\ slot (parse_attrs lp64 rta_max_sample (mem_at ipv4_route_24) stale_table
             (buf_addr + 28) 12) 2 = 0
  /\ slot (parse_attrs lp64 rta_max_sample (mem_at ipv4_route_24) stale_table
             (buf_addr + 28) 12) 15 = slot stale_table 15.
Proof.
  assert (Hp : 0 < lp64) by reflexivity.
  assert (Hno : forall k, k <> 1 ->
    forall b,
      In b (attr_walk (Z.to_nat 12) (mem_at ipv4_route_24) (buf_addr + 28) 12)
      -> rta_type (mem_at ipv4_route_24) b <> k).
  { intros k Hk b Hb. vm_compute in Hb. destruct Hb as [<- | []].
    vm_compute. intros E. apply Hk. symmetry. exact E. }
  split; [exact Hp |]. split.
  - apply (slot_of_an_absent_kind lp64 rta_max_sample (mem_at ipv4_route_24)
             stale_table (buf_addr + 28) 12 2 Hp).
    + vm_compute. split; discriminate.
    + reflexivity.
    + apply Hno. discriminate.
    + vm_compute. discriminate.
  - apply (slot_of_an_absent_kind lp64 rta_max_sample (mem_at ipv4_route_24)
             stale_table (buf_addr + 28) 12 15 Hp).
    + vm_compute. split; discriminate.
    + reflexivity.
    + apply Hno. discriminate.
    + vm_compute. discriminate.
Defined.

(** The block with kinds 200 and 300. *)
Lemma unknown_kinds_store_nothing_witness :
  attr_walk (Z.to_nat 16) (mem_at unknown_attr_block) buf_addr 16 =
    [buf_addr; buf_addr + 8]
  /\ parse_attrs lp64 rta_max_sample (mem_at unknown_attr_block) stale_table
       buf_addr 16 =
     memset_table lp64 (sizeof_rtattr * (rta_max_sample + 1)) stale_table.
Proof.
  split; [vm_compute; reflexivity |].
  apply (unknown_kinds_store_nothing lp64 rta_max_sample
           (mem_at unknown_attr_block) stale_table buf_addr 16).
  intros b Hb. vm_compute in Hb.
  destruct Hb as [<- | [<- | []]]; vm_compute; reflexivity.
Defined.

(** *** notify *)

(** The route 192.168.1.0/24 with a table of stale pointers and with a
    table of NULL pointers: the same record when both calls find the
    stored priority, the same first four vectors when one of them finds
    an older word in its place. *)
Lemma notify_ignores_stale_table_witness :
  0 < lp64
  /\ RTA_PRIORITY <= rta_max_sample
  /\ (RTA_PRIORITY + 1) * lp64 <= sizeof_rtattr * (rta_max_sample + 1)
  /\ notify_s (mem_at ipv4_route_24) buf_addr stale_stack [] =
     notify_s (mem_at ipv4_route_24) buf_addr null_stack []
  /\ field DST (event_iov_s (mem_at ipv4_route_24) buf_addr garbled_stack) =
     field DST (event_iov_s (mem_at ipv4_route_24) buf_addr null_stack).
Proof.
  assert (Hp : 0 < lp64) by reflexivity.
  assert (Hm : RTA_PRIORITY <= rta_max_sample) by (vm_compute; discriminate).
  assert (Hc : (RTA_PRIORITY + 1) * lp64
               <= sizeof_rtattr * (rta_max_sample + 1))
    by (vm_compute; discriminate).
  split; [exact Hp |]. split; [exact Hm |]. split; [exact Hc |]. split.
  - apply (notify_ignores_stale_table lp64 rta_max_sample rtprot_sample
             (mem_at ipv4_route_24) buf_addr stale_stack null_stack []
             Hp Hm Hc eq_refl eq_refl).
    reflexivity.
  - apply (notify_ignores_stale_table lp64 rta_max_sample rtprot_sample
             (mem_at ipv4_route_24) buf_addr garbled_stack null_stack []
             Hp Hm Hc eq_refl eq_refl).
    unfold DST, PRIO. lia.
Defined.

(** The destination attribute of 192.168.1.0/24 ends 4 bytes before the
    end of the message; the attribute behind it is not in the table. *)
Lemma used_attributes_end_four_bytes_early_witness :
  slot (parsed_attrs lp64 rta_max_sample (mem_at ipv4_route_24) buf_addr
          stale_stack) RTA_DST <> 0
  /\ (rta_type (mem_at ipv4_route_24)
        (slot (parsed_attrs lp64 rta_max_sample (mem_at ipv4_route_24)
                 buf_addr stale_stack) RTA_DST) = RTA_DST
      /\ buf_addr + 28
         <= slot (parsed_attrs lp64 rta_max_sample (mem_at ipv4_route_24)
                    buf_addr stale_stack) RTA_DST
      /\ slot (parsed_attrs lp64 rta_max_sample (mem_at ipv4_route_24)
                 buf_addr stale_stack) RTA_DST
         + rta_len (mem_at ipv4_route_24)
             (slot (parsed_attrs lp64 rta_max_sample (mem_at ipv4_route_24)
                      buf_addr stale_stack) RTA_DST)
         <= buf_addr + nlmsg_len (mem_at ipv4_route_24) buf_addr - 4).
Proof.
  assert (Hs : slot (parsed_attrs lp64 rta_max_sample (mem_at ipv4_route_24)
                       buf_addr stale_stack) RTA_DST <> 0)
    by (vm_compute; discriminate).
  split; [exact Hs |].
  apply (used_attributes_end_four_bytes_early lp64 rta_max_sample
           (mem_at ipv4_route_24) buf_addr stale_stack RTA_DST).
  - vm_compute. discriminate.
  - vm_compute. split; [discriminate | reflexivity].
  - vm_compute. split; discriminate.
  - vm_compute. discriminate.
  - reflexivity.
  - exact Hs.
Defined.

Example last_attribute_of_the_message_is_dropped :
  slot (parsed_attrs lp64 rta_max_sample (mem_at ipv4_route_24) buf_addr
          stale_stack) RTA_OIF = 0.
Proof. vm_compute. reflexivity. Qed.

(** The record of 192.168.1.0/24. *)
Lemma route_record_shape_witness :
  accepted lp64 rtprot_sample (mem_at ipv4_route_24) buf_addr = true
  /\ exists dst gw prio,
       notify_s (mem_at ipv4_route_24) buf_addr stale_stack [7] =
       [7] ++ 0 :: 24 :: dst ++ gw ++ prio
       /\ (length dst <= 32)%nat
       /\ (length gw = 4%nat \/ length gw = 16%nat)
       /\ length prio = 4%nat.
Proof.
  split; [reflexivity |].
  destruct (route_record_shape lp64 rta_max_sample rtprot_sample
              (mem_at ipv4_route_24) buf_addr stale_stack [7] eq_refl)
    as (dst & gw & prio & Hn & _ & Hd & Hg & Hp & _).
  exists dst, gw, prio. split; [exact Hn |]. split; [exact Hd |].
  split; [exact Hg | exact Hp].
Defined.

(** The priority 1024 of the IPv6 route, and the route without one:
    the bytes stored, and the field when the store is still there. *)
Lemma priority_field_is_big_endian_witness :
  (slot (parsed_attrs lp64 rta_max_sample (mem_at ipv6_default_route)
           buf_addr stale_stack) RTA_PRIORITY <> 0
   /\ le_bytes 4
        (prio_stored (mem_at ipv6_default_route)
           (parsed_attrs lp64 rta_max_sample (mem_at ipv6_default_route)
              buf_addr stale_stack))
      = rev (read_bytes (mem_at ipv6_default_route)
               (RTA_DATA
                  (slot (parsed_attrs lp64 rta_max_sample
                           (mem_at ipv6_default_route) buf_addr stale_stack)
                     RTA_PRIORITY)) 4)
   /\ be_value
        (le_bytes 4
           (prio_stored (mem_at ipv6_default_route)
              (parsed_attrs lp64 rta_max_sample (mem_at ipv6_default_route)
                 buf_addr stale_stack))) =
      load32 (mem_at ipv6_default_route)
        (RTA_DATA
           (slot (parsed_attrs lp64 rta_max_sample
                    (mem_at ipv6_default_route) buf_addr stale_stack)
              RTA_PRIORITY)))
  /\ (slot (parsed_attrs lp64 rta_max_sample (mem_at ipv4_route_24)
              buf_addr stale_stack) RTA_PRIORITY = 0
      /\ le_bytes 4
           (prio_stored (mem_at ipv4_route_24)
              (parsed_attrs lp64 rta_max_sample (mem_at ipv4_route_24)
                 buf_addr stale_stack))
         = [0; 0; 0; 0])
  /\ (stale_prio stale_stack = None
      /\ be_value
           (field PRIO
              (event_iov_s (mem_at ipv6_default_route) buf_addr stale_stack))
         = load32 (mem_at ipv6_default_route)
             (RTA_DATA
                (slot (parsed_attrs lp64 rta_max_sample
                         (mem_at ipv6_default_route) buf_addr stale_stack)
                   RTA_PRIORITY))
      /\ field PRIO (event_iov_s (mem_at ipv4_route_24) buf_addr stale_stack)
         = [0; 0; 0; 0]).
Proof.
  destruct (priority_field_is_big_endian lp64 rta_max_sample
              (mem_at ipv6_default_route) buf_addr stale_stack)
    as (_ & H6 & _ & H6n).
  destruct (priority_field_is_big_endian lp64 rta_max_sample
              (mem_at ipv4_route_24) buf_addr stale_stack)
    as (_ & _ & H4 & H4n).
  assert (Hs6 : slot (parsed_attrs lp64 rta_max_sample
                        (mem_at ipv6_default_route) buf_addr stale_stack)
                  RTA_PRIORITY <> 0) by (vm_compute; discriminate).
  assert (Hs4 : slot (parsed_attrs lp64 rta_max_sample
                        (mem_at ipv4_route_24) buf_addr stale_stack)
                  RTA_PRIORITY = 0) by (vm_compute; reflexivity).
  split; [| split].
  - split; [exact Hs6 | exact (H6 Hs6)].
  - split; [exact Hs4 | exact (H4 Hs4)].
  - split; [reflexivity |].
    split; [exact (proj1 (H6n eq_refl) Hs6) | exact (proj2 (H4n eq_refl) Hs4)].
Defined.

(** The priority 1024 in the record of an unoptimised build, and the
    record when the four bytes hold the older word 0xdeadbeef. *)
Example priority_1024_on_the_wire :
  field PRIO (event_iov_s (mem_at ipv6_default_route) buf_addr stale_stack) =
    [0; 0; 4; 0]
  /\ be_value [0; 0; 4; 0] = 1024
  /\ notify_s (mem_at ipv6_default_route) buf_addr garbled_stack [] =
     [0; 0; 0; 0; 0; 0; 0; 0; 0; 0; 239; 190; 173; 222].
Proof. vm_compute. repeat split; reflexivity. Qed.

(** *** Framing *)

(** A route and the terminator: one record; the terminator alone:
    nothing. *)
Lemma complete_batch_is_dispatched_witness :
  (after_frames (rv_mem add_and_done_batch) buf_addr 64 complete_frames =
     Some (buf_addr + 64, 0)
   /\ read_routes_s 8 add_and_done_batch stale_stacks [] =
      Return (dispatch_all lp64 rta_max_sample rtprot_sample
                (rv_mem add_and_done_batch) stale_stacks 0 complete_frames []))
  /\ (after_frames (rv_mem done_batch) buf_addr 20 [buf_addr] =
        Some (buf_addr + 20, 0)
      /\ read_routes_s 8 done_batch stale_stacks [9] = Return [9]).
Proof.
  assert (Hp : 4 <= lp64) by (vm_compute; discriminate).
  split.
  - assert (Ha : after_frames (rv_mem add_and_done_batch)
                   (rv_buf add_and_done_batch) (rv_ret add_and_done_batch)
                   complete_frames = Some (buf_addr + 64, 0))
      by (vm_compute; reflexivity).
    split; [exact Ha |].
    apply (complete_batch_is_dispatched lp64 rta_max_sample rtprot_sample
             strerror_sample 8 add_and_done_batch stale_stacks []
             complete_frames (buf_addr + 64) Hp).
    + vm_compute. split; [reflexivity | discriminate].
    + reflexivity.
    + exact Ha.
    + simpl. lia.
  - assert (Ha : after_frames (rv_mem done_batch) (rv_buf done_batch)
                   (rv_ret done_batch) [buf_addr] = Some (buf_addr + 20, 0))
      by (vm_compute; reflexivity).
    split; [exact Ha |].
    apply (complete_batch_is_dispatched lp64 rta_max_sample rtprot_sample
             strerror_sample 8 done_batch stale_stacks [9]
             [buf_addr] (buf_addr + 20) Hp).
    + vm_compute. split; [reflexivity | discriminate].
    + reflexivity.
    + exact Ha.
    + simpl. lia.
    + intros f [<- | []]. vm_compute. reflexivity.
Defined.

Example route_and_terminator_give_one_record :
  read_routes_s 8 add_and_done_batch stale_stacks [] =
  Return [0; 24; 192; 168; 1; 0; 0; 0; 0; 0; 0; 0; 0].
Proof. vm_compute. reflexivity. Qed.

(** A route followed by 8 stray bytes. *)
Lemma leftover_bytes_are_fatal_witness :
  msg_trunc leftover_batch = false
  /\ after_frames (rv_mem leftover_batch) buf_addr 52 [buf_addr] =
     Some (buf_addr + 44, 8)
  /\ read_routes_s 8 leftover_batch stale_stacks [] =
     Exit 1 (dispatch_all lp64 rta_max_sample rtprot_sample
               (rv_mem leftover_batch) stale_stacks 0 [buf_addr] []
             ++ error_record
                  (quit_message strerror_sample
                     (cstr "unexpected remaining bytes")
                     (rv_errno leftover_batch))).
Proof.
  assert (Hp : 4 <= lp64) by (vm_compute; discriminate).
  assert (Ha : after_frames (rv_mem leftover_batch) (rv_buf leftover_batch)
                 (rv_ret leftover_batch) [buf_addr] = Some (buf_addr + 44, 8))
    by (vm_compute; reflexivity).
  split; [reflexivity |]. split; [exact Ha |].
  apply (leftover_bytes_are_fatal lp64 rta_max_sample rtprot_sample
           strerror_sample 8 leftover_batch stale_stacks []
           [buf_addr] (buf_addr + 44) 8 Hp).
  - vm_compute. split; [reflexivity | discriminate].
  - reflexivity.
  - reflexivity.
  - exact Ha.
  - simpl. lia.
  - vm_compute. split; reflexivity.
Defined.

(** A route followed by a header that declares 60 bytes with 16 left, in
    a receive that was not flagged as truncated. *)
Lemma bad_declared_length_is_fatal_witness :
  after_frames (rv_mem malformed_batch) buf_addr 60 [buf_addr] =
    Some (buf_addr + 44, 16)
  /\ 16 < to_int32 (nlmsg_len (rv_mem malformed_batch) (buf_addr + 44))
  /\ read_routes_s 8 malformed_batch stale_stacks [] =
     Exit 1 (dispatch_all lp64 rta_max_sample rtprot_sample
               (rv_mem malformed_batch) stale_stacks 0 [buf_addr] []
             ++ error_record
                  (quit_message strerror_sample
                     (if msg_trunc malformed_batch
                      then cstr "truncated message"
                      else cstr "malformed message")
                     (rv_errno malformed_batch))).
Proof.
  assert (Hp : 4 <= lp64) by (vm_compute; discriminate).
  assert (Ha : after_frames (rv_mem malformed_batch) (rv_buf malformed_batch)
                 (rv_ret malformed_batch) [buf_addr] =
               Some (buf_addr + 44, 16))
    by (vm_compute; reflexivity).
  assert (Hl : 16 < to_int32 (nlmsg_len (rv_mem malformed_batch)
                                (buf_addr + 44)))
    by (vm_compute; reflexivity).
  split; [exact Ha |]. split; [exact Hl |].
  apply (bad_declared_length_is_fatal lp64 rta_max_sample rtprot_sample
           strerror_sample 8 malformed_batch stale_stacks []
           [buf_addr] (buf_addr + 44) 16 Hp).
  - vm_compute. split; [reflexivity | discriminate].
  - reflexivity.
  - exact Ha.
  - simpl. lia.
  - vm_compute. discriminate.
  - right. exact Hl.
Defined.

Example untruncated_cut_frame_is_malformed :
  read_routes_s 8 malformed_batch stale_stacks [] =
  Exit 1 ([0; 24; 192; 168; 1; 0; 0; 0; 0; 0; 0; 0; 0]
          ++ error_record (cstr "malformed message")).
Proof. vm_compute. reflexivity. Qed.

(** A batch whose sender address has 8 bytes. *)
Lemma wrong_sender_address_length_is_fatal_witness :
  rv_namelen short_address_batch <> sizeof_sockaddr_nl
  /\ read_routes_s 8 short_address_batch stale_stacks [] =
     Exit 1 ([] ++ error_record
                     (quit_message strerror_sample
                        (cstr "bad message namelen")
                        (rv_errno short_address_batch))).
Proof.
  assert (Hn : rv_namelen short_address_batch <> sizeof_sockaddr_nl)
    by (vm_compute; discriminate).
  split; [exact Hn |].
  apply (wrong_sender_address_length_is_fatal lp64 rta_max_sample
           rtprot_sample strerror_sample 8 short_address_batch stale_stacks
           []).
  - reflexivity.
  - vm_compute. split; [reflexivity | discriminate].
  - exact Hn.
Defined.

(** A header that declares 2^31 bytes. *)
Lemma huge_declared_length_is_dispatched_witness :
  2 ^ 31 <= nlmsg_len (rv_mem huge_length_batch) buf_addr
  /\ to_int32 (nlmsg_len (rv_mem huge_length_batch) buf_addr) < 0
  /\ frames_loop lp64 rta_max_sample rtprot_sample strerror_sample 8
       huge_length_batch stale_stacks 0 buf_addr 16 [] =
     frames_loop lp64 rta_max_sample rtprot_sample strerror_sample 7
       huge_length_batch stale_stacks 1
       (buf_addr
        + NLMSG_ALIGN (to_int32 (nlmsg_len (rv_mem huge_length_batch)
                                   buf_addr)))
       (to_int32
          (to_uint32 16
           - NLMSG_ALIGN (to_int32 (nlmsg_len (rv_mem huge_length_batch)
                                      buf_addr))))
       (if negb (nlmsg_type (rv_mem huge_length_batch) buf_addr
                 =? NLMSG_DONE)
        then notify_s (rv_mem huge_length_batch) buf_addr (stale_stacks 0%nat)
               []
        else []).
Proof.
  assert (Hl : 2 ^ 31 <= nlmsg_len (rv_mem huge_length_batch) buf_addr)
    by (vm_compute; discriminate).
  split; [exact Hl |].
  apply (huge_declared_length_is_dispatched lp64 rta_max_sample rtprot_sample
           strerror_sample 7 huge_length_batch stale_stacks 0 buf_addr 16 []).
  - vm_compute. discriminate.
  - vm_compute. split; [discriminate | reflexivity].
  - exact Hl.
Defined.

(** A frame of 17 bytes that fills the 17 received bytes. *)
Lemma unpadded_last_frame_is_fatal_witness :
  after_frames (rv_mem unpadded_batch) buf_addr 17 [buf_addr] =
    Some (buf_addr + 20, -3)
  /\ read_routes_s 8 unpadded_batch stale_stacks [] =
     Exit 1 (dispatch_all lp64 rta_max_sample rtprot_sample
               (rv_mem unpadded_batch) stale_stacks 0 [buf_addr] []
             ++ error_record
                  (quit_message strerror_sample
                     (if msg_trunc unpadded_batch
                      then cstr "truncated message"
                      else cstr "malformed message")
                     (rv_errno unpadded_batch))).
Proof.
  assert (Hp : 4 <= lp64) by (vm_compute; discriminate).
  assert (Ha : after_frames (rv_mem unpadded_batch) (rv_buf unpadded_batch)
                 (rv_ret unpadded_batch) [buf_addr] =
               Some (buf_addr + 20, -3))
    by (vm_compute; reflexivity).
  split; [exact Ha |].
  apply (unpadded_last_frame_is_fatal lp64 rta_max_sample rtprot_sample
           strerror_sample 8 unpadded_batch stale_stacks []
           [buf_addr] (buf_addr + 20) (-3) Hp).
  - vm_compute. split; [reflexivity | discriminate].
  - reflexivity.
  - exact Ha.
  - simpl. lia.
  - reflexivity.
  - vm_compute. discriminate.
Defined.

Example unpadded_frame_on_the_wire :
  read_routes_s 8 unpadded_batch stale_stacks [] =
  Exit 1 (error_record (cstr "malformed message")).
Proof. vm_compute. reflexivity. Qed.

(** The malformed batch keeps the loop at the buffer and ends in an
    exit behind the record of its first frame and an error record; the
    batch whose header declares 2^31 bytes is not of that kind. *)
Lemma read_routes_exits_behind_an_error_record_witness :
  4 <= lp64
  /\ used_slots_cleared lp64 rta_max_sample = true
  /\ BUFSIZE < 16 * Z.of_nat 513
  /\ receive_in_range lp64 513 malformed_batch = true
  /\ read_routes_s 513 malformed_batch stale_stacks [7] =
     Exit 1 ([7; 0; 24; 192; 168; 1; 0; 0; 0; 0; 0; 0; 0; 0]
             ++ error_record (cstr "malformed message"))
  /\ exists mid,
       read_routes_s 513 malformed_batch stale_stacks [7] =
       Return ([7] ++ mid)
       \/ exists msg,
            read_routes_s 513 malformed_batch stale_stacks [7] =
            Exit 1 ([7] ++ mid ++ error_record msg).
Proof.
  assert (Hp : 4 <= lp64) by (vm_compute; discriminate).
  assert (Hf : BUFSIZE < 16 * Z.of_nat 513) by (vm_compute; reflexivity).
  assert (Hin : receive_in_range lp64 513 malformed_batch = true)
    by (vm_compute; reflexivity).
  split; [exact Hp |]. split; [reflexivity |]. split; [exact Hf |].
  split; [exact Hin |]. split; [vm_compute; reflexivity |].
  apply (read_routes_exits_behind_an_error_record lp64 rta_max_sample
           rtprot_sample strerror_sample 513 malformed_batch stale_stacks [7]
           Hp eq_refl Hf Hin).
Defined.

Example huge_length_is_out_of_range :
  receive_in_range lp64 513 huge_length_batch = false.
Proof. lazy. reflexivity. Qed.

(** *** The event loop and the set-up *)

Local Notation "'iteration_s'" :=
  (iteration lp64 rta_max_sample rtprot_sample strerror_sample).
Local Notation "'program_s'" :=
  (program lp64 rta_max_sample rtprot_sample strerror_sample).

(** The socket ready with nothing to receive, then an interrupted
    select. *)
Lemma exit_status_and_last_record_witness :
  4 <= lp64
  /\ used_slots_cleared lp64 rta_max_sample = true
  /\ BUFSIZE < 16 * Z.of_nat 513
  /\ forallb (wakeup_in_range lp64 513) [socket_ready; select_interrupted] =
     true
  /\ event_loop lp64 rta_max_sample rtprot_sample strerror_sample 513
       [socket_ready; select_interrupted] initial_state =
     Halted 1 {| wset_sock := false;
                 stdout := error_record (cstr "select: Unknown error");
                 sock_ops := [Send dump_request; Recvmsg; Recvmsg] |}
  /\ ((exists st',
         event_loop lp64 rta_max_sample rtprot_sample strerror_sample 513
           [socket_ready; select_interrupted] initial_state = Running st')
      \/ (exists st',
            event_loop lp64 rta_max_sample rtprot_sample strerror_sample 513
              [socket_ready; select_interrupted] initial_state = Halted 0 st')
      \/ (exists st' pre msg,
            event_loop lp64 rta_max_sample rtprot_sample strerror_sample 513
              [socket_ready; select_interrupted] initial_state = Halted 1 st'
            /\ stdout st' = pre ++ error_record msg)).
Proof.
  assert (Hp : 4 <= lp64) by (vm_compute; discriminate).
  assert (Hf : BUFSIZE < 16 * Z.of_nat 513) by (vm_compute; reflexivity).
  assert (Hin : forallb (wakeup_in_range lp64 513)
                  [socket_ready; select_interrupted] = true)
    by (vm_compute; reflexivity).
  split; [exact Hp |]. split; [reflexivity |]. split; [exact Hf |].
  split; [exact Hin |]. split; [vm_compute; reflexivity |].
  apply (exit_status_and_last_record lp64 rta_max_sample rtprot_sample
           strerror_sample 513 [socket_ready; select_interrupted]
           Hp eq_refl Hf Hin initial_state).
Defined.

(** The parent closes the control input while the socket is ready. *)
Lemma control_input_eof_exits_at_once_witness :
  sel_res eof_at_start <> -1
  /\ exists st',
       iteration_s 8 eof_at_start disarmed_state = Halted 0 st'
       /\ stdout st' = stdout disarmed_state
       /\ sock_ops st' = sock_ops disarmed_state.
Proof.
  assert (Hs : sel_res eof_at_start <> -1) by (vm_compute; discriminate).
  split; [exact Hs |].
  apply (control_input_eof_exits_at_once lp64 rta_max_sample rtprot_sample
           strerror_sample 8 eof_at_start disarmed_state Hs eq_refl eq_refl).
Defined.

(** select interrupted by a signal; the read on the control input
    failing with EIO. *)
Lemma select_and_read_failures_are_fatal_witness :
  (exists st',
     iteration_s 8 select_interrupted disarmed_state = Halted 1 st'
     /\ stdout st' =
        stdout disarmed_state
        ++ error_record
             (quit_message strerror_sample (cstr "select")
                (sel_errno select_interrupted))
     /\ sock_ops st' = sock_ops disarmed_state)
  /\ (exists st',
        iteration_s 8 stdin_failed disarmed_state = Halted 1 st'
        /\ stdout st' =
           stdout disarmed_state
           ++ error_record
                (quit_message strerror_sample (cstr "read")
                   (stdin_errno stdin_failed))
        /\ sock_ops st' = sock_ops disarmed_state).
Proof.
  assert (Hp : 0 < lp64) by reflexivity.
  split.
  - apply (select_and_read_failures_are_fatal lp64 rta_max_sample
             rtprot_sample strerror_sample 8 select_interrupted
             disarmed_state Hp).
    reflexivity.
  - apply (select_and_read_failures_are_fatal lp64 rta_max_sample
             rtprot_sample strerror_sample 8 stdin_failed disarmed_state Hp).
    + vm_compute. discriminate.
    + reflexivity.
    + reflexivity.
    + vm_compute. discriminate.
Defined.

(** A poke after the dump request. *)
Lemma control_input_poke_changes_nothing_witness :
  wset_sock disarmed_state = false
  /\ sel_res poke_only <> -1
  /\ stdin_passes poke_only = true
  /\ iteration_s 8 poke_only disarmed_state = Running disarmed_state.
Proof.
  assert (Hs : sel_res poke_only <> -1) by (vm_compute; discriminate).
  split; [reflexivity |]. split; [exact Hs |]. split; [reflexivity |].
  apply (control_input_poke_changes_nothing lp64 rta_max_sample rtprot_sample
           strerror_sample 8 poke_only disarmed_state eq_refl Hs eq_refl
           eq_refl).
Defined.

(** Flags O_RDWR (2) on descriptor 3. *)
Lemma set_nonblock_adds_one_flag_witness :
  exists arg,
    set_nonblock lp64 strerror_sample 3 (call_ok 2) (call_ok 0) [] =
      Went tt [CallFcntl 3 F_GETFL 0; CallFcntl 3 F_SETFL arg]
    /\ Z.land arg O_NONBLOCK = O_NONBLOCK
    /\ Z.land arg 2 = 2.
Proof.
  destruct (set_nonblock_adds_one_flag lp64 strerror_sample 3 (call_ok 2)
              (call_ok 0) [])
    as (arg & Hw & Hn & Hk & _).
  - vm_compute. discriminate.
  - vm_compute. discriminate.
  - exists arg. split; [exact Hw |]. split; [exact Hn | exact Hk].
Defined.

(** Setting the receive buffer fails; every call succeeds. *)
Lemma failed_setup_never_enters_the_loop_witness :
  (setup_ok setup_rcvbuf_fails = false
   /\ exists msg,
        run_result (program_s setup_rcvbuf_fails 8 [socket_ready]) =
        Halted 1 {| wset_sock := false; stdout := error_record msg;
                    sock_ops := [] |})
  /\ (setup_ok setup_succeeds = true
      /\ run_result (program_s setup_succeeds 8 [socket_ready]) =
         main_s 8 [socket_ready]
      /\ length (run_calls (program_s setup_succeeds 8 [socket_ready])) =
         8%nat).
Proof.
  assert (Hp : 0 < lp64) by reflexivity.
  split.
  - split; [reflexivity |].
    apply (failed_setup_never_enters_the_loop lp64 rta_max_sample
             rtprot_sample strerror_sample setup_rcvbuf_fails 8
             [socket_ready] Hp).
    reflexivity.
  - split; [reflexivity |].
    apply (failed_setup_never_enters_the_loop lp64 rta_max_sample
             rtprot_sample strerror_sample setup_succeeds 8
             [socket_ready] Hp).
    reflexivity.
Defined.

(** bind fails with error 13. *)
Lemma bind_failure_is_reported_witness :
  run_calls (program_s setup_bind_fails 8 [socket_ready]) =
    [ CallSocket PF_NETLINK SOCK_RAW NETLINK_ROUTE;
      CallSetsockopt 3 SOL_SOCKET SO_SNDBUF 32768;
      CallSetsockopt 3 SOL_SOCKET SO_RCVBUF 1048576;
      CallBind 3 AF_NETLINK 0 1361 ]
  /\ run_result (program_s setup_bind_fails 8 [socket_ready]) =
     Halted 1
       {| wset_sock := false;
          stdout := error_record (quit_message strerror_sample
                                    (cstr "bind") 13);
          sock_ops := [] |}
  /\ quit_message strerror_sample (cstr "bind") 13 =
     cstr "bind" ++ cstr ": " ++ strerror_sample 13.
Proof.
  destruct (bind_failure_is_reported lp64 rta_max_sample rtprot_sample
              strerror_sample setup_bind_fails 8 [socket_ready])
    as (Hc & Hr & Hm).
  - reflexivity.
  - vm_compute. discriminate.
  - vm_compute. discriminate.
  - vm_compute. discriminate.
  - reflexivity.
  - split; [exact Hc |]. split; [exact Hr |]. apply Hm.
    + vm_compute. discriminate.
    + vm_compute. reflexivity.
Defined.
